(** * itportal-mcp: snapshot cache, paginated client and HTTP front end

    A shallow embedding of the Go sources

    - [internal/itportal] (client.go, types.go): the paginated remote client,
    - [internal/cache/snapshot.go]: snapshot builder, cache slot and renderer,
    - [internal/mcp] (tools.go, resources.go): the [list_entities],
      [search_docs], [get_entity_details] and [create_device] tool handlers
      and the snapshot resource,
    - [internal/config/config.go]: the configuration loader,
    - [cmd/server/main.go]: the bearer-token middleware,

    followed by the properties proved about them.

    Conventions.  Go [int] is [Z]; no arithmetic of the modelled code can
    overflow 64 bits on realistic inputs ([offset += len(items)] is bounded
    by the item budget).  Go [string] is [string], a sequence of bytes, and
    rune-level operations go through the UTF-8 codec of [GoUtf8].  A nilable
    pointer is an [option].  A Go [(T, error)] result is [error + T].  Remote
    I/O is a transition function on an explicit service state. *)

From Stdlib Require Import ZArith String Ascii List Lia Bool Arith.
From Stdlib Require Import DecimalString DecimalPos DecimalZ.
From Stdlib Require Import SpecFloat.
Import ListNotations.

Local Open Scope string_scope.
Local Open Scope Z_scope.

(* ================================================================== *)
(** * Part I: the program *)
(* ================================================================== *)

(** ** Go runtime and standard-library functions used by the sources *)

Module GoStr.

(** [s[n:]] for [0 <= n]; the empty string once [n] passes the end (the
    callers below only slice within bounds). *)
Fixpoint drop (n : nat) (s : string) : string :=
  match n, s with
  | O, _ => s
  | S _, EmptyString => EmptyString
  | S n', String _ s' => drop n' s'
  end.

(** [strings.HasPrefix(s, prefix)]. *)
Definition HasPrefix (s prefix : string) : bool := String.prefix prefix s.

(** [strings.TrimPrefix(s, prefix)]. *)
Definition TrimPrefix (s prefix : string) : string :=
  if HasPrefix s prefix then drop (String.length prefix) s else s.

(** [strings.ReplaceAll(s, old, new)] for a non-empty [old] (every call in
    the sources passes a non-empty literal): non-overlapping occurrences
    are replaced from left to right.  [skip] counts the bytes of a matched
    occurrence that are still to be consumed. *)
Fixpoint replace_from (skip : nat) (s old new : string) : string :=
  match s with
  | EmptyString => EmptyString
  | String c s' =>
      match skip with
      | S k => replace_from k s' old new
      | O =>
          if String.prefix old s
          then new ++ replace_from (String.length old - 1) s' old new
          else String c (replace_from 0 s' old new)
      end
  end.

Definition ReplaceAll (s old new : string) : string := replace_from 0 s old new.

(** [strings.Join(elems, sep)]. *)
Definition Join (elems : list string) (sep : string) : string :=
  String.concat sep elems.

(** [strconv.Itoa], also the [%d] verb of [fmt]. *)
Definition Itoa (x : Z) : string := NilZero.string_of_int (Z.to_int x).

(** [strconv.Atoi] on decimal text, as a synthetic remote service uses it
    to read back [limit] and [offset]. *)
Definition Atoi (s : string) : option Z :=
  option_map Z.of_int (NilZero.int_of_string s).

(** [s != ""]. *)
Definition nonempty (s : string) : bool := negb (String.eqb s "").

End GoStr.

(** [error] values: a message, or [fmt.Errorf("prefix: %w", err)] wrapping a
    cause. *)
Inductive error : Type :=
| Err (msg : string)
| Wrap (prefix : string) (cause : error).

Fixpoint Error (e : error) : string :=
  match e with
  | Err msg => msg
  | Wrap prefix cause => prefix ++ Error cause
  end.

(** ** [net/url].Values and [net/http].Header, as far as the sources use them *)

Module Url.

(** [url.Values]: the sources only call [Set] and only with distinct keys per
    call site; kept as an association list in insertion order. *)
Definition Values := list (string * string).

Fixpoint Del (q : Values) (key : string) : Values :=
  match q with
  | [] => []
  | (k, v) :: q' => if String.eqb k key then Del q' key else (k, v) :: Del q' key
  end.

Definition Set_ (q : Values) (key value : string) : Values :=
  (Del q key ++ [(key, value)])%list.

Fixpoint Get (q : Values) (key : string) : string :=
  match q with
  | [] => ""
  | (k, v) :: q' => if String.eqb k key then v else Get q' key
  end.

Fixpoint Has (q : Values) (key : string) : bool :=
  match q with
  | [] => false
  | (k, _) :: q' => String.eqb k key || Has q' key
  end.

End Url.

(* ================================================================== *)
(** ** Package [itportal]: the paginated remote client (client.go) *)
(* ================================================================== *)

Module Itportal.
Import GoStr.

(** [ListOptions]: common query parameters supported by list endpoints. *)
Record ListOptions : Type := mkListOptions {
  Name : string;
  NameStartsWith : string;
  CompanyID : string;
  SiteID : string;
  FacilityID : string;
  CabinetID : string;
  TypeName : string;
  IPAddress : string;
  MacAddress : string;
  SerialNumber : string;
  Tag : string;
  Manufacturer : string;
  ModifiedSince : string;
  InOut : option bool;
  Deleted : option bool;
  ForeignID : string;
  Limit : Z;
  Offset : Z;
  OrderBy : string;
  Extra : list (string * string)
}.

(** The zero value [&ListOptions{}]. *)
Definition zeroListOptions : ListOptions :=
  mkListOptions "" "" "" "" "" "" "" "" "" "" "" "" "" None None "" 0 0 "" [].

(** [pagOpts := *opts; pagOpts.Limit = l; pagOpts.Offset = o]. *)
Definition withPage (o : ListOptions) (l off : Z) : ListOptions :=
  mkListOptions (Name o) (NameStartsWith o) (CompanyID o) (SiteID o)
    (FacilityID o) (CabinetID o) (TypeName o) (IPAddress o) (MacAddress o)
    (SerialNumber o) (Tag o) (Manufacturer o) (ModifiedSince o) (InOut o)
    (Deleted o) (ForeignID o) l off (OrderBy o) (Extra o).

Definition FormatBool (b : bool) : string := if b then "true" else "false".

Definition setStr (key value : string) (q : Url.Values) : Url.Values :=
  if nonempty value then Url.Set_ q key value else q.

Definition setBool (key : string) (value : option bool) (q : Url.Values) : Url.Values :=
  match value with
  | Some b => Url.Set_ q key (FormatBool b)
  | None => q
  end.

Definition setPos (key : string) (value : Z) (q : Url.Values) : Url.Values :=
  if 0 <? value then Url.Set_ q key (Itoa value) else q.

(** [ListOptions.toQuery]; a nil receiver gives the empty query.  The
    [Extra] map is ranged over last (Go leaves its order unspecified; the
    list order stands for the order of that run). *)
Definition toQuery (o : option ListOptions) : Url.Values :=
  match o with
  | None => []
  | Some o =>
      let q := [] in
      let q := setStr "name" (Name o) q in
      let q := setStr "nameStartsWith" (NameStartsWith o) q in
      let q := setStr "companyId" (CompanyID o) q in
      let q := setStr "siteId" (SiteID o) q in
      let q := setStr "facilityId" (FacilityID o) q in
      let q := setStr "cabinetId" (CabinetID o) q in
      let q := setStr "typeName" (TypeName o) q in
      let q := setStr "ipAddress" (IPAddress o) q in
      let q := setStr "macAddress" (MacAddress o) q in
      let q := setStr "serialNumber" (SerialNumber o) q in
      let q := setStr "tag" (Tag o) q in
      let q := setStr "manufacturer" (Manufacturer o) q in
      let q := setStr "modifiedSince" (ModifiedSince o) q in
      let q := setBool "inOut" (InOut o) q in
      let q := setBool "deleted" (Deleted o) q in
      let q := setStr "foreignId" (ForeignID o) q in
      let q := setPos "limit" (Limit o) q in
      let q := setPos "offset" (Offset o) q in
      let q := setStr "orderBy" (OrderBy o) q in
      fold_left (fun q kv => Url.Set_ q (fst kv) (snd kv)) (Extra o) q
  end.

(** [if opts == nil { opts = &ListOptions{} }]. *)
Definition orZero (opts : option ListOptions) : ListOptions :=
  match opts with
  | Some o => o
  | None => zeroListOptions
  end.

(** One HTTP exchange as [Client.do] issues it. *)
Record Request : Type := mkRequest {
  req_method : string;
  req_path : string;
  req_query : Url.Values
}.

(** The decoded list envelope: [data.results] and [data.total]. *)
Definition Page (T : Type) : Type := (list T * Z)%type.

Section Paging.
(** The item kind [T], and the remote collection service seen through
    [Client.do] followed by [json.Unmarshal]: from its current state
    and a request it yields its next state and either an error (transport
    failure, non-2xx status, undecodable body) or the decoded page. *)
Variable T : Type.
Variable St : Type.
Variable serve : St -> Request -> St * (error + Page T).

(** [listPage] fetches a single page of entities. *)
Definition listPage (st : St) (path : string) (opts : option ListOptions)
  : St * (error + Page T) :=
  serve st (mkRequest "GET" path (toQuery opts)).

Definition pageSize : Z := 100.

(** The variables of [listAll]'s loop, with the requests issued so far
    as a ghost trace (most recent last). *)
Record Loop : Type := mkLoop {
  l_st : St;
  l_all : list T;
  l_offset : Z;
  l_trace : list Request
}.

(** What [listAll] hands back: the final service state, the requests it
    issued, and its Go result [([]T, error)]. *)
Record Outcome : Type := mkOutcome {
  o_st : St;
  o_trace : list Request;
  o_result : error + list T
}.

Inductive Iter : Type :=
| Continue (l : Loop)
| Break (o : Outcome).

(** The request of the pass that starts in [l]: [pagOpts] is a copy of
    [opts] with [Limit = pageSize] and [Offset = offset]. *)
Definition next_request (path : string) (opts : ListOptions) (l : Loop) : Request :=
  mkRequest "GET" path (toQuery (Some (withPage opts pageSize (l_offset l)))).

(** One pass through the body of [for { ... }] in [listAll]. *)
Definition listAll_body (path : string) (opts : ListOptions) (maxItems : Z)
           (l : Loop) : Iter :=
  let pagOpts := withPage opts pageSize (l_offset l) in
  let '(st', r) := listPage (l_st l) path (Some pagOpts) in
  let trace := (l_trace l ++ [next_request path opts l])%list in
  match r with
  | inl err => Break (mkOutcome st' trace (inl err))
  | inr (items, total) =>
      let all := (l_all l ++ items)%list in
      let offset := l_offset l + Z.of_nat (List.length items) in
      if (offset >=? total) || (offset >=? maxItems)
         || (Z.of_nat (List.length items) =? 0)
      then Break (mkOutcome st' trace (inr all))
      else Continue (mkLoop st' all offset trace)
  end.

(** The loop, unrolled at most [fuel] times; [None] when the fuel runs
    out before the loop leaves. *)
Fixpoint listAll_loop (fuel : nat) (path : string) (opts : ListOptions)
         (maxItems : Z) (l : Loop) : option Outcome :=
  match fuel with
  | O => None
  | S fuel' =>
      match listAll_body path opts maxItems l with
      | Break o => Some o
      | Continue l' => listAll_loop fuel' path opts maxItems l'
      end
  end.

(** Enough unrollings for any service: every pass that continues has
    raised [offset] by at least one and left it below [maxItems]. *)
Definition listAll_fuel (maxItems : Z) : nat := S (Z.to_nat maxItems).

(** [listAll] fetches all pages up to [maxItems] using the configured
    page size. *)
Definition listAll (st : St) (path : string) (opts : option ListOptions)
           (maxItems : Z) : option Outcome :=
  listAll_loop (listAll_fuel maxItems) path (orZero opts) maxItems (mkLoop st [] 0 []).

(** *** Synthetic remote collections

    The service of the pagination scenarios: it reads [limit] and [offset]
    back from the query string. *)

Definition query_int (q : Url.Values) (key : string) : Z :=
  match Atoi (Url.Get q key) with
  | Some z => z
  | None => 0
  end.

(** A stateless service backed by the collection [coll]: each request gets
    the slice [coll[offset : offset+limit]] and the collection's size. *)
Definition synthetic (coll : list T) (st : unit) (req : Request)
  : unit * (error + Page T) :=
  let limit := query_int (req_query req) "limit" in
  let offset := query_int (req_query req) "offset" in
  (st, inr (firstn (Z.to_nat limit) (skipn (Z.to_nat offset) coll),
            Z.of_nat (List.length coll))).

(** [serve] declares [total] and answers every page request with
    [min(limit, remaining)] items, [remaining] being what lies beyond the
    requested offset (a negative offset reads as 0). *)
Definition declares (total : Z) : Prop :=
  forall (st : St) (req : Request),
  exists items : list T,
    snd (serve st req) = inr (items, total) /\
    Z.of_nat (List.length items) =
      Z.max 0 (Z.min (query_int (req_query req) "limit")
                     (total - Z.max 0 (query_int (req_query req) "offset"))).

End Paging.

(** [ceil(a / b)] on integers. *)
Definition ceil_div (a b : Z) : Z := (a + b - 1) / b.

Arguments listPage {T St} serve st path opts.
Arguments synthetic {T} coll st req.
Arguments declares {T St} serve total.
Arguments next_request {T St} path opts l.
Arguments listAll_body {T St} serve path opts maxItems l.
Arguments listAll_loop {T St} serve fuel path opts maxItems l.
Arguments listAll {T St} serve st path opts maxItems.
Arguments mkLoop {T St} _ _ _ _.
Arguments mkOutcome {T St} _ _ _.
Arguments Continue {T St} _.
Arguments Break {T St} _.
Arguments l_st {T St} _.
Arguments l_all {T St} _.
Arguments l_offset {T St} _.
Arguments l_trace {T St} _.
Arguments o_st {T St} _.
Arguments o_trace {T St} _.
Arguments o_result {T St} _.

End Itportal.

(** ** [log/slog] records, as far as the sources emit them *)

Inductive LogLevel : Type := LevelInfo | LevelWarn | LevelError.

Inductive LogValue : Type :=
| VStr (s : string)
| VInt (n : Z)
| VErr (e : error).

Record LogRecord : Type := mkLog {
  log_level : LogLevel;
  log_msg : string;
  log_attrs : list (string * LogValue)
}.

(* ================================================================== *)
(** ** Package [mcp]: the [list_entities] tool (tools.go) *)
(* ================================================================== *)

Module Mcp.
Import GoStr.

Record ListEntitiesInput : Type := mkListEntitiesInput {
  EntityType : string;
  Name : string;
  NameStartsWith : string;
  CompanyID : string;
  SiteID : string;
  TypeName : string;
  IPAddress : string;
  SerialNumber : string;
  Manufacturer : string;
  ModifiedSince : string;
  Limit : Z;
  Offset : Z
}.

(** The anonymous [result] struct that is marshalled into the tool's text. *)
Record result (Item : Type) : Type := mkResult {
  r_Total : Z;
  r_Offset : Z;
  r_Limit : Z;
  r_Items : list Item
}.
Arguments mkResult {Item} _ _ _ _.
Arguments r_Total {Item} _.
Arguments r_Offset {Item} _.
Arguments r_Limit {Item} _.
Arguments r_Items {Item} _.

(** The three ways the handler returns: [toolText(json)],
    [toolError(fmt.Sprintf(format, arg))], or a Go error. *)
Inductive ToolResult (Item : Type) : Type :=
| ToolText (r : result Item)
| ToolError (format : string) (arg : string)
| GoError (e : error).
Arguments ToolText {Item} _.
Arguments ToolError {Item} _ _.
Arguments GoError {Item} _.

(** [input.Limit] after the two clamping statements that open
    [ListEntities]. *)
Definition effectiveLimit (limit : Z) : Z :=
  let limit := if limit <=? 0 then 50 else limit in
  if limit >? 500 then 500 else limit.

(** The arms of the [switch] on the normalised entity type: a single
    [listPage] with the caller's options, a [listAll] helper that takes no
    options, or the [default] arm. *)
Inductive Endpoint : Type :=
| Paged (path : string) (errPrefix : string)
| Unpaged (path : string) (errPrefix : string) (max : Z)
| Unknown.

Definition endpoint (kind : string) : Endpoint :=
  if String.eqb kind "company" then Paged "/api/2.0/companies/" "list companies: "
  else if String.eqb kind "site" then Paged "/api/2.0/sites/" "list sites: "
  else if String.eqb kind "device" then Paged "/api/2.0/devices/" "list devices: "
  else if String.eqb kind "kb" || String.eqb kind "knowledgebase"
       then Paged "/api/2.0/kbs/" "list KBs: "
  else if String.eqb kind "contact" then Paged "/api/2.0/contacts/" "list contacts: "
  else if String.eqb kind "account" then Paged "/api/2.0/accounts/" "list accounts: "
  else if String.eqb kind "agreement" then Paged "/api/2.0/agreements/" "list agreements: "
  else if String.eqb kind "document" then Paged "/api/2.0/documents/" "list documents: "
  else if String.eqb kind "facility" then Paged "/api/2.0/facilities/" "list facilities: "
  else if String.eqb kind "cabinet" then Paged "/api/2.0/cabinets/" "list cabinets: "
  else if String.eqb kind "configuration"
       then Paged "/api/2.0/configurations/" "list configurations: "
  else if String.eqb kind "ipnetwork" then Paged "/api/2.0/ipnetworks/" "list IP networks: "
  else if String.eqb kind "kbcategory"
       then Unpaged "/api/2.0/categories/kb/" "list KB categories: " 500
  else if String.eqb kind "devicetype"
       then Unpaged "/api/2.0/types/device/" "list device types: " 500
  else if String.eqb kind "template" then Paged "/api/2.0/templates/" "list templates: "
  else Unknown.

Section Handler.
(** Decoded items of any kind (the handler only passes them on), the
    remote service behind [h.client], and [strings.ToLower]. *)
Variable Item : Type.
Variable St : Type.
Variable serve : St -> Itportal.Request -> St * (error + Itportal.Page Item).
Variable ToLower : string -> string.

(** What one invocation did: the service state it left, the requests it
    sent, and what it returned. *)
Record Invocation : Type := mkInvocation {
  i_st : St;
  i_sent : list Itportal.Request;
  i_result : ToolResult Item
}.

(** [strings.ToLower(strings.ReplaceAll(input.EntityType, "_", ""))]. *)
Definition kindOf (input : ListEntitiesInput) : string :=
  ToLower (ReplaceAll (EntityType input) "_" "").

(** [opts] as [ListEntities] fills it in. *)
Definition optionsOf (input : ListEntitiesInput) : Itportal.ListOptions :=
  Itportal.mkListOptions
    (Name input) (NameStartsWith input) (CompanyID input) (SiteID input)
    "" "" (TypeName input) (IPAddress input) "" (SerialNumber input) ""
    (Manufacturer input) (ModifiedSince input) None None ""
    (effectiveLimit (Limit input)) (Offset input) "" [].

(** [ListEntities] lists entities of the given type with optional filters.
    [None] stands for a call that does not return (the [listAll] loop out of
    fuel). *)
Definition ListEntities (st : St) (input : ListEntitiesInput) : option Invocation :=
  let limit := effectiveLimit (Limit input) in
  let opts := optionsOf input in
  match endpoint (kindOf input) with
  | Paged path errPrefix =>
      let req := Itportal.mkRequest "GET" path (Itportal.toQuery (Some opts)) in
      match Itportal.listPage serve st path (Some opts) with
      | (st', inl err) =>
          Some (mkInvocation st' [req] (GoError (Wrap errPrefix err)))
      | (st', inr (v, t)) =>
          Some (mkInvocation st' [req]
                  (ToolText (mkResult t (Offset input) limit v)))
      end
  | Unpaged path errPrefix max =>
      match Itportal.listAll serve st path None max with
      | None => None
      | Some o =>
          Some (mkInvocation (Itportal.o_st o) (Itportal.o_trace o)
                  match Itportal.o_result o with
                  | inl err => GoError (Wrap errPrefix err)
                  | inr v =>
                      ToolText (mkResult (Z.of_nat (List.length v)) (Offset input) limit v)
                  end)
      end
  | Unknown =>
      Some (mkInvocation st []
              (ToolError
                 "unknown entity_type %q. Valid values: company, site, device, kb, contact, account, agreement, document, facility, cabinet, configuration, ipnetwork, kb_category, device_type, template"
                 (EntityType input)))
  end.

End Handler.

Arguments mkInvocation {Item St} _ _ _.
Arguments i_st {Item St} _.
Arguments i_sent {Item St} _.
Arguments i_result {Item St} _.
Arguments ListEntities {Item St} serve ToLower st input.

(** [strings.ToLower] on ASCII text. *)
Definition asciiLower (c : ascii) : ascii :=
  let n := nat_of_ascii c in
  if ((65 <=? n) && (n <=? 90))%nat then ascii_of_nat (n + 32) else c.

Fixpoint ToLowerASCII (s : string) : string :=
  match s with
  | EmptyString => EmptyString
  | String c s' => String (asciiLower c) (ToLowerASCII s')
  end.

End Mcp.

(* ================================================================== *)
(** ** Package [main]: bearer-token middleware (cmd/server/main.go) *)
(* ================================================================== *)

Module Server.
Import GoStr.

(** [http.Header]: canonical header name to its values. *)
Definition Header := list (string * list string).

(** [Header.Get]: the first value of the key, [""] when there is none. *)
Fixpoint Header_Get (h : Header) (key : string) : string :=
  match h with
  | [] => ""
  | (k, vs) :: h' =>
      if String.eqb k key
      then match vs with v :: _ => v | [] => "" end
      else Header_Get h' key
  end.

Record HttpRequest : Type := mkHttpRequest {
  req_Header : Header;
  RemoteAddr : string
}.

Definition StatusUnauthorized : Z := 401.
Definition StatusForbidden : Z := 403.

(** What the middleware does with a request: hand it to [next.ServeHTTP], or
    answer it with [http.Error(w, body, code)]. *)
Inductive Handled : Type :=
| Next
| HttpError (body : string) (code : Z).

(** [apiKeyMiddleware] enforces Bearer token authentication on all
    requests; the result pairs the log records written with the handling. *)
Definition apiKeyMiddleware (expectedKey : string) (r : HttpRequest)
  : list LogRecord * Handled :=
  let authHeader := Header_Get (req_Header r) "Authorization" in
  if negb (HasPrefix authHeader "Bearer ") then
    ([mkLog LevelWarn "missing or malformed Authorization header"
        [("remote", VStr (RemoteAddr r))]],
     HttpError "Unauthorized" StatusUnauthorized)
  else
    let token := TrimPrefix authHeader "Bearer " in
    if negb (String.eqb token expectedKey) then
      ([mkLog LevelWarn "invalid API key" [("remote", VStr (RemoteAddr r))]],
       HttpError "Forbidden" StatusForbidden)
    else ([], Next).

End Server.

(* ================================================================== *)
(** ** Package [itportal]: entity types (types.go) *)
(* ================================================================== *)

(** [float64] fields are carried as IEEE 754 values; no modelled function
    reads them. *)
Definition float64 : Type := SpecFloat.spec_float.

(** The Go structs of shape [{ID int; Name string}]: [CompanyReference],
    [SiteReference], [ContactReference], [DocumentReference],
    [DeviceReference], [FacilityReference], [CabinetReference],
    [IPNetworkReference], [TypeItem], [KBCategory], [ContactType],
    [AccountType], [AgreementType], [DocumentType], [FacilityType] and
    [ConfigurationType]. *)
Module Ref.
Record t : Type := mk { ID : Z; Name : string }.
End Ref.

Definition CompanyReference := Ref.t.
Definition SiteReference := Ref.t.
Definition ContactReference := Ref.t.
Definition DocumentReference := Ref.t.
Definition DeviceReference := Ref.t.
Definition FacilityReference := Ref.t.
Definition CabinetReference := Ref.t.
Definition IPNetworkReference := Ref.t.
Definition TypeItem := Ref.t.
Definition KBCategory := Ref.t.
Definition ContactType := Ref.t.
Definition AccountType := Ref.t.
Definition AgreementType := Ref.t.
Definition DocumentType := Ref.t.
Definition FacilityType := Ref.t.
Definition ConfigurationType := Ref.t.

Module ContactEmailReference.
Record t : Type := mk { ID : Z; Email : string; Name : string }.
End ContactEmailReference.

(** [UserReference] is used for [reviewBy] fields. *)
Module UserReference.
Record t : Type := mk { ID : Z; Contact : option ContactEmailReference.t }.
End UserReference.

(** [IPRef] represents an IP address record used inside [IPNetwork]. *)
Module IPRef.
Record t : Type := mk { ID : Z; IP : string }.
End IPRef.

Module Address.
Record t : Type := mk {
  ID : Z;
  Address1 : string;
  Address2 : string;
  City : string;
  State : string;
  Zip : string;
  Country : string
}.
End Address.

Module Company.
Record t : Type := mk {
  ID : Z;
  ParentCompany : option CompanyReference;
  Name : string;
  Site : option SiteReference;
  Address : option Address.t;
  StartDate : string;
  Description : string;
  Abbreviation : string;
  WebSite : string;
  Status : string;
  Notes : string;
  NotesHtml : bool;
  RemoteAccessNotes : string;
  RemoteAccessNotesHtml : bool;
  ForeignID : Z;
  InOut : option bool;
  InOutNotes : string;
  Modified : string;
  URL : string
}.
End Company.

Module Site.
Record t : Type := mk {
  ID : Z;
  Name : string;
  Company : option CompanyReference;
  Description : string;
  Contact : option ContactReference;
  Diagram : option DocumentReference;
  NumberOfPCs : Z;
  ReviewBy : option UserReference.t;
  DueDate : string;
  Address : option Address.t;
  ForeignID : Z;
  ForeignType : string;
  InOut : option bool;
  InOutNotes : string;
  Modified : string;
  URL : string
}.
End Site.

Module Device.
Record t : Type := mk {
  ID : Z;
  Name : string;
  Company : option CompanyReference;
  Site : option SiteReference;
  Cabinet : option CabinetReference;
  Facility : option FacilityReference;
  Type_ : option TypeItem;
  Description : string;
  Location : string;
  Domain : string;
  InstallDate : string;
  WarrantyExpires : string;
  PurchaseDate : string;
  RetireDate : string;
  LeaseEndDate : string;
  Manufacturer : string;
  Model : string;
  IMEI : string;
  Serial : string;
  Tag : string;
  NumberCPU : Z;
  NumberCores : Z;
  PurchasePrice : float64;
  ReviewBy : option UserReference.t;
  DueDate : string;
  ForeignID : Z;
  ForeignType : string;
  InOut : option bool;
  InOutNotes : string;
  Modified : string;
  URL : string
}.
End Device.

(** [Credential] represents a username/password pair associated with an
    account or device. *)
Module Credential.
Record t : Type := mk {
  ID : Z;
  Username : string;
  Password : string;
  Description : string;
  Domain : string;
  TwoFACode : string
}.
End Credential.

(** [AdditionalCredential] is a portal-level credential record. *)
Module AdditionalCredential.
Record t : Type := mk {
  ID : Z;
  URL : string;
  Username : string;
  Password : string;
  Description : string
}.
End AdditionalCredential.

Module KB.
Record t : Type := mk {
  ID : Z;
  Name : string;
  Company : option CompanyReference;
  Description : string;
  URIPath : string;
  Public : bool;
  Expires : string;
  Category : option KBCategory;
  ReviewBy : option UserReference.t;
  DueDate : string;
  InOut : option bool;
  InOutNotes : string;
  Modified : string;
  URL : string
}.
End KB.

Module Contact.
Record t : Type := mk {
  ID : Z;
  Company : option CompanyReference;
  FirstName : string;
  MiddleInitial : string;
  LastName : string;
  Type_ : option ContactType;
  Site : option SiteReference;
  Email : string;
  DirectNumber : string;
  Extension : string;
  DirectFax : string;
  HomePhone : string;
  Mobile : string;
  Notes : string;
  Modified : string;
  URL : string
}.
End Contact.

Module Account.
Record t : Type := mk {
  ID : Z;
  Company : option CompanyReference;
  Type_ : option AccountType;
  Username : string;
  Password : string;
  TwoFACode : string;
  AccountNumber : string;
  Expires : string;
  Description : string;
  Email : string;
  Representative : string;
  AccountURL : string;
  TechTelephone : string;
  SalesTelephone : string;
  ReviewBy : option UserReference.t;
  DueDate : string;
  Notes : string;
  Modified : string;
  URL : string
}.
End Account.

Module Agreement.
Record t : Type := mk {
  ID : Z;
  Company : option CompanyReference;
  Type_ : option AgreementType;
  Description : string;
  Vendor : string;
  Site : option SiteReference;
  Contact : option ContactReference;
  Count : Z;
  Cost : float64;
  DateIssued : string;
  DateExpires : string;
  SerialNumber : string;
  InstallDate : string;
  ReviewBy : option UserReference.t;
  DueDate : string;
  ForeignID : Z;
  ForeignType : string;
  Notes : string;
  Modified : string;
  URL : string
}.
End Agreement.

Module Document.
Record t : Type := mk {
  ID : Z;
  Company : option CompanyReference;
  Type_ : option DocumentType;
  Description : string;
  URLLink : string;
  Public : bool;
  ReviewBy : option UserReference.t;
  DueDate : string;
  InOut : option bool;
  InOutNotes : string;
  Modified : string;
  URL : string
}.
End Document.

Module IPNetwork.
Record t : Type := mk {
  ID : Z;
  Name : string;
  Company : option CompanyReference;
  Description : string;
  Site : option SiteReference;
  Network : string;
  SubnetMask : string;
  DefaultGateway : option IPRef.t;
  DNSServer1 : option IPRef.t;
  DNSServer2 : option IPRef.t;
  DHCPServer : option IPRef.t;
  VlanID : Z;
  ReviewBy : option UserReference.t;
  DueDate : string;
  Notes : string;
  Modified : string
}.
End IPNetwork.

Module Facility.
Record t : Type := mk {
  ID : Z;
  Name : string;
  Company : option CompanyReference;
  Type_ : option FacilityType;
  Site : option SiteReference;
  Description : string;
  NumberOfUsers : Z;
  Diagram : option DocumentReference;
  ReviewBy : option UserReference.t;
  DueDate : string;
  Address : option Address.t;
  Notes : string;
  Modified : string;
  URL : string
}.
End Facility.

Module Cabinet.
Record t : Type := mk {
  ID : Z;
  Name : string;
  Company : option CompanyReference;
  Description : string;
  Site : option SiteReference;
  Facility : option FacilityReference;
  Contact : option ContactReference;
  Diagram : option DocumentReference;
  ReviewBy : option UserReference.t;
  DueDate : string;
  Address : option Address.t;
  Notes : string;
  Modified : string;
  URL : string
}.
End Cabinet.

Module Configuration.
Record t : Type := mk {
  ID : Z;
  Name : string;
  Company : option CompanyReference;
  Type_ : option ConfigurationType;
  Device : option DeviceReference;
  URIPath : string;
  InstallDate : string;
  DateExpires : string;
  ReviewBy : option UserReference.t;
  DueDate : string;
  Notes : string;
  Modified : string;
  URL : string
}.
End Configuration.

(* ================================================================== *)
(** ** Runes: [unicode/utf8], [unicode] and the rune-wise [strings] functions *)
(* ================================================================== *)

Module GoUtf8.

Definition rune : Type := Z.

Definition RuneError : rune := 0xFFFD.
Definition RuneSelf : Z := 0x80.
Definition MaxRune : rune := 0x10FFFF.
Definition UTFMax : nat := 4.
Definition surrogateMin : rune := 0xD800.
Definition surrogateMax : rune := 0xDFFF.

Definition t1 : Z := 0x00.
Definition tx : Z := 0x80.
Definition t2 : Z := 0xC0.
Definition t3 : Z := 0xE0.
Definition t4 : Z := 0xF0.
Definition maskx : Z := 0x3F.
Definition mask2 : Z := 0x1F.
Definition mask3 : Z := 0x0F.
Definition mask4 : Z := 0x07.
Definition rune1Max : rune := 0x7F.
Definition rune2Max : rune := 0x7FF.
Definition rune3Max : rune := 0xFFFF.
Definition locb : Z := 0x80.
Definition hicb : Z := 0xBF.

(** Entries of the table [first]: [as] is ASCII, [xx] invalid, the others
    carry the accept-range index in the high nibble and the size in the
    low one. *)
Definition xx : Z := 0xF1.
Definition as_ : Z := 0xF0.
Definition s1 : Z := 0x02.
Definition s2 : Z := 0x13.
Definition s3 : Z := 0x03.
Definition s4 : Z := 0x23.
Definition s5 : Z := 0x34.
Definition s6 : Z := 0x04.
Definition s7 : Z := 0x44.

(** The value of a byte, and the byte of a value below 256. *)
Definition byte_val (c : ascii) : Z := Z.of_N (N_of_ascii c).
Definition chr (z : Z) : ascii := ascii_of_N (Z.to_N z).

(** The conversion [byte(x)] of a non-negative integer. *)
Definition u8 (x : Z) : Z := Z.land x 0xFF.

(** [s[i]], 0 beyond the end (never read there). *)
Definition at_ (s : string) (i : nat) : Z :=
  match String.get i s with
  | Some c => byte_val c
  | None => 0
  end.

(** The table [first], by the ranges of its initialiser. *)
Definition first (b : Z) : Z :=
  if b <? 0x80 then as_
  else if b <? 0xC2 then xx
  else if b <? 0xE0 then s1
  else if b =? 0xE0 then s2
  else if b <? 0xED then s3
  else if b =? 0xED then s4
  else if b <? 0xF0 then s3
  else if b =? 0xF0 then s5
  else if b <? 0xF4 then s6
  else if b =? 0xF4 then s7
  else xx.

(** [acceptRanges[i]] as [(lo, hi)]. *)
Definition acceptRanges (i : Z) : Z * Z :=
  if i =? 0 then (locb, hicb)
  else if i =? 1 then (0xA0, hicb)
  else if i =? 2 then (locb, 0x9F)
  else if i =? 3 then (0x90, hicb)
  else if i =? 4 then (locb, 0x8F)
  else (0, 0).

(** [utf8.DecodeRuneInString]: the first rune of [s] and its width in
    bytes; [(RuneError, 0)] on the empty string and [(RuneError, 1)] on an
    invalid encoding. *)
Definition DecodeRuneInString (s : string) : rune * nat :=
  let n := String.length s in
  if (n <? 1)%nat then (RuneError, 0%nat)
  else
    let s0 := at_ s 0 in
    let x := first s0 in
    if x >=? as_ then ((if x =? as_ then s0 else RuneError), 1%nat)
    else
      let sz := Z.land x 7 in
      let accept := acceptRanges (Z.shiftr x 4) in
      if Z.of_nat n <? sz then (RuneError, 1%nat)
      else
        let b1 := at_ s 1 in
        if (b1 <? fst accept) || (snd accept <? b1) then (RuneError, 1%nat)
        else if sz <=? 2
        then (Z.lor (Z.shiftl (Z.land s0 mask2) 6) (Z.land b1 maskx), 2%nat)
        else
          let b2 := at_ s 2 in
          if (b2 <? locb) || (hicb <? b2) then (RuneError, 1%nat)
          else if sz <=? 3
          then (Z.lor (Z.lor (Z.shiftl (Z.land s0 mask3) 12)
                             (Z.shiftl (Z.land b1 maskx) 6))
                      (Z.land b2 maskx), 3%nat)
          else
            let b3 := at_ s 3 in
            if (b3 <? locb) || (hicb <? b3) then (RuneError, 1%nat)
            else (Z.lor (Z.lor (Z.lor (Z.shiftl (Z.land s0 mask4) 18)
                                      (Z.shiftl (Z.land b1 maskx) 12))
                               (Z.shiftl (Z.land b2 maskx) 6))
                        (Z.land b3 maskx), 4%nat).

Definition encode3 (r : rune) : string :=
  String (chr (Z.lor t3 (u8 (Z.shiftr r 12))))
    (String (chr (Z.lor tx (Z.land (u8 (Z.shiftr r 6)) maskx)))
       (String (chr (Z.lor tx (Z.land (u8 r) maskx))) EmptyString)).

(** [utf8.AppendRune(nil, r)], the bytes [WriteRune] and [string(rune)]
    produce: a rune outside the valid range or a surrogate is written as
    [RuneError]. *)
Definition EncodeRune (r : rune) : string :=
  if (0 <=? r) && (r <=? rune1Max) then String (chr (u8 r)) EmptyString
  else if (0 <=? r) && (r <=? rune2Max) then
    String (chr (Z.lor t2 (u8 (Z.shiftr r 6))))
      (String (chr (Z.lor tx (Z.land (u8 r) maskx))) EmptyString)
  else if (r <? 0) || (MaxRune <? r) || ((surrogateMin <=? r) && (r <=? surrogateMax))
  then encode3 RuneError
  else if r <=? rune3Max then encode3 r
  else
    String (chr (Z.lor t4 (u8 (Z.shiftr r 18))))
      (String (chr (Z.lor tx (Z.land (u8 (Z.shiftr r 12)) maskx)))
         (String (chr (Z.lor tx (Z.land (u8 (Z.shiftr r 6)) maskx)))
            (String (chr (Z.lor tx (Z.land (u8 r) maskx))) EmptyString))).

(** [string(runes)]. *)
Fixpoint string_of_runes (rs : list rune) : string :=
  match rs with
  | [] => EmptyString
  | r :: rs' => EncodeRune r ++ string_of_runes rs'
  end.

(** The iterations of [for _, r := range s]: each rune with the bytes it
    was decoded from.  [skip] counts the bytes of the previous rune that are
    still to be passed over. *)
Fixpoint range_from (skip : nat) (s : string) : list (rune * string) :=
  match s with
  | EmptyString => []
  | String _ s' =>
      match skip with
      | S k => range_from k s'
      | O =>
          let (r, w) := DecodeRuneInString s in
          (r, substring 0 w s) :: range_from (w - 1) s'
      end
  end.

Definition range (s : string) : list (rune * string) := range_from 0 s.

(** [[]rune(s)]. *)
Definition runes (s : string) : list rune := map fst (range s).

(** [utf8.RuneCountInString]. *)
Definition RuneCountInString (s : string) : Z := Z.of_nat (List.length (runes s)).

(** [unicode.IsSpace]. *)
Definition IsSpace (r : rune) : bool :=
  if r <=? 0xFF then
    (r =? 9) || (r =? 10) || (r =? 11) || (r =? 12) || (r =? 13)
    || (r =? 32) || (r =? 0x85) || (r =? 0xA0)
  else
    (r =? 0x1680) || ((0x2000 <=? r) && (r <=? 0x200A))
    || (r =? 0x2028) || (r =? 0x2029) || (r =? 0x202F) || (r =? 0x205F)
    || (r =? 0x3000).

(** [strings.FieldsFunc(s, f)] over the iterations of [range s]: [cur] is
    the span that is open ([start >= 0]), as the bytes it covers so far. *)
Fixpoint fields_from (f : rune -> bool) (cur : option string)
         (its : list (rune * string)) : list string :=
  match its with
  | [] => match cur with Some w => [w] | None => [] end
  | (r, bytes) :: its' =>
      if f r then
        match cur with
        | Some w => w :: fields_from f None its'
        | None => fields_from f None its'
        end
      else
        fields_from f (Some (match cur with Some w => w ++ bytes | None => bytes end)) its'
  end.

Definition FieldsFunc (s : string) (f : rune -> bool) : list string :=
  fields_from f None (range s).

(** [strings.Fields]: its ASCII fast path computes the same fields as
    [FieldsFunc(s, unicode.IsSpace)], which it calls on any other input. *)
Definition Fields (s : string) : list string := FieldsFunc s IsSpace.

(** [strings.TrimLeftFunc(s, f)]. *)
Fixpoint trim_left (f : rune -> bool) (its : list (rune * string)) : string :=
  match its with
  | [] => EmptyString
  | (r, bytes) :: its' =>
      if f r then trim_left f its'
      else String.concat EmptyString (map snd its)
  end.

Definition TrimLeftFunc (s : string) (f : rune -> bool) : string :=
  trim_left f (range s).

Definition rev_string (s : string) : string :=
  string_of_list_ascii (rev (list_ascii_of_string s)).

(** [utf8.RuneStart]. *)
Definition RuneStart (b : Z) : bool := negb (Z.land b 0xC0 =? 0x80).

(** The backwards scan of [DecodeLastRuneInString]: how many bytes before
    the last one to step back, at most [budget], to reach a byte that can
    start a rune; all of [budget] when there is none.  [back] is the string
    before the last byte, reversed. *)
Fixpoint scan_back (budget : nat) (back : string) : nat :=
  match budget, back with
  | O, _ => O
  | S _, EmptyString => O
  | S k, String c back' =>
      if RuneStart (byte_val c) then 1%nat else S (scan_back k back')
  end.

(** [utf8.DecodeLastRuneInString]. *)
Definition DecodeLastRuneInString (s : string) : rune * nat :=
  match rev_string s with
  | EmptyString => (RuneError, 0%nat)
  | String c back =>
      if byte_val c <? RuneSelf then (byte_val c, 1%nat)
      else
        let stepped := Nat.min (scan_back (UTFMax - 1) back) (String.length back) in
        let start := (String.length s - 1 - stepped)%nat in
        let (r, size) := DecodeRuneInString (substring start (S stepped) s) in
        if (start + size =? String.length s)%nat then (r, size) else (RuneError, 1%nat)
  end.

(** [strings.TrimRightFunc(s, f)]: runes are taken off the end while [f]
    holds; [fuel] bounds the number of runes. *)
Fixpoint trim_right (fuel : nat) (f : rune -> bool) (s : string) : string :=
  match fuel with
  | O => s
  | S fuel' =>
      match s with
      | EmptyString => s
      | _ =>
          let (r, size) := DecodeLastRuneInString s in
          if f r then trim_right fuel' f (substring 0 (String.length s - size) s)
          else s
      end
  end.

Definition TrimRightFunc (s : string) (f : rune -> bool) : string :=
  trim_right (String.length s) f s.

(** [strings.TrimSpace]: its ASCII fast path agrees with
    [TrimFunc(s, unicode.IsSpace)], which it falls back to. *)
Definition TrimSpace (s : string) : string :=
  TrimRightFunc (TrimLeftFunc s IsSpace) IsSpace.

(** *** Specification-side notions

    The scalar values: every code point but the surrogates. *)
Definition scalar (r : rune) : Prop :=
  0 <= r < surrogateMin \/ surrogateMax < r <= MaxRune.

(** The shapes in which [DecodeRuneInString] returns. *)
Inductive Decoded (s : string) : rune * nat -> Prop :=
| DecEmpty : s = EmptyString -> Decoded s (RuneError, 0%nat)
| DecInvalid : s <> EmptyString -> Decoded s (RuneError, 1%nat)
| Dec1 c0 rest :
    s = String c0 rest -> byte_val c0 < 128 ->
    Decoded s (byte_val c0, 1%nat)
| Dec2 c0 c1 rest :
    s = String c0 (String c1 rest) ->
    194 <= byte_val c0 <= 223 -> 128 <= byte_val c1 <= 191 ->
    Decoded s (byte_val c0 mod 32 * 64 + byte_val c1 mod 64, 2%nat)
| Dec3 c0 c1 c2 rest :
    s = String c0 (String c1 (String c2 rest)) ->
    224 <= byte_val c0 <= 239 -> 128 <= byte_val c1 <= 191 ->
    (byte_val c0 = 224 -> 160 <= byte_val c1) ->
    (byte_val c0 = 237 -> byte_val c1 <= 159) ->
    128 <= byte_val c2 <= 191 ->
    Decoded s (byte_val c0 mod 16 * 4096 + byte_val c1 mod 64 * 64
               + byte_val c2 mod 64, 3%nat)
| Dec4 c0 c1 c2 c3 rest :
    s = String c0 (String c1 (String c2 (String c3 rest))) ->
    240 <= byte_val c0 <= 244 -> 128 <= byte_val c1 <= 191 ->
    (byte_val c0 = 240 -> 144 <= byte_val c1) ->
    (byte_val c0 = 244 -> byte_val c1 <= 143) ->
    128 <= byte_val c2 <= 191 -> 128 <= byte_val c3 <= 191 ->
    Decoded s (byte_val c0 mod 8 * 262144 + byte_val c1 mod 64 * 4096
               + byte_val c2 mod 64 * 64 + byte_val c3 mod 64, 4%nat).

(** [FieldsFunc] on runes: the fields of [rs], [cur] being the open one. *)
Fixpoint fieldsRunes (f : rune -> bool) (cur : option (list rune)) (rs : list rune)
  : list (list rune) :=
  match rs with
  | [] => match cur with Some w => [w] | None => [] end
  | r :: rs' =>
      if f r then
        match cur with
        | Some w => w :: fieldsRunes f None rs'
        | None => fieldsRunes f None rs'
        end
      else
        fieldsRunes f (Some (match cur with Some w => (w ++ [r])%list | None => [r] end)) rs'
  end.

(** [Join(fields, " ")] on runes. *)
Fixpoint joinRunes (fs : list (list rune)) : list rune :=
  match fs with
  | [] => []
  | [w] => w
  | w :: fs' => (w ++ 32 :: joinRunes fs')%list
  end.

End GoUtf8.

(* ================================================================== *)
(** ** [time.Time], as far as the snapshot uses it *)
(* ================================================================== *)

Module Time.
Import GoStr.

(** A UTC instant by its calendar fields, which is all that [Format] reads. *)
Record t : Type := mk {
  Year : Z;
  Month : Z;
  Day : Z;
  Hour : Z;
  Minute : Z;
  Second : Z
}.

Fixpoint zeros (n : nat) : string :=
  match n with
  | O => EmptyString
  | S n' => String "0" (zeros n')
  end.

(** [appendInt(b, x, width)]: decimal, zero-padded to [width] digits. *)
Definition appendInt (x : Z) (width : nat) : string :=
  let digits := Itoa (Z.abs x) in
  (if x <? 0 then "-" else "")
  ++ zeros (width - String.length digits) ++ digits.

(** [t.Format("2006-01-02 15:04:05")]. *)
Definition Format (x : t) : string :=
  appendInt (Year x) 4 ++ "-" ++ appendInt (Month x) 2 ++ "-" ++ appendInt (Day x) 2
  ++ " " ++ appendInt (Hour x) 2 ++ ":" ++ appendInt (Minute x) 2
  ++ ":" ++ appendInt (Second x) 2.

End Time.

(* ================================================================== *)
(** ** Package [cache] (snapshot.go) *)
(* ================================================================== *)

Module Cache.
Import GoStr.

(** [Snapshot] is an immutable point-in-time view of all ITPortal
    documentation. *)
Record Snapshot : Type := mkSnapshot {
  GeneratedAt : Time.t;
  Markdown : string;
  Companies : list Company.t;
  Sites : list Site.t;
  Devices : list Device.t;
  KBs : list KB.t;
  Contacts : list Contact.t;
  Agreements : list Agreement.t;
  IPNetworks : list IPNetwork.t;
  Documents : list Document.t;
  Accounts : list Account.t;
  Facilities : list Facility.t;
  Cabinets : list Cabinet.t;
  Configurations : list Configuration.t
}.

(** *** The renderer *)

Definition nl : string := String (ascii_of_nat 10) EmptyString.

(** The text of a statement guarded by [if cond { ... }]. *)
Definition when (cond : bool) (text : string) : string :=
  if cond then text else EmptyString.

(** [len(xs)] under the [%d] verb. *)
Definition count {A : Type} (xs : list A) : string := Itoa (Z.of_nat (List.length xs)).

(** [fmt.Fprintf(&b, "- **label**: %s\n", value)]. *)
Definition bullet (label value : string) : string :=
  "- **" ++ label ++ "**: " ++ value ++ nl.

(** [if value != "" { fmt.Fprintf(&b, "- **label**: %s\n", value) }]. *)
Definition bulletIf (label value : string) : string :=
  when (nonempty value) (bullet label value).

(** [if ref != nil { fmt.Fprintf(&b, "- **label**: %s (ID: %d)\n", ref.Name, ref.ID) }]. *)
Definition bulletRef (label : string) (ref : option Ref.t) : string :=
  match ref with
  | Some r => "- **" ++ label ++ "**: " ++ Ref.Name r ++ " (ID: " ++ Itoa (Ref.ID r) ++ ")" ++ nl
  | None => EmptyString
  end.

(** [if ref != nil { fmt.Fprintf(&b, "- **label**: %s\n", ref.Name) }]. *)
Definition bulletName (label : string) (ref : option Ref.t) : string :=
  match ref with
  | Some r => bullet label (Ref.Name r)
  | None => EmptyString
  end.

(** [companyCtx]: [" — " + x.Company.Name] when the company is set. *)
Definition companyCtx (company : option CompanyReference) : string :=
  match company with
  | Some c => " — " ++ Ref.Name c
  | None => EmptyString
  end.

(** [typeName]: [" [" + x.Type.Name + "]"] when the type is set. *)
Definition typeName (ty : option Ref.t) : string :=
  match ty with
  | Some t => " [" ++ Ref.Name t ++ "]"
  | None => EmptyString
  end.

(** The tag-stripping loop of [truncate] over the runes of [s]: [inTag] is
    raised by ['<'], lowered by ['>'], and a rune is written only outside a
    tag. *)
Fixpoint stripTags (inTag : bool) (rs : list GoUtf8.rune) : list GoUtf8.rune :=
  match rs with
  | [] => []
  | r :: rs' =>
      if r =? 60 then stripTags true rs'
      else if r =? 62 then stripTags false rs'
      else if negb inTag then r :: stripTags inTag rs'
      else stripTags inTag rs'
  end.

(** The first half of [truncate]: line-break markup becomes a space, the
    remaining tags are stripped, and white space is collapsed. *)
Definition cleanText (s : string) : string :=
  let s := ReplaceAll s "<br>" " " in
  let s := ReplaceAll s "<br/>" " " in
  let s := ReplaceAll s "<br />" " " in
  let s := ReplaceAll s "</p>" " " in
  let s := ReplaceAll s "</div>" " " in
  let sb := GoUtf8.string_of_runes (stripTags false (GoUtf8.runes s)) in
  Join (GoUtf8.Fields sb) " ".

(** [truncate] strips HTML and limits text to [max] runes for markdown
    embedding.  [max] is an [int] in Go; every call passes a positive
    literal (a negative one would make [runes[:max]] panic), so it is a
    [nat] here. *)
Definition truncate (s : string) (max : nat) : string :=
  let clean := cleanText s in
  let runes := GoUtf8.runes clean in
  if (List.length runes <=? max)%nat then clean
  else GoUtf8.string_of_runes (firstn max runes) ++ "…".

Definition formatAddress (a : option Address.t) : string :=
  match a with
  | None => EmptyString
  | Some a =>
      let parts := [] in
      let parts := if nonempty (Address.Address1 a)
                   then (parts ++ [Address.Address1 a])%list else parts in
      let parts := if nonempty (Address.Address2 a)
                   then (parts ++ [Address.Address2 a])%list else parts in
      let city := GoUtf8.TrimSpace
                    (Address.City a ++ " " ++ Address.State a ++ " " ++ Address.Zip a) in
      let parts := if nonempty city then (parts ++ [city])%list else parts in
      let parts := if nonempty (Address.Country a)
                   then (parts ++ [Address.Country a])%list else parts in
      Join parts ", "
  end.

(** [if a != nil { fmt.Fprintf(&b, "- **Address**: %s\n", formatAddress(a)) }]. *)
Definition bulletAddress (a : option Address.t) : string :=
  match a with
  | Some _ => bullet "Address" (formatAddress a)
  | None => EmptyString
  end.

(** [if n > 0 { fmt.Fprintf(&b, "- **label**: %d\n", n) }]. *)
Definition bulletPos (label : string) (n : Z) : string :=
  when (0 <? n) (bullet label (Itoa n)).

(** One pass of [for _, co := range s.Companies]. *)
Definition renderCompany (co : Company.t) : string :=
  "### " ++ Company.Name co ++ " (ID: " ++ Itoa (Company.ID co) ++ ")" ++ nl
  ++ bulletIf "Code" (Company.Abbreviation co)
  ++ bulletIf "Status" (Company.Status co)
  ++ bulletIf "Website" (Company.WebSite co)
  ++ when (nonempty (Company.Description co))
       (bullet "Description" (truncate (Company.Description co) 300))
  ++ bulletAddress (Company.Address co)
  ++ bulletIf "Client Since" (Company.StartDate co)
  ++ when (nonempty (Company.Notes co))
       (bullet "Notes" (truncate (Company.Notes co) 300))
  ++ when (nonempty (Company.RemoteAccessNotes co))
       (bullet "Remote Access Notes" (truncate (Company.RemoteAccessNotes co) 300))
  ++ bulletIf "Portal Link" (Company.URL co)
  ++ nl.

(** One pass of [for _, si := range s.Sites]. *)
Definition renderSite (si : Site.t) : string :=
  "### " ++ Site.Name si ++ " (ID: " ++ Itoa (Site.ID si) ++ ")"
    ++ companyCtx (Site.Company si) ++ nl
  ++ bulletRef "Company" (Site.Company si)
  ++ when (nonempty (Site.Description si))
       (bullet "Description" (truncate (Site.Description si) 300))
  ++ bulletAddress (Site.Address si)
  ++ bulletRef "Main Contact" (Site.Contact si)
  ++ bulletPos "Number of PCs" (Site.NumberOfPCs si)
  ++ bulletIf "Portal Link" (Site.URL si)
  ++ nl.

(** [locationCtx] of a device. *)
Definition locationCtx (d : Device.t) : string :=
  let ctx :=
    match Device.Company d with
    | Some c =>
        Ref.Name c ++ match Device.Site d with
                      | Some si => " / " ++ Ref.Name si
                      | None => EmptyString
                      end
    | None => EmptyString
    end in
  if nonempty ctx then " — " ++ ctx else ctx.

(** One pass of [for _, d := range s.Devices]. *)
Definition renderDevice (d : Device.t) : string :=
  let typeName :=
    match Device.Type_ d with
    | Some t => if nonempty (Ref.Name t) then " [" ++ Ref.Name t ++ "]" else EmptyString
    | None => EmptyString
    end in
  let hw := GoUtf8.TrimSpace (Device.Manufacturer d ++ " " ++ Device.Model d) in
  "### " ++ Device.Name d ++ " (ID: " ++ Itoa (Device.ID d) ++ ")"
    ++ typeName ++ locationCtx d ++ nl
  ++ bulletRef "Company" (Device.Company d)
  ++ bulletRef "Site" (Device.Site d)
  ++ bulletName "Type" (Device.Type_ d)
  ++ bulletIf "Hardware" hw
  ++ bulletIf "Serial" (Device.Serial d)
  ++ bulletIf "Tag" (Device.Tag d)
  ++ bulletIf "IMEI" (Device.IMEI d)
  ++ when (nonempty (Device.Description d))
       (bullet "Description" (truncate (Device.Description d) 300))
  ++ bulletIf "Location" (Device.Location d)
  ++ bulletIf "Install Date" (Device.InstallDate d)
  ++ bulletIf "Warranty Expires" (Device.WarrantyExpires d)
  ++ bulletIf "Portal Link" (Device.URL d)
  ++ nl.

(** One pass of [for _, kb := range s.KBs]. *)
Definition renderKB (kb : KB.t) : string :=
  "### " ++ KB.Name kb ++ " (ID: " ++ Itoa (KB.ID kb) ++ ")"
    ++ companyCtx (KB.Company kb) ++ nl
  ++ bulletRef "Company" (KB.Company kb)
  ++ bulletName "Category" (KB.Category kb)
  ++ when (nonempty (KB.Description kb))
       (bullet "Content" (truncate (KB.Description kb) 500))
  ++ bulletIf "Expires" (KB.Expires kb)
  ++ bulletIf "Last Modified" (KB.Modified kb)
  ++ bulletIf "Portal Link" (KB.URL kb)
  ++ nl.

(** One pass of [for _, co := range s.Contacts]. *)
Definition renderContact (co : Contact.t) : string :=
  let fullName := GoUtf8.TrimSpace (Contact.FirstName co ++ " " ++ Contact.LastName co) in
  let fullName := if String.eqb fullName ""
                  then "Contact #" ++ Itoa (Contact.ID co) else fullName in
  "### " ++ fullName ++ " (ID: " ++ Itoa (Contact.ID co) ++ ")"
    ++ companyCtx (Contact.Company co) ++ nl
  ++ bulletRef "Company" (Contact.Company co)
  ++ bulletName "Role" (Contact.Type_ co)
  ++ bulletIf "Email" (Contact.Email co)
  ++ bulletIf "Direct" (Contact.DirectNumber co)
  ++ bulletIf "Mobile" (Contact.Mobile co)
  ++ bulletName "Site" (Contact.Site co)
  ++ nl.

(** One pass of [for _, ag := range s.Agreements]. *)
Definition renderAgreement (ag : Agreement.t) : string :=
  "### Agreement ID: " ++ Itoa (Agreement.ID ag)
    ++ typeName (Agreement.Type_ ag) ++ companyCtx (Agreement.Company ag) ++ nl
  ++ bulletRef "Company" (Agreement.Company ag)
  ++ when (nonempty (Agreement.Description ag))
       (bullet "Description" (truncate (Agreement.Description ag) 200))
  ++ bulletIf "Vendor" (Agreement.Vendor ag)
  ++ bulletIf "Expires" (Agreement.DateExpires ag)
  ++ bulletIf "Portal Link" (Agreement.URL ag)
  ++ nl.

(** [if ip != nil && ip.IP != "" { fmt.Fprintf(&b, "- **label**: %s\n", ip.IP) }]. *)
Definition bulletIP (label : string) (ip : option IPRef.t) : string :=
  match ip with
  | Some i => bulletIf label (IPRef.IP i)
  | None => EmptyString
  end.

(** One pass of [for _, net := range s.IPNetworks]. *)
Definition renderIPNetwork (net : IPNetwork.t) : string :=
  "### " ++ IPNetwork.Name net ++ " (ID: " ++ Itoa (IPNetwork.ID net) ++ ")"
    ++ companyCtx (IPNetwork.Company net) ++ nl
  ++ bulletRef "Company" (IPNetwork.Company net)
  ++ bulletName "Site" (IPNetwork.Site net)
  ++ when (nonempty (IPNetwork.Network net) || nonempty (IPNetwork.SubnetMask net))
       ("- **Network**: " ++ IPNetwork.Network net ++ " / "
          ++ IPNetwork.SubnetMask net ++ nl)
  ++ bulletIP "Default Gateway" (IPNetwork.DefaultGateway net)
  ++ bulletIP "DNS Primary" (IPNetwork.DNSServer1 net)
  ++ bulletIP "DNS Secondary" (IPNetwork.DNSServer2 net)
  ++ bulletPos "VLAN" (IPNetwork.VlanID net)
  ++ when (nonempty (IPNetwork.Description net))
       (bullet "Notes" (truncate (IPNetwork.Description net) 200))
  ++ nl.

(** One pass of [for _, doc := range s.Documents]. *)
Definition renderDocument (doc : Document.t) : string :=
  "### " ++ Document.Description doc ++ " (ID: " ++ Itoa (Document.ID doc) ++ ")"
    ++ typeName (Document.Type_ doc) ++ companyCtx (Document.Company doc) ++ nl
  ++ bulletRef "Company" (Document.Company doc)
  ++ bulletName "Type" (Document.Type_ doc)
  ++ bulletIf "Link" (Document.URLLink doc)
  ++ bulletIf "Last Modified" (Document.Modified doc)
  ++ bulletIf "Portal Link" (Document.URL doc)
  ++ nl.

(** One pass of [for _, ac := range s.Accounts].  Passwords and 2FA codes
    are intentionally omitted. *)
Definition renderAccount (ac : Account.t) : string :=
  let heading := "Account ID: " ++ Itoa (Account.ID ac)
                   ++ typeName (Account.Type_ ac) ++ companyCtx (Account.Company ac) in
  "### " ++ heading ++ nl
  ++ bulletRef "Company" (Account.Company ac)
  ++ bulletName "Type" (Account.Type_ ac)
  ++ bulletIf "Username" (Account.Username ac)
  ++ bulletIf "Account Number" (Account.AccountNumber ac)
  ++ bulletIf "Email" (Account.Email ac)
  ++ bulletIf "Representative" (Account.Representative ac)
  ++ bulletIf "Tech Support" (Account.TechTelephone ac)
  ++ bulletIf "Sales" (Account.SalesTelephone ac)
  ++ bulletIf "Account URL" (Account.AccountURL ac)
  ++ bulletIf "Expires" (Account.Expires ac)
  ++ when (nonempty (Account.Description ac))
       (bullet "Description" (truncate (Account.Description ac) 300))
  ++ when (nonempty (Account.Notes ac))
       (bullet "Notes" (truncate (Account.Notes ac) 300))
  ++ bulletIf "Portal Link" (Account.URL ac)
  ++ nl.

(** One pass of [for _, f := range s.Facilities]. *)
Definition renderFacility (f : Facility.t) : string :=
  "### " ++ Facility.Name f ++ " (ID: " ++ Itoa (Facility.ID f) ++ ")"
    ++ typeName (Facility.Type_ f) ++ companyCtx (Facility.Company f) ++ nl
  ++ bulletRef "Company" (Facility.Company f)
  ++ bulletRef "Site" (Facility.Site f)
  ++ bulletName "Type" (Facility.Type_ f)
  ++ when (nonempty (Facility.Description f))
       (bullet "Description" (truncate (Facility.Description f) 300))
  ++ bulletPos "Number of Users" (Facility.NumberOfUsers f)
  ++ bulletAddress (Facility.Address f)
  ++ when (nonempty (Facility.Notes f))
       (bullet "Notes" (truncate (Facility.Notes f) 300))
  ++ bulletIf "Portal Link" (Facility.URL f)
  ++ nl.

(** One pass of [for _, cab := range s.Cabinets]. *)
Definition renderCabinet (cab : Cabinet.t) : string :=
  "### " ++ Cabinet.Name cab ++ " (ID: " ++ Itoa (Cabinet.ID cab) ++ ")"
    ++ companyCtx (Cabinet.Company cab) ++ nl
  ++ bulletRef "Company" (Cabinet.Company cab)
  ++ bulletRef "Site" (Cabinet.Site cab)
  ++ bulletRef "Facility" (Cabinet.Facility cab)
  ++ bulletRef "Contact" (Cabinet.Contact cab)
  ++ when (nonempty (Cabinet.Description cab))
       (bullet "Description" (truncate (Cabinet.Description cab) 300))
  ++ bulletAddress (Cabinet.Address cab)
  ++ when (nonempty (Cabinet.Notes cab))
       (bullet "Notes" (truncate (Cabinet.Notes cab) 300))
  ++ bulletIf "Portal Link" (Cabinet.URL cab)
  ++ nl.

(** One pass of [for _, cfg := range s.Configurations]. *)
Definition renderConfiguration (cfg : Configuration.t) : string :=
  "### " ++ Configuration.Name cfg ++ " (ID: " ++ Itoa (Configuration.ID cfg) ++ ")"
    ++ typeName (Configuration.Type_ cfg) ++ companyCtx (Configuration.Company cfg) ++ nl
  ++ bulletRef "Company" (Configuration.Company cfg)
  ++ bulletName "Type" (Configuration.Type_ cfg)
  ++ bulletRef "Device" (Configuration.Device cfg)
  ++ bulletIf "Install Date" (Configuration.InstallDate cfg)
  ++ bulletIf "Expires" (Configuration.DateExpires cfg)
  ++ when (nonempty (Configuration.Notes cfg))
       (bullet "Notes" (truncate (Configuration.Notes cfg) 300))
  ++ bulletIf "Portal Link" (Configuration.URL cfg)
  ++ nl.

(** A section: its [## title (n)] heading, then one block per item.  The
    writes of a range loop into the [strings.Builder] are the concatenation
    of the passes in order. *)
Definition section {A : Type} (title : string) (render : A -> string) (xs : list A) : string :=
  "## " ++ title ++ " (" ++ count xs ++ ")" ++ nl ++ nl
  ++ String.concat EmptyString (map render xs).

(** A section that is written only [if len(xs) > 0]. *)
Definition sectionIf {A : Type} (title : string) (render : A -> string) (xs : list A) : string :=
  when (0 <? Z.of_nat (List.length xs)) (section title render xs).

(** [buildMarkdown] renders the snapshot as structured Markdown optimised
    for LLM consumption.  Sensitive fields (passwords, 2FA codes, raw
    credentials) are intentionally omitted. *)
Definition buildMarkdown (s : Snapshot) : string :=
  "# ITPortal Documentation Snapshot" ++ nl ++ nl
  ++ "_Generated: " ++ Time.Format (GeneratedAt s) ++ " UTC_" ++ nl ++ nl
  ++ "**Summary:** " ++ count (Companies s) ++ " companies · "
     ++ count (Sites s) ++ " sites · "
     ++ count (Devices s) ++ " devices · "
     ++ count (KBs s) ++ " KB articles · "
     ++ count (Contacts s) ++ " contacts · "
     ++ count (Agreements s) ++ " agreements · "
     ++ count (IPNetworks s) ++ " IP networks · "
     ++ count (Documents s) ++ " documents · "
     ++ count (Accounts s) ++ " accounts · "
     ++ count (Facilities s) ++ " facilities · "
     ++ count (Cabinets s) ++ " cabinets · "
     ++ count (Configurations s) ++ " configurations" ++ nl ++ nl
  ++ "---" ++ nl ++ nl
  ++ section "Companies" renderCompany (Companies s)
  ++ section "Sites" renderSite (Sites s)
  ++ section "Devices" renderDevice (Devices s)
  ++ section "Knowledge Base Articles" renderKB (KBs s)
  ++ section "Contacts" renderContact (Contacts s)
  ++ sectionIf "Agreements" renderAgreement (Agreements s)
  ++ sectionIf "IP Networks" renderIPNetwork (IPNetworks s)
  ++ sectionIf "Documents" renderDocument (Documents s)
  ++ sectionIf "Accounts" renderAccount (Accounts s)
  ++ sectionIf "Facilities" renderFacility (Facilities s)
  ++ sectionIf "Cabinets" renderCabinet (Cabinets s)
  ++ sectionIf "Configurations" renderConfiguration (Configurations s).

(** *** The fan-out of [build] *)

(** The remote as the twelve [c.client.ListAll...(egCtx, nil, lim)] calls of
    one build meet it: each maps the item budget to its Go result.  How a
    call gets its result (pagination, cancellation of [egCtx], the
    five-minute deadline of [buildCtx]) stays inside these functions. *)
Record Client : Type := mkClient {
  ListAllCompanies : Z -> error + list Company.t;
  ListAllSites : Z -> error + list Site.t;
  ListAllDevices : Z -> error + list Device.t;
  ListAllKBs : Z -> error + list KB.t;
  ListAllContacts : Z -> error + list Contact.t;
  ListAllAgreements : Z -> error + list Agreement.t;
  ListAllIPNetworks : Z -> error + list IPNetwork.t;
  ListAllDocuments : Z -> error + list Document.t;
  ListAllAccounts : Z -> error + list Account.t;
  ListAllFacilities : Z -> error + list Facility.t;
  ListAllCabinets : Z -> error + list Cabinet.t;
  ListAllConfigurations : Z -> error + list Configuration.t
}.

(** The twelve tasks handed to [eg.Go], in launch order. *)
Inductive Kind : Type :=
| KCompanies | KSites | KDevices | KKBs | KContacts | KAgreements
| KIPNetworks | KDocuments | KAccounts | KFacilities | KCabinets
| KConfigurations.

Definition kinds : list Kind :=
  [KCompanies; KSites; KDevices; KKBs; KContacts; KAgreements;
   KIPNetworks; KDocuments; KAccounts; KFacilities; KCabinets;
   KConfigurations].

(** What one call of [build] meets: the remote, the moment each task
    returns, and the clock reading of [time.Now().UTC()]. *)
Record Run : Type := mkRun {
  client : Client;
  finish : Kind -> nat;
  now : Time.t
}.

(** The value a task leaves in its captured variable: the list on success,
    [nil] on failure. *)
Definition fetched {A : Type} (r : error + list A) : list A :=
  match r with
  | inr v => v
  | inl _ => []
  end.

(** The return value of a task: [fmt.Errorf("list ...: %w", err)] on
    failure, [nil] on success. *)
Definition failure {A : Type} (prefix : string) (r : error + list A) : option error :=
  match r with
  | inl err => Some (Wrap prefix err)
  | inr _ => None
  end.

Definition taskError (cl : Client) (lim : Z) (k : Kind) : option error :=
  match k with
  | KCompanies => failure "list companies: " (ListAllCompanies cl lim)
  | KSites => failure "list sites: " (ListAllSites cl lim)
  | KDevices => failure "list devices: " (ListAllDevices cl lim)
  | KKBs => failure "list KBs: " (ListAllKBs cl lim)
  | KContacts => failure "list contacts: " (ListAllContacts cl lim)
  | KAgreements => failure "list agreements: " (ListAllAgreements cl lim)
  | KIPNetworks => failure "list IP networks: " (ListAllIPNetworks cl lim)
  | KDocuments => failure "list documents: " (ListAllDocuments cl lim)
  | KAccounts => failure "list accounts: " (ListAllAccounts cl lim)
  | KFacilities => failure "list facilities: " (ListAllFacilities cl lim)
  | KCabinets => failure "list cabinets: " (ListAllCabinets cl lim)
  | KConfigurations => failure "list configurations: " (ListAllConfigurations cl lim)
  end.

(** [errgroup.Group]: every task runs in its own goroutine; the first one
    to return a non-nil error records it (once) and cancels the group, and
    [Wait] hands that error back when all tasks have returned.  [best] is the
    error recorded among the tasks looked at so far, with its time. *)
Fixpoint firstError (finish : Kind -> nat) (errOf : Kind -> option error)
         (ks : list Kind) (best : option (nat * error)) : option (nat * error) :=
  match ks with
  | [] => best
  | k :: ks' =>
      let best' :=
        match errOf k, best with
        | Some e, Some (t, _) => if (finish k <? t)%nat then Some (finish k, e) else best
        | Some e, None => Some (finish k, e)
        | None, _ => best
        end in
      firstError finish errOf ks' best'
  end.

(** [eg.Wait()]. *)
Definition Wait (finish : Kind -> nat) (errOf : Kind -> option error) : option error :=
  option_map snd (firstError finish errOf kinds None).

(** [build] fetches all entity types from ITPortal concurrently and
    assembles an immutable Snapshot. *)
Definition build (lim : Z) (run : Run) : error + Snapshot :=
  let cl := client run in
  match Wait (finish run) (taskError cl lim) with
  | Some err => inl err
  | None =>
      let snap :=
        mkSnapshot (now run) EmptyString
          (fetched (ListAllCompanies cl lim))
          (fetched (ListAllSites cl lim))
          (fetched (ListAllDevices cl lim))
          (fetched (ListAllKBs cl lim))
          (fetched (ListAllContacts cl lim))
          (fetched (ListAllAgreements cl lim))
          (fetched (ListAllIPNetworks cl lim))
          (fetched (ListAllDocuments cl lim))
          (fetched (ListAllAccounts cl lim))
          (fetched (ListAllFacilities cl lim))
          (fetched (ListAllCabinets cl lim))
          (fetched (ListAllConfigurations cl lim)) in
      inr (mkSnapshot (GeneratedAt snap) (buildMarkdown snap)
             (Companies snap) (Sites snap) (Devices snap) (KBs snap)
             (Contacts snap) (Agreements snap) (IPNetworks snap)
             (Documents snap) (Accounts snap) (Facilities snap)
             (Cabinets snap) (Configurations snap))
  end.

(** *** The cache slot *)

(** [Cache] holds the current snapshot and refreshes it on a configurable
    schedule.  [current] is the [atomic.Pointer[Snapshot]], [None] for nil;
    the client is met through the [Run] of each build and the logger through
    the records each operation returns. *)
Record Cache : Type := mkCache {
  limitPerEntity : Z;
  refreshInterval : Z;
  current : option Snapshot
}.

(** [c.current.Store(snap)]. *)
Definition Store (c : Cache) (snap : Snapshot) : Cache :=
  mkCache (limitPerEntity c) (refreshInterval c) (Some snap).

(** The attributes of the three "snapshot built" log lines. *)
Definition counts (snap : Snapshot) : list (string * LogValue) :=
  [("companies", VInt (Z.of_nat (List.length (Companies snap))));
   ("sites", VInt (Z.of_nat (List.length (Sites snap))));
   ("devices", VInt (Z.of_nat (List.length (Devices snap))));
   ("kbs", VInt (Z.of_nat (List.length (KBs snap))));
   ("contacts", VInt (Z.of_nat (List.length (Contacts snap))));
   ("agreements", VInt (Z.of_nat (List.length (Agreements snap))));
   ("ip_networks", VInt (Z.of_nat (List.length (IPNetworks snap))));
   ("documents", VInt (Z.of_nat (List.length (Documents snap))));
   ("accounts", VInt (Z.of_nat (List.length (Accounts snap))));
   ("facilities", VInt (Z.of_nat (List.length (Facilities snap))));
   ("cabinets", VInt (Z.of_nat (List.length (Cabinets snap))));
   ("configurations", VInt (Z.of_nat (List.length (Configurations snap))))].

(** [New] creates a Cache and performs an initial synchronous snapshot
    build.  Returns an error if the initial build fails. *)
Definition New (run : Run) (limitPerEntity refreshInterval : Z)
  : list LogRecord * (error + Cache) :=
  let c := mkCache limitPerEntity refreshInterval None in
  match build limitPerEntity run with
  | inl err => ([], inl (Wrap "initial snapshot build: " err))
  | inr snap =>
      ([mkLog LevelInfo "initial snapshot built" (counts snap)],
       inr (Store c snap))
  end.

(** [Get] returns the current snapshot: a load of the pointer, nothing
    else. *)
Definition Get (c : Cache) : option Snapshot := current c.

(** [Refresh] forces an immediate snapshot rebuild, blocking until
    complete. *)
Definition Refresh (c : Cache) (run : Run)
  : Cache * list LogRecord * (error + Snapshot) :=
  match build (limitPerEntity c) run with
  | inl err => (c, [], inl err)
  | inr snap =>
      (Store c snap,
       [mkLog LevelInfo "snapshot refreshed manually" (counts snap)],
       inr snap)
  end.

(** The [case <-ticker.C:] arm of the background goroutine. *)
Definition backgroundTick (c : Cache) (run : Run) : Cache * list LogRecord :=
  let started := mkLog LevelInfo "background snapshot refresh started" [] in
  match build (limitPerEntity c) run with
  | inl err =>
      (c, [started;
           mkLog LevelError "background snapshot refresh failed" [("error", VErr err)]])
  | inr snap =>
      (Store c snap,
       [started; mkLog LevelInfo "background snapshot refresh complete" (counts snap)])
  end.

(** What the [select] of the background goroutine receives. *)
Inductive Signal : Type :=
| Done
| Tick (run : Run).

(** The goroutine of [StartBackgroundRefresh] over the signals it receives:
    it returns on [ctx.Done()] and otherwise goes round the loop. *)
Fixpoint backgroundLoop (signals : list Signal) (c : Cache) : Cache * list LogRecord :=
  match signals with
  | [] => (c, [])
  | Done :: _ => (c, [])
  | Tick run :: signals' =>
      let (c', logs) := backgroundTick c run in
      let (c'', logs') := backgroundLoop signals' c' in
      (c'', (logs ++ logs')%list)
  end.

(** The operations that reach the slot of a Ready cache.  Each touches
    [current] at one instant only (a [Load], or the [Store] that ends a
    successful build), so a concurrent execution acts on the slot like the
    sequence of its operations ordered by those instants. *)
Inductive Op : Type :=
| OpGet
| OpRefresh (run : Run)
| OpTick (run : Run).

Definition step (c : Cache) (op : Op) : Cache :=
  match op with
  | OpGet => c
  | OpRefresh run => fst (fst (Refresh c run))
  | OpTick run => fst (backgroundTick c run)
  end.

Definition steps (c : Cache) (ops : list Op) : Cache := fold_left step ops c.

(** A snapshot that some fully successful build returned. *)
Definition built (snap : Snapshot) : Prop :=
  exists (lim : Z) (run : Run), build lim run = inr snap.

(** *** Specification-side notions and sample data *)

(** [snap] holds exactly what the twelve calls returned, all of them
    successfully. *)
Definition complete (cl : Client) (lim : Z) (snap : Snapshot) : Prop :=
  ListAllCompanies cl lim = inr (Companies snap) /\
  ListAllSites cl lim = inr (Sites snap) /\
  ListAllDevices cl lim = inr (Devices snap) /\
  ListAllKBs cl lim = inr (KBs snap) /\
  ListAllContacts cl lim = inr (Contacts snap) /\
  ListAllAgreements cl lim = inr (Agreements snap) /\
  ListAllIPNetworks cl lim = inr (IPNetworks snap) /\
  ListAllDocuments cl lim = inr (Documents snap) /\
  ListAllAccounts cl lim = inr (Accounts snap) /\
  ListAllFacilities cl lim = inr (Facilities snap) /\
  ListAllCabinets cl lim = inr (Cabinets snap) /\
  ListAllConfigurations cl lim = inr (Configurations snap).

(** The slot invariant of a Ready cache. *)
Definition ready (c : Cache) : Prop :=
  exists snap, current c = Some snap /\ built snap.

(** The [Run] that an operation builds against; a [Get] builds nothing. *)
Definition runOf (op : Op) : option Run :=
  match op with
  | OpGet => None
  | OpRefresh run => Some run
  | OpTick run => Some run
  end.

(** What the slot holds after the operations [ops] when it held [snap]
    before them, under the budget [lim]: an operation whose own build
    succeeds replaces the content by the snapshot that build returned, and
    any other operation leaves it. *)
Fixpoint latest (lim : Z) (snap : Snapshot) (ops : list Op) : Snapshot :=
  match ops with
  | [] => snap
  | op :: ops' =>
      match runOf op with
      | Some run =>
          match build lim run with
          | inr snap' => latest lim snap' ops'
          | inl _ => latest lim snap ops'
          end
      | None => latest lim snap ops'
      end
  end.

(** The runs that the operations build against, in order. *)
Fixpoint runsOf (ops : list Op) : list Run :=
  match ops with
  | [] => []
  | op :: ops' =>
      match runOf op with
      | Some run => run :: runsOf ops'
      | None => runsOf ops'
      end
  end.

(** The runs that were built against up to now: the one of [New], then
    those of the operations. *)
Definition origins (run : Run) (ops : list Op) : list Run := run :: runsOf ops.

(** Two snapshots with the same generation time and the same twelve
    collections (the text stored in [Markdown] may differ). *)
Definition sameContent (s s' : Snapshot) : Prop :=
  GeneratedAt s = GeneratedAt s' /\
  Companies s = Companies s' /\
  Sites s = Sites s' /\
  Devices s = Devices s' /\
  KBs s = KBs s' /\
  Contacts s = Contacts s' /\
  Agreements s = Agreements s' /\
  IPNetworks s = IPNetworks s' /\
  Documents s = Documents s' /\
  Accounts s = Accounts s' /\
  Facilities s = Facilities s' /\
  Cabinets s = Cabinets s' /\
  Configurations s = Configurations s'.

(** An account with its credential-classified fields blanked. *)
Definition withoutCredentials (ac : Account.t) : Account.t :=
  Account.mk (Account.ID ac) (Account.Company ac) (Account.Type_ ac)
    (Account.Username ac) EmptyString EmptyString (Account.AccountNumber ac)
    (Account.Expires ac) (Account.Description ac) (Account.Email ac)
    (Account.Representative ac) (Account.AccountURL ac)
    (Account.TechTelephone ac) (Account.SalesTelephone ac)
    (Account.ReviewBy ac) (Account.DueDate ac) (Account.Notes ac)
    (Account.Modified ac) (Account.URL ac).

(** Two snapshots that differ at most in the [Password] and [TwoFACode] of
    their accounts and in the text already stored in [Markdown].  (No other
    record of a snapshot has a credential field: [Credential] and
    [AdditionalCredential] values are not part of [Snapshot] at all.) *)
Definition sameButCredentials (s s' : Snapshot) : Prop :=
  GeneratedAt s = GeneratedAt s' /\
  Companies s = Companies s' /\
  Sites s = Sites s' /\
  Devices s = Devices s' /\
  KBs s = KBs s' /\
  Contacts s = Contacts s' /\
  Agreements s = Agreements s' /\
  IPNetworks s = IPNetworks s' /\
  Documents s = Documents s' /\
  map withoutCredentials (Accounts s) = map withoutCredentials (Accounts s') /\
  Facilities s = Facilities s' /\
  Cabinets s = Cabinets s' /\
  Configurations s = Configurations s'.

(** A remote with one company and otherwise empty collections. *)
Definition sampleCompany : Company.t :=
  Company.mk 1 None "Acme" None None "" "" "ACM" "" "Active" "" false "" false 0
    None "" "" "".

Definition sampleClient : Client :=
  mkClient (fun _ => inr [sampleCompany]) (fun _ => inr []) (fun _ => inr [])
    (fun _ => inr []) (fun _ => inr []) (fun _ => inr []) (fun _ => inr [])
    (fun _ => inr []) (fun _ => inr []) (fun _ => inr []) (fun _ => inr [])
    (fun _ => inr []).

(** The same remote with the [sites] fetch failing. *)
Definition sitesDown : Client :=
  mkClient (fun _ => inr [sampleCompany])
    (fun _ => inl (Err "ITPortal API GET /api/2.0/sites/ → 503: unavailable"))
    (fun _ => inr []) (fun _ => inr []) (fun _ => inr []) (fun _ => inr [])
    (fun _ => inr []) (fun _ => inr []) (fun _ => inr []) (fun _ => inr [])
    (fun _ => inr []) (fun _ => inr []).

Definition sampleTime : Time.t := Time.mk 2025 3 9 7 5 0.

Definition sampleRun : Run := mkRun sampleClient (fun _ => O) sampleTime.
Definition sitesDownRun : Run := mkRun sitesDown (fun _ => O) sampleTime.

(** An account carrying a password and a second-factor code. *)
Definition sampleAccount (password code : string) : Account.t :=
  Account.mk 7 (Some (Ref.mk 1 "Acme")) (Some (Ref.mk 2 "Registrar"))
    "alice" password code "ACC-42" "" "Domain registrar" "" "" "" "" ""
    None "" "" "" "".

Definition sampleSnapshot (password code : string) : Snapshot :=
  mkSnapshot sampleTime EmptyString [sampleCompany] [] [] [] [] [] [] []
    [sampleAccount password code] [] [] [].

(** *** The truncation rule, on runes *)

(** The truncation marker, U+2026. *)
Definition marker : GoUtf8.rune := 0x2026.

(** The runes of the cleaned text: line-break markup replaced by a space
    (on the bytes, as [truncate] does), tags stripped, white space
    collapsed to single spaces. *)
Definition cleanRunes (s : string) : list GoUtf8.rune :=
  let s := ReplaceAll s "<br>" " " in
  let s := ReplaceAll s "<br/>" " " in
  let s := ReplaceAll s "<br />" " " in
  let s := ReplaceAll s "</p>" " " in
  let s := ReplaceAll s "</div>" " " in
  GoUtf8.joinRunes
    (GoUtf8.fieldsRunes GoUtf8.IsSpace None (stripTags false (GoUtf8.runes s))).

(** What a field capped at [max] runes shows: the cleaned text when it has
    at most [max] runes, else its first [max] runes and the marker. *)
Definition truncateRunes (s : string) (max : nat) : list GoUtf8.rune :=
  let rs := cleanRunes s in
  if (List.length rs <=? max)%nat then rs else (firstn max rs ++ [marker])%list.

(** [text] carries the attribute [value], when it is not empty, as a bullet
    capped at [budget] runes. *)
Definition shows (text label value : string) (budget : nat) : Prop :=
  value = EmptyString \/
  exists pre post, text = pre ++ bullet label (truncate value budget) ++ post.

(** [n] times the letter x. *)
Fixpoint xs (n : nat) : string :=
  match n with
  | O => EmptyString
  | S n' => String "x" (xs n')
  end.

(** An agreement that carries a description and nothing else. *)
Definition sampleAgreement (description : string) : Agreement.t :=
  Agreement.mk 1 None None description "" None None 0 (S754_zero false) "" "" ""
    "" None "" 0 "" "" "" "".

End Cache.

(* ================================================================== *)
(** ** Exchanges with the remote service, replayed *)
(* ================================================================== *)

Module Exchange.
Import Itportal.

Section Replay.
Variable T : Type.
Variable St : Type.
Variable serve : St -> Request -> St * (error + Page T).

(** The answers of the service to the requests [reqs], sent in this order
    from state [st], and the state the service is left in. *)
Fixpoint replay (st : St) (reqs : list Request) : St * list (error + Page T) :=
  match reqs with
  | [] => (st, [])
  | req :: reqs' =>
      let (st', r) := serve st req in
      let (st'', rs) := replay st' reqs' in
      (st'', r :: rs)
  end.

(** The number of items an answer carries (none for an error). *)
Definition carried (r : error + Page T) : Z :=
  match r with
  | inr (items, _) => Z.of_nat (List.length items)
  | inl _ => 0
  end.

(** The offsets at which a run of page requests is asked: [off] first, and
    each next one further by what the previous answer carried. *)
Fixpoint offsets (off : Z) (answers : list (error + Page T)) : list Z :=
  match answers with
  | [] => []
  | r :: answers' => off :: offsets (off + carried r) answers'
  end.

End Replay.

Arguments replay {T St} serve st reqs.
Arguments carried {T} r.
Arguments offsets {T} off answers.

(** The page request of [listAll] at offset [off]. *)
Definition pageRequest (path : string) (opts : ListOptions) (off : Z) : Request :=
  mkRequest "GET" path (toQuery (Some (withPage opts pageSize off))).

Section History.
Context {T St : Type}.
Variable serve : St -> Request -> St * (error + Page T).
Variables (path : string) (opts : ListOptions).

(** What the variables of [listAll]'s loop hold after the pages [pages]
    were received from the service started in [st0]: [all] is the pages'
    items in order, [offset] is [len(all)], and the requests sent are the
    page requests at the offsets the pages led to. *)
Definition history (st0 : St) (l : Loop T St) (pages : list (Page T)) : Prop :=
  replay serve st0 (l_trace l) = (l_st l, map inr pages) /\
  l_all l = concat (map fst pages) /\
  l_offset l = Z.of_nat (List.length (l_all l)) /\
  l_trace l = map (pageRequest path opts) (offsets 0 (map inr pages)).

(** The service never answers a page request with more than [pageSize]
    items. *)
Definition pagesWithin : Prop :=
  forall (st : St) (off : Z),
    match snd (serve st (pageRequest path opts off)) with
    | inr (items, _) => Z.of_nat (List.length items) <= pageSize
    | inl _ => True
    end.

(** The service holds the collection [coll] and answers a request with the
    slice [coll[offset : offset+limit]] and the collection's size. *)
Definition slices (coll : list T) : Prop :=
  forall (st : St) (req : Request),
    snd (serve st req) = snd (synthetic coll tt req).

End History.

End Exchange.

(* ================================================================== *)
(** ** Package [mcp]: the snapshot resource (resources.go) *)
(* ================================================================== *)

Module Resources.
Import Cache.

(** [sdkmcp.ResourceContents], the fields the handlers fill in. *)
Record ResourceContents : Type := mkResourceContents {
  URI : string;
  MIMEType : string;
  Text : string
}.

(** [SnapshotResource] serves the full documentation snapshot as Markdown.
    [None] stands for the nil dereference of [snap.Markdown] when the slot
    is empty. *)
Definition SnapshotResource (c : Cache) (uri : string) : option (list ResourceContents) :=
  match Get c with
  | Some snap => Some [mkResourceContents uri "text/markdown" (Markdown snap)]
  | None => None
  end.

(** *** Specification-side notions: a remote without credentials *)

Definition blankAccounts (r : error + list Account.t) : error + list Account.t :=
  match r with
  | inr acs => inr (map withoutCredentials acs)
  | inl err => inl err
  end.

(** The remote [cl], but with the [Password] and [TwoFACode] of every
    account it returns blanked. *)
Definition blankClient (cl : Client) : Client :=
  mkClient (ListAllCompanies cl) (ListAllSites cl) (ListAllDevices cl)
    (ListAllKBs cl) (ListAllContacts cl) (ListAllAgreements cl)
    (ListAllIPNetworks cl) (ListAllDocuments cl)
    (fun lim => blankAccounts (ListAllAccounts cl lim))
    (ListAllFacilities cl) (ListAllCabinets cl) (ListAllConfigurations cl).

Definition blankRun (run : Run) : Run :=
  mkRun (blankClient (client run)) (finish run) (now run).

Definition blankOp (op : Op) : Op :=
  match op with
  | OpGet => OpGet
  | OpRefresh run => OpRefresh (blankRun run)
  | OpTick run => OpTick (blankRun run)
  end.

(** Two caches that serve the same document under the same budget. *)
Definition sameDocument (c c' : Cache) : Prop :=
  limitPerEntity c = limitPerEntity c' /\
  match current c, current c' with
  | Some s, Some s' => Markdown s = Markdown s'
  | None, None => True
  | _, _ => False
  end.

(** The runs of a list of signals up to the first [Done]. *)
Fixpoint ticksBeforeDone (signals : list Signal) : list Run :=
  match signals with
  | Tick run :: signals' => run :: ticksBeforeDone signals'
  | _ => []
  end.

End Resources.

(* ================================================================== *)
(** ** Specification-side notions for the cleaned text *)
(* ================================================================== *)

(** A word: a non-empty run of runes none of which is white space. *)
Definition word (w : list GoUtf8.rune) : Prop :=
  w <> [] /\ Forall (fun r => GoUtf8.IsSpace r = false) w.

(* ================================================================== *)
(** ** Package [mcp]: the [search_docs] tool (tools.go) *)
(* ================================================================== *)

Module Search.
Import GoStr Cache.

Record SearchDocsInput : Type := mkSearchDocsInput {
  Query : string;
  EntityType : string
}.

(** [len(s)]. *)
Definition len (s : string) : Z := Z.of_nat (String.length s).

(** [strings.Index(s, substr)]: the index of the first instance of
    [substr] in [s], or [-1]. *)
Definition Index (s substr : string) : Z :=
  match String.index 0 substr s with
  | Some n => Z.of_nat n
  | None => -1
  end.

(** [strings.Contains(s, substr)]. *)
Definition Contains (s substr : string) : bool := Index s substr >=? 0.

(** [s[i:j]] for [0 <= i <= j <= len(s)], which holds at each use. *)
Definition slice (s : string) (i j : Z) : string :=
  substring (Z.to_nat i) (Z.to_nat (j - i)) s.

(** [lines[i:j]] for [0 <= i <= j <= len(lines)]. *)
Definition sliceLines (lines : list string) (i j : Z) : list string :=
  firstn (Z.to_nat (j - i)) (skipn (Z.to_nat i) lines).

(** [strings.Split(s, sep)] for a separator of one byte: the pieces
    between the separators, one more than there are separators. *)
Fixpoint Split (s : string) (sep : ascii) : list string :=
  match s with
  | EmptyString => [EmptyString]
  | String c s' =>
      if Ascii.eqb c sep then EmptyString :: Split s' sep
      else match Split s' sep with
           | piece :: pieces => String c piece :: pieces
           | [] => [String c EmptyString]
           end
  end.

(** The helpers [max] and [min] of tools.go. *)
Definition max (a b : Z) : Z := if a >? b then a else b.
Definition min (a b : Z) : Z := if a <? b then a else b.

(** [sectionHeader] returns the markdown section heading for an entity
    type filter. *)
Definition sectionHeader (ToLower : string -> string) (entityType : string) : string :=
  let kind := ToLower (ReplaceAll entityType "_" "") in
  if String.eqb kind "company" then "Companies"
  else if String.eqb kind "site" then "Sites"
  else if String.eqb kind "device" then "Devices"
  else if String.eqb kind "kb" || String.eqb kind "knowledgebase"
       then "Knowledge Base Articles"
  else if String.eqb kind "contact" then "Contacts"
  else if String.eqb kind "agreement" then "Agreements"
  else if String.eqb kind "ipnetwork" then "IP Networks"
  else if String.eqb kind "document" then "Documents"
  else if String.eqb kind "account" then "Accounts"
  else if String.eqb kind "facility" then "Facilities"
  else if String.eqb kind "cabinet" then "Cabinets"
  else if String.eqb kind "configuration" then "Configurations"
  else EmptyString.

(** [findNextSection] returns the index of the next top-level section
    ([##]) after [start]. *)
Definition findNextSection (s : string) (start : Z) : Z :=
  let idx := Index (slice s start (len s)) (nl ++ "## ") in
  if idx =? -1 then len s else start + idx.

Section Handler.
Variable ToLower : string -> string.

(** "If an entity type filter was requested, narrow to that section." *)
Definition narrow (markdown entityType : string) : string :=
  if nonempty entityType then
    let section := sectionHeader ToLower entityType in
    if nonempty section then
      let start := Index markdown (nl ++ "## " ++ section) in
      if negb (start =? -1) then
        let end_ := findNextSection markdown (start + 1) in
        if end_ >? start then slice markdown start end_ else markdown
      else markdown
    else markdown
  else markdown.

(** The block collected for a match on line [i]: the line above it, the
    line, and the three lines below, as far as they exist. *)
Definition block (lines : list string) (i : Z) : string :=
  let start := max 0 (i - 1) in
  let end_ := min (Z.of_nat (List.length lines)) (i + 4) in
  Join (sliceLines lines start end_) nl.

(** [for i, line := range lines { ... }], from line [i] on ([rest] is
    [lines[i:]]). *)
Fixpoint collect (queryLower : string) (lines : list string) (i : Z)
         (rest : list string) : list string :=
  match rest with
  | [] => []
  | line :: rest' =>
      if Contains (ToLower line) queryLower
      then block lines i :: collect queryLower lines (i + 1) rest'
      else collect queryLower lines (i + 1) rest'
  end.

(** "Deduplicate blocks": [seen] is the set of keys of the map. *)
Fixpoint dedupe (seen : list string) (matches : list string) : list string :=
  match matches with
  | [] => []
  | m :: matches' =>
      if existsb (String.eqb m) seen then dedupe seen matches'
      else m :: dedupe (m :: seen) matches'
  end.

(** What the tool returns: [toolError(msg)], or [toolText] of one of the
    two formats, given by the arguments of [fmt.Sprintf]. *)
Inductive SearchResult : Type :=
| SearchError (msg : string)
| NoResults (query : string) (coverage : list Z)
| Found (n : Z) (query : string) (blocks : list string).

(** The twelve counts of the "Snapshot coverage" sentence. *)
Definition coverage (snap : Snapshot) : list Z :=
  map Z.of_nat
    [List.length (Companies snap); List.length (Sites snap);
     List.length (Devices snap); List.length (KBs snap);
     List.length (Contacts snap); List.length (Agreements snap);
     List.length (IPNetworks snap); List.length (Documents snap);
     List.length (Accounts snap); List.length (Facilities snap);
     List.length (Cabinets snap); List.length (Configurations snap)].

(** [SearchDocs] performs a case-insensitive full-text search across the
    cached documentation snapshot.  [None] stands for the nil dereference
    of [snap.Markdown] on an empty slot; [blocks] of [Found] is the list
    that is joined with ["\n---\n"]. *)
Definition SearchDocs (c : Cache) (input : SearchDocsInput) : option SearchResult :=
  if negb (nonempty (Query input)) then Some (SearchError "query must not be empty")
  else
    match Get c with
    | None => None
    | Some snap =>
        let markdown := narrow (Markdown snap) (EntityType input) in
        let queryLower := ToLower (Query input) in
        let lines := Split markdown (ascii_of_nat 10) in
        let matches := collect queryLower lines 0 lines in
        if (List.length matches =? 0)%nat
        then Some (NoResults (Query input) (coverage snap))
        else
          let unique := dedupe [] matches in
          Some (Found (Z.of_nat (List.length unique)) (Query input) unique)
    end.

End Handler.

(** *** Specification-side notions *)

(** The section titled [title] is written for the snapshot [s]: the first
    five sections always are, the others when their collection is not
    empty. *)
Definition written (s : Snapshot) (title : string) : bool :=
  if String.eqb title "Companies" then true
  else if String.eqb title "Sites" then true
  else if String.eqb title "Devices" then true
  else if String.eqb title "Knowledge Base Articles" then true
  else if String.eqb title "Contacts" then true
  else if String.eqb title "Agreements" then (0 <? List.length (Agreements s))%nat
  else if String.eqb title "IP Networks" then (0 <? List.length (IPNetworks s))%nat
  else if String.eqb title "Documents" then (0 <? List.length (Documents s))%nat
  else if String.eqb title "Accounts" then (0 <? List.length (Accounts s))%nat
  else if String.eqb title "Facilities" then (0 <? List.length (Facilities s))%nat
  else if String.eqb title "Cabinets" then (0 <? List.length (Cabinets s))%nat
  else if String.eqb title "Configurations" then (0 <? List.length (Configurations s))%nat
  else false.

(** [t] ends with a newline. *)
Definition endsLine (t : string) : Prop := exists p, t = p ++ nl.

(** Wherever [t] is appended, [heading] then starts a line of the
    result. *)
Definition startsLine (heading t : string) : Prop :=
  forall a, exists pre post, a ++ t = pre ++ nl ++ heading ++ post.

(** Appended to a text that ends a line, [t] puts [heading] at the start
    of a line. *)
Definition startsLineAfter (heading t : string) : Prop :=
  forall a, endsLine a -> exists pre post, a ++ t = pre ++ nl ++ heading ++ post.

End Search.

(* ================================================================== *)
(** ** Package [mcp]: the [get_entity_details] tool (tools.go) *)
(* ================================================================== *)

Module Details.
Import GoStr Itportal.

Record GetEntityInput : Type := mkGetEntityInput {
  EntityType : string;
  ID : string
}.

(** The arms of the [switch] of [GetEntityDetails]: a [Get...] method of
    the client, which is [getOne] on the collection's path followed by the
    id, with the prefix its error is wrapped in; [getDeviceDetails]; or the
    [default] arm. *)
Inductive Endpoint : Type :=
| Single (collection : string) (errPrefix : string)
| DeviceDetails
| Unknown.

Definition endpoint (kind : string) : Endpoint :=
  if String.eqb kind "company" then Single "/api/2.0/companies/" "get company: "
  else if String.eqb kind "site" then Single "/api/2.0/sites/" "get site: "
  else if String.eqb kind "device" then DeviceDetails
  else if String.eqb kind "kb" || String.eqb kind "knowledgebase"
       then Single "/api/2.0/kbs/" "get KB: "
  else if String.eqb kind "contact" then Single "/api/2.0/contacts/" "get contact: "
  else if String.eqb kind "account" then Single "/api/2.0/accounts/" "get account: "
  else if String.eqb kind "agreement" then Single "/api/2.0/agreements/" "get agreement: "
  else if String.eqb kind "document" then Single "/api/2.0/documents/" "get document: "
  else if String.eqb kind "facility" then Single "/api/2.0/facilities/" "get facility: "
  else if String.eqb kind "cabinet" then Single "/api/2.0/cabinets/" "get cabinet: "
  else if String.eqb kind "configuration"
       then Single "/api/2.0/configurations/" "get configuration: "
  else if String.eqb kind "ipnetwork" then Single "/api/2.0/ipnetworks/" "get IP network: "
  else Unknown.

Section Handler.
(** Decoded items of any kind (the handler only passes them on to
    [json.MarshalIndent]), the remote service behind [h.client], and
    [strings.ToLower]. *)
Variable Item : Type.
Variable St : Type.
Variable serve : St -> Request -> St * (error + Page Item).
Variable ToLower : string -> string.

(** The value handed to [marshalResult]: the entity, or the
    [deviceDetail] struct. *)
Inductive Detail : Type :=
| Entity (v : Item)
| deviceDetail (Device : Item) (IPAddresses Notes ManagementURLs : list Item).

(** [marshalResult(v)], [toolError(fmt.Sprintf(format, args...))], or a Go
    error. *)
Inductive ToolResult : Type :=
| ToolText (v : Detail)
| ToolError (format : string) (args : list string)
| GoError (e : error).

(** What one invocation did: the service state it left, the requests it
    sent, and what it returned. *)
Record Invocation : Type := mkInvocation {
  d_st : St;
  d_sent : list Request;
  d_result : ToolResult
}.

(** [getOne] fetches a single entity by fully-qualified path (including
    ID). *)
Definition getOne (st : St) (path : string) : St * (error + Item) :=
  match listPage serve st path None with
  | (st', inl err) => (st', inl err)
  | (st', inr (items, _)) =>
      match items with
      | [] => (st', inl (Err ("no entity found at " ++ path)))
      | item :: _ => (st', inr item)
      end
  end.

(** The request [getOne] sends: [opts] is nil, so the query is empty. *)
Definition getRequest (path : string) : Request := mkRequest "GET" path (toQuery None).

(** [getDeviceDetails] fetches a device plus all its sub-resources (IPs,
    management URLs, notes).  [None] stands for a call that does not return
    (a [listAll] loop out of fuel). *)
Definition getDeviceDetails (st : St) (id : string) : option Invocation :=
  let devicePath := "/api/2.0/devices/" ++ id ++ "/" in
  match getOne st devicePath with
  | (st1, inl err) =>
      Some (mkInvocation st1 [getRequest devicePath] (GoError (Wrap "get device: " err)))
  | (st1, inr device) =>
      match listAll serve st1 ("/api/2.0/devices/" ++ id ++ "/ips/") None 500 with
      | None => None
      | Some ips =>
          let sent2 := (getRequest devicePath :: o_trace ips)%list in
          match o_result ips with
          | inl err =>
              Some (mkInvocation (o_st ips) sent2 (GoError (Wrap "get device IPs: " err)))
          | inr ipItems =>
              match listAll serve (o_st ips) ("/api/2.0/devices/" ++ id ++ "/notes/")
                            None 500 with
              | None => None
              | Some notes =>
                  let sent3 := (sent2 ++ o_trace notes)%list in
                  match o_result notes with
                  | inl err =>
                      Some (mkInvocation (o_st notes) sent3
                              (GoError (Wrap "get device notes: " err)))
                  | inr noteItems =>
                      match listAll serve (o_st notes)
                                    ("/api/2.0/devices/" ++ id ++ "/managementUrls/")
                                    None 100 with
                      | None => None
                      | Some urls =>
                          let sent4 := (sent3 ++ o_trace urls)%list in
                          match o_result urls with
                          | inl err =>
                              Some (mkInvocation (o_st urls) sent4
                                      (GoError (Wrap "get device management URLs: " err)))
                          | inr urlItems =>
                              Some (mkInvocation (o_st urls) sent4
                                      (ToolText (deviceDetail device ipItems noteItems
                                                   urlItems)))
                          end
                      end
                  end
              end
          end
      end
  end.

(** [GetEntityDetails] fetches a single entity and, for devices, also
    fetches sub-resources. *)
Definition GetEntityDetails (st : St) (input : GetEntityInput) : option Invocation :=
  if negb (nonempty (ID input))
  then Some (mkInvocation st [] (ToolError "id must not be empty" []))
  else
    match endpoint (ToLower (ReplaceAll (EntityType input) "_" "")) with
    | Single collection errPrefix =>
        let path := collection ++ ID input ++ "/" in
        match getOne st path with
        | (st', inl err) =>
            Some (mkInvocation st' [getRequest path] (GoError (Wrap errPrefix err)))
        | (st', inr v) =>
            Some (mkInvocation st' [getRequest path] (ToolText (Entity v)))
        end
    | DeviceDetails => getDeviceDetails st (ID input)
    | Unknown =>
        Some (mkInvocation st [] (ToolError "unknown entity_type %q" [EntityType input]))
    end.

End Handler.

Arguments Entity {Item} v.
Arguments deviceDetail {Item} Device IPAddresses Notes ManagementURLs.
Arguments ToolText {Item} v.
Arguments ToolError {Item} format args.
Arguments GoError {Item} e.
Arguments mkInvocation {Item St} _ _ _.
Arguments d_st {Item St} _.
Arguments d_sent {Item St} _.
Arguments d_result {Item St} _.
Arguments getOne {Item St} serve st path.
Arguments getDeviceDetails {Item St} serve st id.
Arguments GetEntityDetails {Item St} serve ToLower st input.

(** *** Specification-side notions *)

(** The path of the one endpoint that lists the credentials of a
    device, the one [GetDeviceCredentials] reads. *)
Definition credentialsPath (id : string) : string :=
  "/api/2.0/devices/" ++ id ++ "/credentials/".

(** A request that only reads, and not from the credentials of device
    [id]. *)
Definition harmless (id : string) (req : Request) : Prop :=
  req_method req = "GET" /\ req_path req <> credentialsPath id.

End Details.

(* ================================================================== *)
(** ** Package [mcp]: the [create_device] tool (tools.go) *)
(* ================================================================== *)

Module SwitchPortReference.
Record t : Type := mk { ID : Z }.
End SwitchPortReference.

(** [DeviceIP] represents an IP address assigned to a device. *)
Module DeviceIP.
Record t : Type := mk {
  ID : Z;
  IP : string;
  MAC : string;
  Description : string;
  IPNetwork : option IPNetworkReference;
  SwitchPort : option SwitchPortReference.t
}.
End DeviceIP.

(** [DeviceNote] represents a timestamped note on a device. *)
Module DeviceNote.
Record t : Type := mk {
  ID : Z;
  Notes : string;
  NotesHtml : bool;
  DateTime : string;
  Description : string
}.
End DeviceNote.

(** [DeviceMUrl] represents a management URL for a device. *)
Module DeviceMUrl.
Record t : Type := mk {
  ID : Z;
  Title : string;
  URL : string;
  Notes : string
}.
End DeviceMUrl.

Module Writes.
Import GoStr.

Record CreateDeviceInput : Type := mkCreateDeviceInput {
  CompanyID : Z;
  SiteID : Z;
  Name : string;
  TypeName : string;
  Description : string;
  Manufacturer : string;
  Model : string;
  Serial : string;
  Tag : string;
  Location : string;
  Domain : string;
  IMEI : string;
  InstallDate : string;
  WarrantyExpires : string;
  PurchaseDate : string;
  PurchasePrice : float64;
  IPAddress : string;
  MACAddress : string;
  ManagementURL : string;
  ManagementTitle : string;
  InitialNote : string
}.

(** The four methods of [h.client] that [CreateDevice] calls, on an
    explicit service state; each is [createOne] on its path. *)
Record Remote (St : Type) : Type := mkRemote {
  CreateDevice : St -> Device.t -> St * (error + Device.t);
  AddDeviceIP : St -> string -> DeviceIP.t -> St * (error + DeviceIP.t);
  AddDeviceManagementURL : St -> string -> DeviceMUrl.t -> St * (error + DeviceMUrl.t);
  AddDeviceNote : St -> string -> DeviceNote.t -> St * (error + DeviceNote.t)
}.
Arguments mkRemote {St} _ _ _ _.
Arguments CreateDevice {St} _ _ _.
Arguments AddDeviceIP {St} _ _ _ _.
Arguments AddDeviceManagementURL {St} _ _ _ _.
Arguments AddDeviceNote {St} _ _ _ _.

(** The calls made on the client, in order (a ghost trace). *)
Inductive Call : Type :=
| CallCreateDevice (device : Device.t)
| CallAddDeviceIP (deviceID : string) (ip : DeviceIP.t)
| CallAddDeviceManagementURL (deviceID : string) (murl : DeviceMUrl.t)
| CallAddDeviceNote (deviceID : string) (note : DeviceNote.t).

(** [toolText(msg)], [toolError(msg)], or a Go error. *)
Inductive ToolResult : Type :=
| ToolText (text : string)
| ToolError (msg : string)
| GoError (e : error).

(** [device := &itportal.Device{...}] with the two optional references. *)
Definition deviceOf (input : CreateDeviceInput) : Device.t :=
  Device.mk 0 (Name input) (Some (Ref.mk (CompanyID input) ""))
    (if negb (SiteID input =? 0) then Some (Ref.mk (SiteID input) "") else None)
    None None
    (if nonempty (TypeName input) then Some (Ref.mk 0 (TypeName input)) else None)
    (Description input) (Location input) (Domain input) (InstallDate input)
    (WarrantyExpires input) (PurchaseDate input) "" "" (Manufacturer input)
    (Model input) (IMEI input) (Serial input) (Tag input) 0 0 (PurchasePrice input)
    None "" 0 "" None "" "" "".

(** [ip := &itportal.DeviceIP{IP: ..., MAC: ...}]. *)
Definition ipOf (input : CreateDeviceInput) : DeviceIP.t :=
  DeviceIP.mk 0 (IPAddress input) (MACAddress input) "" None None.

(** [murl := &itportal.DeviceMUrl{Title: title, URL: ...}], the title
    defaulting to "Management Interface". *)
Definition murlOf (input : CreateDeviceInput) : DeviceMUrl.t :=
  let title := if String.eqb (ManagementTitle input) ""
               then "Management Interface" else ManagementTitle input in
  DeviceMUrl.mk 0 title (ManagementURL input) "".

(** [note := &itportal.DeviceNote{Notes: ...}]. *)
Definition noteOf (input : CreateDeviceInput) : DeviceNote.t :=
  DeviceNote.mk 0 (InitialNote input) false "" "".

(** The closing statements of [CreateDevice]: the message, with the side
    effects appended when there are any. *)
Definition report (created : Device.t) (sideEffects : list string) : string :=
  let msg := "Device created successfully." ++ Cache.nl
             ++ "ID: " ++ Itoa (Device.ID created) ++ Cache.nl
             ++ "Name: " ++ Device.Name created ++ Cache.nl
             ++ "Portal: " ++ Device.URL created in
  if (0 <? List.length sideEffects)%nat
  then msg ++ Cache.nl ++ Cache.nl ++ Join sideEffects Cache.nl
  else msg.

Section Handler.
Variable St : Type.
Variable remote : Remote St.

(** The state of the handler between its three optional steps: the
    service state, the calls made and [sideEffects]. *)
Definition Progress : Type := (St * list Call * list string)%type.

Definition addIP (input : CreateDeviceInput) (devIDStr : string) (p : Progress) : Progress :=
  let '(st, calls, sideEffects) := p in
  if nonempty (IPAddress input) then
    let ip := ipOf input in
    match AddDeviceIP remote st devIDStr ip with
    | (st', inl err) =>
        (st', (calls ++ [CallAddDeviceIP devIDStr ip])%list,
         (sideEffects ++ [("⚠ Could not add IP " ++ IPAddress input ++ ": " ++ Error err)%string])%list)
    | (st', inr _) =>
        (st', (calls ++ [CallAddDeviceIP devIDStr ip])%list,
         (sideEffects ++ [("✓ IP added: " ++ IPAddress input)%string])%list)
    end
  else p.

Definition addManagementURL (input : CreateDeviceInput) (devIDStr : string) (p : Progress)
  : Progress :=
  let '(st, calls, sideEffects) := p in
  if nonempty (ManagementURL input) then
    let murl := murlOf input in
    match AddDeviceManagementURL remote st devIDStr murl with
    | (st', inl err) =>
        (st', (calls ++ [CallAddDeviceManagementURL devIDStr murl])%list,
         (sideEffects ++ [("⚠ Could not add management URL: " ++ Error err)%string])%list)
    | (st', inr _) =>
        (st', (calls ++ [CallAddDeviceManagementURL devIDStr murl])%list,
         (sideEffects ++ [("✓ Management URL added: " ++ ManagementURL input)%string])%list)
    end
  else p.

Definition addNote (input : CreateDeviceInput) (devIDStr : string) (p : Progress) : Progress :=
  let '(st, calls, sideEffects) := p in
  if nonempty (InitialNote input) then
    let note := noteOf input in
    match AddDeviceNote remote st devIDStr note with
    | (st', inl err) =>
        (st', (calls ++ [CallAddDeviceNote devIDStr note])%list,
         (sideEffects ++ [("⚠ Could not add note: " ++ Error err)%string])%list)
    | (st', inr _) =>
        (st', (calls ++ [CallAddDeviceNote devIDStr note])%list,
         (sideEffects ++ [("✓ Initial note added")%string])%list)
    end
  else p.

(** [CreateDevice] creates a device and optionally adds an IP, management
    URL, and initial note. *)
Definition CreateDeviceTool (st : St) (input : CreateDeviceInput)
  : St * list Call * ToolResult :=
  if CompanyID input =? 0 then (st, [], ToolError "company_id is required")
  else if String.eqb (Name input) "" then (st, [], ToolError "name is required")
  else
    let device := deviceOf input in
    match CreateDevice remote st device with
    | (st1, inl err) =>
        (st1, [CallCreateDevice device], GoError (Wrap "create device: " err))
    | (st1, inr created) =>
        let devIDStr := Itoa (Device.ID created) in
        let p := (st1, [CallCreateDevice device], []) in
        let p := addIP input devIDStr p in
        let p := addManagementURL input devIDStr p in
        let '(st', calls, sideEffects) := addNote input devIDStr p in
        (st', calls, ToolText (report created sideEffects))
    end.

End Handler.

Arguments CreateDeviceTool {St} remote st input.

(** *** Specification-side notions *)

(** The attachments that [input] asks for, as calls on the device
    [devIDStr]. *)
Definition attachments (input : CreateDeviceInput) (devIDStr : string) : list Call :=
  ((if nonempty (IPAddress input) then [CallAddDeviceIP devIDStr (ipOf input)] else [])
   ++ (if nonempty (ManagementURL input)
       then [CallAddDeviceManagementURL devIDStr (murlOf input)] else [])
   ++ (if nonempty (InitialNote input) then [CallAddDeviceNote devIDStr (noteOf input)]
       else []))%list.

(** A remote that creates devices under the ID 42 and refuses every
    attachment. *)
Definition refusing : Remote unit :=
  mkRemote
    (fun st d => (st, inr (Device.mk 42 (Device.Name d) (Device.Company d) None None None
                             None "" "" "" "" "" "" "" "" "" "" "" "" "" 0 0
                             (Device.PurchasePrice d) None "" 0 "" None "" ""
                             "https://portal.example/devices/42")))
    (fun st _ _ => (st, inl (Err "ITPortal API POST → 500")))
    (fun st _ _ => (st, inl (Err "ITPortal API POST → 500")))
    (fun st _ _ => (st, inl (Err "ITPortal API POST → 500"))).

Definition sampleInput : CreateDeviceInput :=
  mkCreateDeviceInput 1 0 "fw-01" "Firewall" "" "" "" "" "" "" "" "" "" "" ""
    (S754_zero false) "10.0.0.1" "" "https://10.0.0.1" "" "".

End Writes.

(* ================================================================== *)
(** ** Package [config]: runtime configuration (config.go) *)
(* ================================================================== *)

Module Config.

(** [Config] holds all runtime configuration sourced from environment
    variables.  A [time.Duration] is its number of nanoseconds. *)
Record Config : Type := mkConfig {
  ITPortalBaseURL : string;
  ITPortalAPIKey : string;
  MCPAPIKey : string;
  ListenAddr : string;
  SnapshotRefreshInterval : Z;
  SnapshotLimitPerEntity : Z
}.

(** [time.Minute]. *)
Definition Minute : Z := 60 * 1000000000.

Section Load.
(** The environment ([os.Getenv] gives [""] for an unset variable), the two
    parsers [time.ParseDuration] and [strconv.Atoi], and the [%q] verb of
    [fmt]. *)
Variable Getenv : string -> string.
Variable ParseDuration : string -> error + Z.
Variable Atoi : string -> error + Z.
Variable Quote : string -> string.

(** [Load] reads and validates configuration from environment
    variables. *)
Definition Load : error + Config :=
  let baseURL := Getenv "ITPORTAL_BASE_URL" in
  if String.eqb baseURL "" then inl (Err "ITPORTAL_BASE_URL is required") else
  let apiKey := Getenv "ITPORTAL_API_KEY" in
  if String.eqb apiKey "" then inl (Err "ITPORTAL_API_KEY is required") else
  let mcpKey := Getenv "MCP_API_KEY" in
  if String.eqb mcpKey "" then inl (Err "MCP_API_KEY is required") else
  let listenAddr := Getenv "MCP_LISTEN_ADDR" in
  let listenAddr := if String.eqb listenAddr "" then ":8080" else listenAddr in
  let v := Getenv "SNAPSHOT_REFRESH_INTERVAL" in
  match (if GoStr.nonempty v
         then match ParseDuration v with
              | inl err =>
                  inl (Wrap ("invalid SNAPSHOT_REFRESH_INTERVAL " ++ Quote v ++ ": ") err)
              | inr d => inr d
              end
         else inr (30 * Minute)) with
  | inl err => inl err
  | inr refreshInterval =>
      let v := Getenv "SNAPSHOT_LIMIT_PER_ENTITY" in
      match (if GoStr.nonempty v
             then match Atoi v with
                  | inl err =>
                      inl (Wrap ("invalid SNAPSHOT_LIMIT_PER_ENTITY " ++ Quote v ++ ": ") err)
                  | inr n => inr n
                  end
             else inr 1000) with
      | inl err => inl err
      | inr limitPerEntity =>
          inr (mkConfig baseURL apiKey mcpKey listenAddr refreshInterval limitPerEntity)
      end
  end.

End Load.

(** *** Sample environment *)

(** An environment that sets the three required variables and a limit. *)
Definition sampleEnv (name : string) : string :=
  if String.eqb name "ITPORTAL_BASE_URL" then "https://portal.example"
  else if String.eqb name "ITPORTAL_API_KEY" then "remote-key"
  else if String.eqb name "MCP_API_KEY" then "s3cr3t"
  else if String.eqb name "SNAPSHOT_LIMIT_PER_ENTITY" then "250"
  else "".

(** Parsers for the sample: no duration is accepted, and [Atoi] reads
    decimal numerals. *)
Definition sampleParseDuration (v : string) : error + Z :=
  inl (Err ("time: invalid duration " ++ v)).

Definition sampleAtoi (v : string) : error + Z :=
  match GoStr.Atoi v with
  | Some n => inr n
  | None => inl (Err "strconv.Atoi: invalid syntax")
  end.

End Config.

(* ================================================================== *)
(** ** The ticker of the background refresh (snapshot.go) *)
(* ================================================================== *)

Module Background.
Import Cache.

(** The goroutine of [StartBackgroundRefresh] from its first statement:
    [time.NewTicker(c.refreshInterval)] panics when the interval is not
    positive ([None]); otherwise the goroutine goes round its loop over the
    signals it receives. *)
Definition StartBackgroundRefresh (c : Cache) (signals : list Signal)
  : option (Cache * list LogRecord) :=
  if refreshInterval c <=? 0 then None
  else Some (backgroundLoop signals c).

(** An environment that sets the required variables and a refresh interval
    of zero. *)
Definition zeroIntervalEnv (name : string) : string :=
  if String.eqb name "ITPORTAL_BASE_URL" then "https://portal.example"
  else if String.eqb name "ITPORTAL_API_KEY" then "remote-key"
  else if String.eqb name "MCP_API_KEY" then "s3cr3t"
  else if String.eqb name "SNAPSHOT_REFRESH_INTERVAL" then "0s"
  else "".

(** [time.ParseDuration] on the one value of that environment. *)
Definition zeroParseDuration (v : string) : error + Z :=
  if String.eqb v "0s" then inr 0 else inl (Err ("time: invalid duration " ++ v)).

End Background.

(* ================================================================== *)
(** ** Specification-side notions for the filters of [list_entities] *)
(* ================================================================== *)

(** The API parameters that [ListEntities] never sets. *)
Definition unusedParameters : list string :=
  ["facilityId"; "cabinetId"; "macAddress"; "tag"; "inOut"; "deleted"; "foreignId";
   "orderBy"].

(** The API parameters that carry a filter of [ListEntities]. *)
Definition filterParameters : list string :=
  ["name"; "nameStartsWith"; "companyId"; "siteId"; "typeName"; "ipAddress";
   "serialNumber"; "manufacturer"; "modifiedSince"].

(* ================================================================== *)
(** ** Specification-side notions for the section filter *)
(* ================================================================== *)

(** No byte of [w] is a newline. *)
Fixpoint oneLine (w : string) : bool :=
  match w with
  | EmptyString => true
  | String c w' => negb (Ascii.eqb c (ascii_of_nat 10)) && oneLine w'
  end.

(* ================================================================== *)
(** * Part II: properties *)
(* ================================================================== *)

(** ** Query strings *)

Section UrlFacts.
Import Url.

Lemma Get_Del_same (q : Values) (k : string) : Get (Del q k) k = "".
Proof.
  induction q as [|[k0 v0] q IH]; simpl; auto.
  destruct (String.eqb k0 k) eqn:E; simpl; auto.
  now rewrite E.
Qed.

Lemma Get_Del_other (q : Values) (k k' : string) :
  k <> k' -> Get (Del q k) k' = Get q k'.
Proof.
  intros Hne. induction q as [|[k0 v0] q IH]; simpl; auto.
  destruct (String.eqb k0 k) eqn:E; simpl.
  - apply String.eqb_eq in E. subst k0.
    destruct (String.eqb k k') eqn:E'; auto.
    apply String.eqb_eq in E'. contradiction.
  - now rewrite IH.
Qed.

Lemma Get_app (q1 q2 : Values) (k : string) :
  Get (q1 ++ q2)%list k = if Has q1 k then Get q1 k else Get q2 k.
Proof.
  induction q1 as [|[k0 v0] q1 IH]; simpl; auto.
  destruct (String.eqb k0 k); simpl; auto.
Qed.

Lemma Has_Del_same (q : Values) (k : string) : Has (Del q k) k = false.
Proof.
  induction q as [|[k0 v0] q IH]; simpl; auto.
  destruct (String.eqb k0 k) eqn:E; simpl; auto.
  now rewrite E.
Qed.

Lemma Has_Del_other (q : Values) (k k' : string) :
  k <> k' -> Has (Del q k) k' = Has q k'.
Proof.
  intros Hne. induction q as [|[k0 v0] q IH]; simpl; auto.
  destruct (String.eqb k0 k) eqn:E; simpl.
  - apply String.eqb_eq in E. subst k0.
    destruct (String.eqb k k') eqn:E'; auto.
    apply String.eqb_eq in E'. contradiction.
  - now rewrite IH.
Qed.

Lemma Get_Set_same (q : Values) (k v : string) : Get (Set_ q k v) k = v.
Proof.
  unfold Set_. rewrite Get_app, Has_Del_same. simpl. now rewrite String.eqb_refl.
Qed.

Lemma Get_Set_other (q : Values) (k v k' : string) :
  k <> k' -> Get (Set_ q k v) k' = Get q k'.
Proof.
  intros Hne. unfold Set_. rewrite Get_app, Has_Del_other, Get_Del_other by assumption.
  simpl. destruct (String.eqb k k') eqn:E.
  - apply String.eqb_eq in E. contradiction.
  - destruct (Has q k') eqn:H; auto.
    clear - H. induction q as [|[k0 v0] q IH]; simpl in *; auto.
    destruct (String.eqb k0 k'); simpl in *; [discriminate|auto].
Qed.

End UrlFacts.

(** ** Decimal text *)

Lemma Atoi_Itoa (z : Z) : GoStr.Atoi (GoStr.Itoa z) = Some z.
Proof.
  unfold GoStr.Atoi, GoStr.Itoa. rewrite NilZero.isi.
  - simpl. now rewrite DecimalZ.of_to.
  - destruct z; simpl; try discriminate.
    intros [= H]. now apply DecimalPos.Unsigned.to_uint_nonnil in H.
  - destruct z; simpl; try discriminate.
    intros [= H]. now apply DecimalPos.Unsigned.to_uint_nonnil in H.
Qed.

(** ** Pagination: [listPage] and [listAll] *)

Section QueryFacts.
Import Url GoStr Itportal.

Lemma Get_setStr_other k v q k' : k <> k' -> Get (setStr k v q) k' = Get q k'.
Proof. intros. unfold setStr. destruct (nonempty v); auto using Get_Set_other. Qed.

Lemma Get_setBool_other k v q k' : k <> k' -> Get (setBool k v q) k' = Get q k'.
Proof. intros. unfold setBool. destruct v; auto using Get_Set_other. Qed.

Lemma Get_setPos_other k v q k' : k <> k' -> Get (setPos k v q) k' = Get q k'.
Proof. intros. unfold setPos. destruct (0 <? v); auto using Get_Set_other. Qed.

Lemma Get_setPos_same k v q : 0 < v -> Get (setPos k v q) k = Itoa v.
Proof.
  intros H. unfold setPos. apply Z.ltb_lt in H. rewrite H. apply Get_Set_same.
Qed.

End QueryFacts.

(** Walks [Url.Get] inwards through the [Set] calls on other keys. *)
Ltac skip_keys :=
  repeat first [ rewrite Get_setStr_other by discriminate
               | rewrite Get_setBool_other by discriminate
               | rewrite Get_setPos_other by discriminate ].

Section PageQuery.
Import Url GoStr Itportal.

(** What a service reads back from the query of a page request of
    [listAll], when no [Extra] parameter overrides it. *)
Lemma Get_extra (extra : list (string * string)) (q : Values) (k : string) :
  Has extra k = false ->
  Get (fold_left (fun q kv => Set_ q (fst kv) (snd kv)) extra q) k = Get q k.
Proof.
  revert q. induction extra as [|[k0 v0] extra IH]; intros q H; cbn [fold_left]; auto.
  cbn [Has] in H. apply orb_false_elim in H. destruct H as [Hk He].
  rewrite IH by assumption. cbn [fst snd]. apply Get_Set_other.
  intros ->. rewrite String.eqb_refl in Hk. discriminate.
Qed.

Lemma page_query_limit (o : ListOptions) (off : Z) :
  Has (Extra o) "limit" = false ->
  query_int (toQuery (Some (withPage o pageSize off))) "limit" = pageSize.
Proof.
  intros HE. unfold query_int, toQuery. cbn [Extra withPage Limit Offset OrderBy].
  rewrite Get_extra by assumption. skip_keys.
  rewrite Get_setPos_same by (unfold pageSize; lia). now rewrite Atoi_Itoa.
Qed.

Lemma page_query_offset (o : ListOptions) (off : Z) :
  Has (Extra o) "offset" = false -> 0 <= off ->
  query_int (toQuery (Some (withPage o pageSize off))) "offset" = off.
Proof.
  intros HE Hoff. unfold query_int, toQuery. cbn [Extra withPage Limit Offset OrderBy].
  rewrite Get_extra by assumption. skip_keys.
  destruct (Z.eq_dec off 0) as [->|Hne].
  - unfold setPos at 1. cbn [Z.ltb Z.compare]. skip_keys. reflexivity.
  - rewrite Get_setPos_same by lia. now rewrite Atoi_Itoa.
Qed.

Lemma synthetic_declares {T : Type} (coll : list T) :
  declares (synthetic coll) (Z.of_nat (List.length coll)).
Proof.
  intros st req. unfold synthetic. cbn [snd]. eexists. split; [reflexivity|].
  rewrite length_firstn, length_skipn. lia.
Qed.

End PageQuery.

Section ListAllFacts.
Import GoStr Itportal.
Context {T St : Type}.
Variable serve : St -> Request -> St * (error + Page T).
Variables (path : string) (opts : ListOptions) (maxItems : Z).

(** The exit test of the loop body, read off the response. *)
Lemma listAll_body_spec (l : Loop T St) :
  match listAll_body serve path opts maxItems l with
  | Continue l' =>
      exists items total,
        snd (serve (l_st l) (next_request path opts l)) = inr (items, total) /\
        l_st l' = fst (serve (l_st l) (next_request path opts l)) /\
        l_all l' = (l_all l ++ items)%list /\
        l_offset l' = l_offset l + Z.of_nat (List.length items) /\
        l_trace l' = (l_trace l ++ [next_request path opts l])%list /\
        items <> [] /\ l_offset l' < total /\ l_offset l' < maxItems
  | Break o =>
      o_st o = fst (serve (l_st l) (next_request path opts l)) /\
      o_trace o = (l_trace l ++ [next_request path opts l])%list /\
      match snd (serve (l_st l) (next_request path opts l)) with
      | inl err => o_result o = inl err
      | inr (items, total) =>
          o_result o = inr (l_all l ++ items)%list /\
          (total <= l_offset l + Z.of_nat (List.length items)
           \/ maxItems <= l_offset l + Z.of_nat (List.length items)
           \/ items = [])
      end
  end.
Proof.
  unfold listAll_body, listPage, next_request.
  destruct (serve (l_st l) _) as [st' [err|[items total]]]; simpl.
  - auto.
  - destruct (_ >=? total) eqn:E1; simpl.
    { repeat split; auto. left. lia. }
    destruct (_ >=? maxItems) eqn:E2; simpl.
    { repeat split; auto. right; left. lia. }
    destruct (Z.of_nat (List.length items) =? 0) eqn:E3; simpl.
    { repeat split; auto. right; right.
      apply Z.eqb_eq in E3. destruct items; simpl in *; [auto|lia]. }
    exists items, total. repeat split; auto; try lia.
    intros ->. simpl in E3. discriminate.
Qed.

Lemma listAll_body_progress (l l' : Loop T St) :
  listAll_body serve path opts maxItems l = Continue l' ->
  l_offset l < l_offset l' < maxItems.
Proof.
  intros H. pose proof (listAll_body_spec l) as S. rewrite H in S.
  destruct S as (items & total & _ & _ & _ & Ho & _ & Hne & _ & Hm).
  split; auto. destruct items; [congruence|]. simpl List.length in Ho. lia.
Qed.

Lemma listAll_loop_more_fuel (fuel extra : nat) (l : Loop T St) (o : Outcome T St) :
  listAll_loop serve fuel path opts maxItems l = Some o ->
  listAll_loop serve (fuel + extra) path opts maxItems l = Some o.
Proof.
  revert l. induction fuel as [|fuel IH]; intros l; simpl; [discriminate|].
  destruct (listAll_body serve path opts maxItems l); auto.
Qed.

(** The measure [maxItems - offset] bounds the passes still to come. *)
Lemma listAll_loop_total (fuel : nat) (l : Loop T St) :
  (Z.to_nat (maxItems - l_offset l) < fuel)%nat ->
  exists o, listAll_loop serve fuel path opts maxItems l = Some o /\
            Z.of_nat (List.length (l_trace l)) < Z.of_nat (List.length (o_trace o))
              <= Z.of_nat (List.length (l_trace l)) + Z.max 1 (maxItems - l_offset l).
Proof.
  revert l. induction fuel as [|fuel IH]; intros l Hf; [lia|]. simpl.
  pose proof (listAll_body_spec l) as S.
  destruct (listAll_body serve path opts maxItems l) as [l'|o] eqn:E.
  - pose proof (listAll_body_progress _ _ E) as P.
    destruct S as (items & total & _ & _ & _ & _ & Ht & _).
    destruct (IH l') as (o & Ho & Hl); [lia|].
    exists o. split; auto. rewrite Ht, length_app in Hl. cbn [List.length] in Hl. lia.
  - exists o. split; auto. destruct S as (_ & Ht & _).
    rewrite Ht, length_app. cbn [List.length]. lia.
Qed.

End ListAllFacts.

Section DeclaredTotal.
Import GoStr Itportal.
Context {T St : Type}.
Variable serve : St -> Request -> St * (error + Page T).
Variables (path : string) (opts : ListOptions) (maxItems total : Z).
Hypothesis Hlimit : Url.Has (Extra opts) "limit" = false.
Hypothesis Hoffset : Url.Has (Extra opts) "offset" = false.
Hypothesis Htotal : 0 <= total.
Hypothesis Hserve : declares serve total.

(** Requests still to come from a pass that starts at [off]. *)
Let rest (off : Z) : Z := Z.max 1 (ceil_div (Z.min total maxItems - off) pageSize).

Lemma listAll_loop_declared (fuel : nat) (l : Loop T St) :
  0 <= l_offset l <= total ->
  l_offset l = Z.of_nat (List.length (l_all l)) ->
  (Z.to_nat (maxItems - l_offset l) < fuel)%nat ->
  exists o items,
    listAll_loop serve fuel path opts maxItems l = Some o /\
    o_result o = inr items /\
    Z.of_nat (List.length (o_trace o))
      = Z.of_nat (List.length (l_trace l)) + rest (l_offset l) /\
    Z.of_nat (List.length items)
      = Z.min total (l_offset l + pageSize * rest (l_offset l)).
Proof.
  revert l. induction fuel as [|fuel IH]; intros l Hoff Hall Hf; [lia|].
  cbn [listAll_loop].
  pose proof (listAll_body_spec serve path opts maxItems l) as S.
  destruct (Hserve (l_st l) (next_request path opts l)) as (items & Hresp & Hlen).
  unfold next_request in Hlen. cbn [req_query] in Hlen.
  rewrite page_query_limit, page_query_offset in Hlen by (auto; lia).
  assert (Hrest : forall off,
             rest off = Z.max 1 (ceil_div (Z.min total maxItems - off) pageSize))
    by reflexivity.
  unfold ceil_div, pageSize in *.
  destruct (listAll_body serve path opts maxItems l) as [l'|o] eqn:E.
  - destruct S as (items' & total' & Hresp' & _ & Hall' & Hoff' & Ht & Hne & Hlt & Hlm).
    rewrite Hresp in Hresp'. injection Hresp' as <- <-.
    destruct (IH l') as (o & its & Ho & Hr & Htr & Hit).
    + lia.
    + rewrite Hall', length_app. lia.
    + lia.
    + exists o, its. repeat split; auto.
      * rewrite Htr, Ht, length_app. cbn [List.length]. rewrite !Hrest, Hoff'.
        Z.div_mod_to_equations. lia.
      * rewrite Hit, !Hrest, Hoff'. Z.div_mod_to_equations. lia.
  - destruct S as (_ & Ht & S). rewrite Hresp in S. destruct S as (Hr & Hstop).
    assert (Hc : total <= l_offset l + Z.of_nat (List.length items)
                 \/ maxItems <= l_offset l + Z.of_nat (List.length items)
                 \/ Z.of_nat (List.length items) = 0).
    { destruct Hstop as [H|[H|H]]; auto. subst items. auto. }
    clear Hstop.
    exists o, (l_all l ++ items)%list. repeat split; auto.
    + rewrite Ht, length_app. cbn [List.length]. rewrite Hrest.
      Z.div_mod_to_equations. lia.
    + rewrite length_app, Hrest. Z.div_mod_to_equations. lia.
Qed.

End DeclaredTotal.

Import GoStr Itportal.

(** C8.  [listAll] terminates against every service, whatever pages it
    sends.  A pass of the loop leaves on an error, or as soon as the
    accumulated count has reached the reported total or [maxItems], or on
    an empty page; a pass that continues has strictly raised the count and
    left it below [maxItems].  Hence the loop leaves within
    [listAll_fuel maxItems] passes, more fuel never changes the outcome, and
    at most [max 1 maxItems] requests are issued. *)
Theorem listAll_terminates :
  forall (T St : Type) (serve : St -> Request -> St * (error + Page T))
         (path : string) (opts : option ListOptions) (maxItems : Z),
    (forall l : Loop T St,
        match listAll_body serve path (orZero opts) maxItems l with
        | Continue l' =>
            exists items total,
              snd (serve (l_st l) (next_request path (orZero opts) l)) = inr (items, total) /\
              items <> [] /\
              l_offset l' = l_offset l + Z.of_nat (List.length items) /\
              l_offset l < l_offset l' /\
              l_offset l' < total /\ l_offset l' < maxItems
        | Break o =>
            match snd (serve (l_st l) (next_request path (orZero opts) l)) with
            | inl err => o_result o = inl err
            | inr (items, total) =>
                o_result o = inr (l_all l ++ items)%list /\
                (total <= l_offset l + Z.of_nat (List.length items)
                 \/ maxItems <= l_offset l + Z.of_nat (List.length items)
                 \/ items = [])
            end
        end) /\
    (forall st : St,
        exists o : Outcome T St,
          listAll serve st path opts maxItems = Some o /\
          (forall extra : nat,
              listAll_loop serve (listAll_fuel maxItems + extra) path (orZero opts)
                           maxItems (mkLoop st [] 0 []) = Some o) /\
          1 <= Z.of_nat (List.length (o_trace o)) <= Z.max 1 maxItems).
Proof.
  intros T St serve path opts maxItems. split.
  - intros l.
    pose proof (listAll_body_spec serve path (orZero opts) maxItems l) as S.
    destruct (listAll_body serve path (orZero opts) maxItems l) as [l'|o] eqn:E.
    + pose proof (listAll_body_progress _ _ _ _ _ _ E) as P.
      destruct S as (items & total & H1 & _ & _ & H4 & _ & H6 & H7 & H8).
      exists items, total. intuition.
    + tauto.
  - intros st. unfold listAll.
    destruct (listAll_loop_total serve path (orZero opts) maxItems
                (listAll_fuel maxItems) (mkLoop st [] 0 [])) as (o & Ho & Hl).
    { unfold listAll_fuel. cbn [l_offset]. lia. }
    exists o. split; [exact Ho|]. split.
    + intros extra. now apply listAll_loop_more_fuel.
    + cbn [l_trace l_offset List.length] in Hl. lia.
Qed.

(** C3 (as amended).  Against a collection that declares [total >= 0] and
    answers each page request with [min(limit, remaining)] items, [listAll]
    with budget [maxItems] (and options whose [Extra] parameters do not
    override [limit] or [offset]) issues exactly [max 1 (ceil (min total maxItems / 100))]
    page requests (one request is always made: the total is only learnt from
    the first page), and returns exactly [min total maxItems] items whenever
    [total <= maxItems] or [maxItems] is a positive multiple of the page
    size. *)
Theorem listAll_declared_total :
  forall (T St : Type) (serve : St -> Request -> St * (error + Page T))
         (st : St) (path : string) (opts : option ListOptions)
         (maxItems total : Z),
    Url.Has (Extra (orZero opts)) "limit" = false ->
    Url.Has (Extra (orZero opts)) "offset" = false ->
    0 <= total ->
    declares serve total ->
    exists (o : Outcome T St) (items : list T),
      listAll serve st path opts maxItems = Some o /\
      o_result o = inr items /\
      Z.of_nat (List.length (o_trace o))
        = Z.max 1 (ceil_div (Z.min total maxItems) 100) /\
      (total <= maxItems \/ (0 < maxItems /\ maxItems mod 100 = 0) ->
       Z.of_nat (List.length items) = Z.min total maxItems).
Proof.
  intros T St serve st path opts maxItems total HL HO Ht Hs. unfold listAll.
  destruct (listAll_loop_declared serve path (orZero opts) maxItems total HL HO Ht Hs
              (listAll_fuel maxItems) (mkLoop st [] 0 []))
    as (o & items & Ho & Hr & Htr & Hit).
  { cbn [l_offset]. lia. }
  { reflexivity. }
  { unfold listAll_fuel. cbn [l_offset]. lia. }
  exists o, items. cbn [l_trace l_offset List.length] in *.
  unfold ceil_div, pageSize in *.
  repeat split; auto.
  - rewrite Htr. Z.div_mod_to_equations. lia.
  - intros Hcase. rewrite Hit. Z.div_mod_to_equations. lia.
Qed.

(** The scenario of the specification: 250 devices, budget 1000, hence three
    page fetches and 250 items. *)
Lemma listAll_declared_total_witness :
  exists (o : Outcome nat unit) (items : list nat),
    listAll (synthetic (seq 0 250)) tt "/api/2.0/devices/" None 1000 = Some o /\
    o_result o = inr items /\
    Z.of_nat (List.length (o_trace o)) = Z.max 1 (ceil_div (Z.min 250 1000) 100) /\
    (250 <= 1000 \/ (0 < 1000 /\ 1000 mod 100 = 0) ->
     Z.of_nat (List.length items) = Z.min 250 1000).
Proof.
  apply (listAll_declared_total nat unit (synthetic (seq 0 250)) tt
           "/api/2.0/devices/" None 1000 250).
  - reflexivity.
  - reflexivity.
  - lia.
  - exact (synthetic_declares (seq 0 250)).
Defined.

(** C3 as worded fails twice.  An empty collection ([total = 0]) still costs
    one page request, not [ceil (0 / 100) = 0]; and with 250 items declared
    and a budget of 150 the loop stops only at the page boundary, with 200
    items rather than [min 250 150 = 150]. *)
Lemma listAll_exact_min_counterexample :
  (declares (synthetic (@nil nat)) 0 /\
   ~ exists (o : Outcome nat unit) (items : list nat),
       listAll (synthetic (@nil nat)) tt "/api/2.0/devices/" None 1000 = Some o /\
       o_result o = inr items /\
       Z.of_nat (List.length items) = Z.min 0 1000 /\
       Z.of_nat (List.length (o_trace o)) = ceil_div (Z.min 0 1000) 100) /\
  (declares (synthetic (seq 0 250)) 250 /\
   ~ exists (o : Outcome nat unit) (items : list nat),
       listAll (synthetic (seq 0 250)) tt "/api/2.0/devices/" None 150 = Some o /\
       o_result o = inr items /\
       Z.of_nat (List.length items) = Z.min 250 150 /\
       Z.of_nat (List.length (o_trace o)) = ceil_div (Z.min 250 150) 100).
Proof.
  split; split.
  - exact (synthetic_declares (@nil nat)).
  - intros (o & items & Ho & Hr & Hn & Hq).
    vm_compute in Ho. injection Ho as <-. vm_compute in Hq. discriminate.
  - exact (synthetic_declares (seq 0 250)).
  - intros (o & items & Ho & Hr & Hn & Hq).
    vm_compute in Ho. injection Ho as <-. cbn [o_result] in Hr.
    injection Hr as <-. vm_compute in Hn. discriminate.
Qed.

(** ** The bearer-token middleware *)

Section PrefixFacts.
Import GoStr.

Lemma HasPrefix_app (p t : string) : HasPrefix (p ++ t) p = true.
Proof.
  unfold HasPrefix. induction p as [|c p IH]; simpl.
  - now destruct t.
  - destruct (ascii_dec c c); [exact IH|contradiction].
Qed.

Lemma HasPrefix_inv (s p : string) :
  HasPrefix s p = true -> s = p ++ TrimPrefix s p.
Proof.
  unfold TrimPrefix. intros H. rewrite H. unfold HasPrefix in H.
  revert s H. induction p as [|c p IH]; intros s H; simpl.
  - reflexivity.
  - destruct s as [|d s]; simpl in H; [discriminate|].
    destruct (ascii_dec c d); [subst d|discriminate].
    f_equal. now apply IH.
Qed.

Lemma TrimPrefix_app (p t : string) : TrimPrefix (p ++ t) p = t.
Proof.
  unfold TrimPrefix. rewrite HasPrefix_app.
  induction p as [|c p IH]; simpl; auto.
Qed.

End PrefixFacts.

(** C10.  The middleware hands the request to the inner handler exactly
    when the [Authorization] header is ["Bearer "] followed by the configured
    key; a header without the ["Bearer "] prefix is answered with
    401 Unauthorized, a header with the prefix and another token with
    403 Forbidden. *)
Theorem apiKeyMiddleware_forwards_iff :
  forall (expectedKey : string) (r : Server.HttpRequest),
    (snd (Server.apiKeyMiddleware expectedKey r) = Server.Next <->
     Server.Header_Get (Server.req_Header r) "Authorization" = "Bearer " ++ expectedKey) /\
    snd (Server.apiKeyMiddleware expectedKey r) =
      (if negb (GoStr.HasPrefix (Server.Header_Get (Server.req_Header r) "Authorization")
                                "Bearer ")
       then Server.HttpError "Unauthorized" 401
       else if String.eqb (Server.Header_Get (Server.req_Header r) "Authorization")
                          ("Bearer " ++ expectedKey)
            then Server.Next
            else Server.HttpError "Forbidden" 403).
Proof.
  intros key r. unfold Server.apiKeyMiddleware.
  set (h := Server.Header_Get (Server.req_Header r) "Authorization").
  destruct (GoStr.HasPrefix h "Bearer ") eqn:Hp; cbn [negb].
  - pose proof (HasPrefix_inv _ _ Hp) as Hh.
    destruct (String.eqb (GoStr.TrimPrefix h "Bearer ") key) eqn:Ht; cbn [negb snd].
    + apply String.eqb_eq in Ht.
      assert (h = "Bearer " ++ key) as E by (now rewrite <- Ht).
      rewrite E. rewrite String.eqb_refl. tauto.
    + apply String.eqb_neq in Ht.
      destruct (String.eqb h ("Bearer " ++ key)) eqn:E.
      * apply String.eqb_eq in E. exfalso. apply Ht.
        rewrite E. apply TrimPrefix_app.
      * apply String.eqb_neq in E. split; [|reflexivity].
        split; [discriminate|contradiction].
  - cbn [snd]. split; [|reflexivity]. split; [discriminate|].
    intros E. rewrite E, HasPrefix_app in Hp. discriminate.
Qed.

(** ** The [list_entities] tool *)

Section ListEntitiesFacts.
Import Url.

Lemma effectiveLimit_cases (limit : Z) :
  Mcp.effectiveLimit limit =
    (if limit <=? 0 then 50 else if limit >? 500 then 500 else limit).
Proof.
  unfold Mcp.effectiveLimit.
  destruct (limit <=? 0) eqn:E; [reflexivity|].
  reflexivity.
Qed.

Lemma effectiveLimit_range (limit : Z) : 1 <= Mcp.effectiveLimit limit <= 500.
Proof.
  rewrite effectiveLimit_cases.
  destruct (Z.leb_spec limit 0); [lia|].
  destruct (limit >? 500) eqn:E; lia.
Qed.

(** The [limit] parameter of the query built from the handler's options. *)
Lemma optionsOf_query_limit (input : Mcp.ListEntitiesInput) :
  Get (toQuery (Some (Mcp.optionsOf input))) "limit"
  = Itoa (Mcp.effectiveLimit (Mcp.Limit input)).
Proof.
  pose proof (effectiveLimit_range (Mcp.Limit input)) as R.
  unfold toQuery, Mcp.optionsOf. cbn [Extra Limit Offset OrderBy fold_left].
  skip_keys. apply Get_setPos_same. lia.
Qed.

Context {T St : Type}.
Variable serve : St -> Request -> St * (error + Page T).

(** Every request of [listAll] called without options asks for a page of
    [pageSize] items. *)
Lemma next_request_limit (path : string) (l : Loop T St) :
  Get (req_query (next_request path zeroListOptions l)) "limit" = Itoa pageSize.
Proof.
  unfold next_request, toQuery. cbn [req_query]. unfold withPage, zeroListOptions.
  cbn [Extra Limit Offset OrderBy fold_left].
  skip_keys. apply Get_setPos_same. unfold pageSize. lia.
Qed.

Lemma listAll_loop_requests (path : string) (maxItems : Z) (fuel : nat)
      (l : Loop T St) (o : Outcome T St) :
  listAll_loop serve fuel path zeroListOptions maxItems l = Some o ->
  Forall (fun req => Get (req_query req) "limit" = Itoa pageSize) (l_trace l) ->
  Forall (fun req => Get (req_query req) "limit" = Itoa pageSize) (o_trace o).
Proof.
  revert l. induction fuel as [|fuel IH]; intros l; [discriminate|].
  cbn [listAll_loop].
  pose proof (listAll_body_spec serve path zeroListOptions maxItems l) as S.
  destruct (listAll_body serve path zeroListOptions maxItems l) as [l'|o'].
  - destruct S as (items & total & _ & _ & _ & _ & Ht & _).
    intros Ho Hl. apply (IH l' Ho). rewrite Ht. apply Forall_app. split; auto.
    constructor; auto using next_request_limit.
  - destruct S as (_ & Ht & _). intros [= <-] Hl. rewrite Ht.
    apply Forall_app. split; auto. constructor; auto using next_request_limit.
Qed.

End ListEntitiesFacts.

(** C9 (as amended).  The limit that [list_entities] uses is 50 for a
    caller's limit at or below zero, 500 for one above 500, and the caller's
    value otherwise, hence always within 1..500; every invocation returns,
    and a successful result echoes that limit.  For the entity types served
    by one page request the same limit is the [limit] query parameter sent
    to the remote service.  For [kb_category] and [device_type] the requests
    sent carry the page size 100 of [listAll] instead, and for an unknown
    entity type nothing is sent. *)
Theorem ListEntities_effective_limit :
  forall (Item St : Type) (serve : St -> Request -> St * (error + Page Item))
         (ToLower : string -> string) (st : St) (input : Mcp.ListEntitiesInput),
    1 <= Mcp.effectiveLimit (Mcp.Limit input) <= 500 /\
    Mcp.effectiveLimit (Mcp.Limit input)
      = (if Mcp.Limit input <=? 0 then 50
         else if Mcp.Limit input >? 500 then 500 else Mcp.Limit input) /\
    exists inv : Mcp.Invocation Item St,
      Mcp.ListEntities serve ToLower st input = Some inv /\
      (forall r, Mcp.i_result inv = Mcp.ToolText r ->
                 Mcp.r_Limit r = Mcp.effectiveLimit (Mcp.Limit input)) /\
      match Mcp.endpoint (Mcp.kindOf ToLower input) with
      | Mcp.Paged path _ =>
          exists req,
            Mcp.i_sent inv = [req] /\ req_path req = path /\
            Url.Get (req_query req) "limit"
              = Itoa (Mcp.effectiveLimit (Mcp.Limit input))
      | Mcp.Unpaged path _ _ =>
          Mcp.i_sent inv <> [] /\
          Forall (fun req => Url.Get (req_query req) "limit" = Itoa 100)
                 (Mcp.i_sent inv)
      | Mcp.Unknown =>
          Mcp.i_sent inv = [] /\
          exists format arg, Mcp.i_result inv = Mcp.ToolError format arg
      end.
Proof.
  intros Item St serve ToLower st input.
  split; [apply effectiveLimit_range|]. split; [apply effectiveLimit_cases|].
  unfold Mcp.ListEntities.
  destruct (Mcp.endpoint (Mcp.kindOf ToLower input)) as [path pre|path pre max|].
  - unfold listPage.
    destruct (serve st _) as [st' [err|[v t]]]; eexists; (split; [reflexivity|]);
      cbn [Mcp.i_result Mcp.i_sent]; (split; [intros r [= <-]; reflexivity || discriminate|]);
      eexists; repeat split; apply optionsOf_query_limit.
  - unfold listAll.
    destruct (listAll_loop_total serve path (orZero None) max
                (listAll_fuel max) (mkLoop st [] 0 [])) as (o & Ho & Hlen).
    { unfold listAll_fuel. cbn [l_offset]. lia. }
    rewrite Ho. eexists. split; [reflexivity|]. cbn [Mcp.i_result Mcp.i_sent].
    split; [|split].
    + intros r. destruct (o_result o); intros [= <-]. reflexivity.
    + intros E. rewrite E in Hlen. cbn [List.length l_trace] in Hlen. lia.
    + apply (listAll_loop_requests serve _ _ _ _ _ Ho). constructor.
  - eexists. split; [reflexivity|]. cbn [Mcp.i_result Mcp.i_sent].
    split; [discriminate|]. split; [reflexivity|]. eauto.
Qed.

(** C9 as worded fails for the two entity types that are listed through
    [listAll]: for [kb_category] with a caller's limit of 7 the result echoes
    7, but the request sent to the service asks for 100 items. *)
Lemma ListEntities_limit_counterexample :
  exists (inv : Mcp.Invocation nat unit) (r : Mcp.result nat) (req : Request),
    Mcp.ListEntities (synthetic [1; 2; 3]%nat) Mcp.ToLowerASCII tt
      (Mcp.mkListEntitiesInput "kb_category" "" "" "" "" "" "" "" "" "" 7 0)
    = Some inv /\
    Mcp.i_result inv = Mcp.ToolText r /\
    Mcp.r_Limit r = Mcp.effectiveLimit 7 /\
    Mcp.effectiveLimit 7 = 7 /\
    Mcp.i_sent inv = [req] /\
    Url.Get (req_query req) "limit" = "100" /\
    Url.Get (req_query req) "limit" <> Itoa (Mcp.effectiveLimit 7).
Proof.
  do 3 eexists. split; [vm_compute; reflexivity|].
  cbn [Mcp.i_result Mcp.i_sent]. split; [reflexivity|].
  cbn [Mcp.r_Limit]. repeat split. vm_compute. discriminate.
Qed.

(** ** The snapshot builder *)

Section BuildFacts.
Import Cache.

(** The error [firstError] ends with, against the one it started from. *)
Lemma firstError_spec (finish : Kind -> nat) (errOf : Kind -> option error)
      (ks : list Kind) (best : option (nat * error)) :
  match firstError finish errOf ks best with
  | None => best = None /\ forall k, In k ks -> errOf k = None
  | Some (t, e) =>
      (best = Some (t, e) \/ exists k, In k ks /\ errOf k = Some e /\ finish k = t) /\
      (forall k, In k ks -> errOf k <> None -> (t <= finish k)%nat) /\
      (forall t0 e0, best = Some (t0, e0) -> (t <= t0)%nat)
  end.
Proof.
  revert best. induction ks as [|k ks IH]; intros best; cbn [firstError].
  - destruct best as [[t e]|]; [|split; [reflexivity|intros k []]].
    repeat split; auto.
    + intros k [].
    + intros t0 e0 [= <- <-]. lia.
  - set (best' := match errOf k with
                  | Some e => _
                  | None => best
                  end).
    specialize (IH best').
    destruct (firstError finish errOf ks best') as [[t e]|].
    + destruct IH as (Hsrc & Hks & Hbest).
      assert (Hk : errOf k <> None -> (t <= finish k)%nat).
      { intros Hne. subst best'. destruct (errOf k) as [ek|]; [|congruence].
        destruct best as [[t0 e0]|].
        - destruct (Nat.ltb_spec (finish k) t0).
          + apply (Hbest _ _ eq_refl).
          + specialize (Hbest _ _ eq_refl). lia.
        - apply (Hbest _ _ eq_refl). }
      split; [|split].
      * destruct Hsrc as [Hsrc|(k' & Hin & He & Ht)].
        -- subst best'. destruct (errOf k) as [ek|] eqn:Ek; [|now left].
           destruct best as [[t0 e0]|].
           ++ destruct (finish k <? t0)%nat; [|now left].
              injection Hsrc as <- <-. right. exists k. simpl. auto.
           ++ injection Hsrc as <- <-. right. exists k. simpl. auto.
        -- right. exists k'. simpl. auto.
      * intros k' [<-|Hin] Hne; auto.
      * intros t0 e0 ->. subst best'. destruct (errOf k) as [ek|].
        -- destruct (Nat.ltb_spec (finish k) t0).
           ++ specialize (Hbest _ _ eq_refl). lia.
           ++ apply (Hbest _ _ eq_refl).
        -- apply (Hbest _ _ eq_refl).
    + destruct IH as (Hb & Hks). subst best'.
      destruct (errOf k) as [ek|] eqn:Ek.
      * destruct best as [[t0 e0]|]; [destruct (finish k <? t0)%nat|]; discriminate.
      * split; auto. intros k' [<-|Hin]; auto.
Qed.

Lemma In_kinds (k : Kind) : In k kinds.
Proof. destruct k; simpl; tauto. Qed.

(** [eg.Wait()] returns nil exactly when no task failed, and otherwise the
    error of a failed task that no other failed task preceded. *)
Lemma Wait_spec (finish : Kind -> nat) (errOf : Kind -> option error) :
  match Wait finish errOf with
  | None => forall k, errOf k = None
  | Some e =>
      exists k, errOf k = Some e /\
                forall k', errOf k' <> None -> (finish k <= finish k')%nat
  end.
Proof.
  unfold Wait. pose proof (firstError_spec finish errOf kinds None) as S.
  destruct (firstError finish errOf kinds None) as [[t e]|]; cbn [option_map snd].
  - destruct S as ([S|(k & _ & He & Ht)] & Hks & _); [discriminate|].
    exists k. split; auto. intros k' Hne. rewrite Ht. apply Hks; auto using In_kinds.
  - destruct S as (_ & S). intros k. apply S, In_kinds.
Qed.

Lemma failure_None {A : Type} (prefix : string) (r : error + list A) :
  failure prefix r = None -> r = inr (fetched r).
Proof. destruct r; simpl; [discriminate|reflexivity]. Qed.

Lemma build_inr (lim : Z) (run : Run) (snap : Snapshot) :
  build lim run = inr snap ->
  complete (client run) lim snap /\
  GeneratedAt snap = now run /\
  Markdown snap = buildMarkdown snap.
Proof.
  unfold build. pose proof (Wait_spec (finish run) (taskError (client run) lim)) as W.
  destruct (Wait (finish run) (taskError (client run) lim)); [discriminate|].
  intros [= <-]. cbn [GeneratedAt Markdown Companies Sites Devices KBs Contacts
                        Agreements IPNetworks Documents Accounts Facilities
                        Cabinets Configurations].
  split; [|split; reflexivity].
  unfold complete. cbn [Companies Sites Devices KBs Contacts Agreements IPNetworks
                          Documents Accounts Facilities Cabinets Configurations].
  repeat split.
  - apply (failure_None _ _ (W KCompanies)).
  - apply (failure_None _ _ (W KSites)).
  - apply (failure_None _ _ (W KDevices)).
  - apply (failure_None _ _ (W KKBs)).
  - apply (failure_None _ _ (W KContacts)).
  - apply (failure_None _ _ (W KAgreements)).
  - apply (failure_None _ _ (W KIPNetworks)).
  - apply (failure_None _ _ (W KDocuments)).
  - apply (failure_None _ _ (W KAccounts)).
  - apply (failure_None _ _ (W KFacilities)).
  - apply (failure_None _ _ (W KCabinets)).
  - apply (failure_None _ _ (W KConfigurations)).
Qed.

Lemma build_inl (lim : Z) (run : Run) (k : Kind) :
  taskError (client run) lim k <> None ->
  exists err k0,
    build lim run = inl err /\
    taskError (client run) lim k0 = Some err /\
    forall k', taskError (client run) lim k' <> None ->
               (finish run k0 <= finish run k')%nat.
Proof.
  intros Hk. unfold build.
  pose proof (Wait_spec (finish run) (taskError (client run) lim)) as W.
  destruct (Wait (finish run) (taskError (client run) lim)) as [e|].
  - destruct W as (k0 & He & Hfirst). eauto.
  - contradiction (Hk (W k)).
Qed.

End BuildFacts.

(** C1.  When some per-kind fetch task of a build cycle fails, [build]
    returns an error and no snapshot; the error is the one of a failed task
    that no other failed task preceded.  Conversely a snapshot that [build]
    returns holds, for every entity kind, exactly what that kind's fetch
    returned, all twelve having succeeded: no snapshot mixes fetched and
    unfetched kinds. *)
Theorem build_all_or_nothing :
  forall (lim : Z) (run : Cache.Run),
    ((exists k, Cache.taskError (Cache.client run) lim k <> None) ->
     exists err k0,
       Cache.build lim run = inl err /\
       Cache.taskError (Cache.client run) lim k0 = Some err /\
       forall k', Cache.taskError (Cache.client run) lim k' <> None ->
                  (Cache.finish run k0 <= Cache.finish run k')%nat) /\
    (forall snap, Cache.build lim run = inr snap ->
                  Cache.complete (Cache.client run) lim snap /\
                  forall k, Cache.taskError (Cache.client run) lim k = None).
Proof.
  intros lim run. split.
  - intros [k Hk]. exact (build_inl lim run k Hk).
  - intros snap Hb. split; [apply (build_inr _ _ _ Hb)|].
    intros k. destruct (Cache.taskError (Cache.client run) lim k) eqn:E; [|reflexivity].
    destruct (build_inl lim run k) as (err & _ & Hb' & _); congruence.
Qed.

(** A build during which the [sites] fetch fails. *)
Lemma build_all_or_nothing_witness :
  (exists k, Cache.taskError (Cache.client Cache.sitesDownRun) 1000 k <> None) /\
  exists err k0,
    Cache.build 1000 Cache.sitesDownRun = inl err /\
    Cache.taskError (Cache.client Cache.sitesDownRun) 1000 k0 = Some err /\
    forall k', Cache.taskError (Cache.client Cache.sitesDownRun) 1000 k' <> None ->
               (Cache.finish Cache.sitesDownRun k0 <= Cache.finish Cache.sitesDownRun k')%nat.
Proof.
  assert (H : exists k, Cache.taskError (Cache.client Cache.sitesDownRun) 1000 k <> None)
    by (exists Cache.KSites; discriminate).
  split; [exact H|].
  exact (proj1 (build_all_or_nothing 1000 Cache.sitesDownRun) H).
Defined.

(** The scenario of the specification: only the [sites] fetch fails, and the
    build fails with that error wrapped. *)
Example build_sites_down :
  Cache.build 1000 Cache.sitesDownRun
  = inl (Wrap "list sites: "
           (Err "ITPortal API GET /api/2.0/sites/ → 503: unavailable")).
Proof. reflexivity. Qed.

(** ** The cache slot *)

(** C2.  When the build of a manual refresh or of a background tick fails,
    the slot is left as it was: [Refresh] returns the cache unchanged
    together with the error and writes no log record; the background tick
    leaves the cache unchanged, logs the error, and the loop goes on with
    the signals that follow.  A [Get] after the attempt returns what a
    [Get] before it returned. *)
Theorem failed_refresh_keeps_snapshot :
  forall (c : Cache.Cache) (run : Cache.Run) (err : error),
    Cache.build (Cache.limitPerEntity c) run = inl err ->
    Cache.Refresh c run = (c, [], inl err) /\
    Cache.backgroundTick c run
      = (c, [mkLog LevelInfo "background snapshot refresh started" [];
             mkLog LevelError "background snapshot refresh failed"
                   [("error", VErr err)]]) /\
    (forall signals,
        fst (Cache.backgroundLoop (Cache.Tick run :: signals) c)
        = fst (Cache.backgroundLoop signals c)) /\
    Cache.Get (fst (fst (Cache.Refresh c run))) = Cache.Get c /\
    Cache.Get (fst (Cache.backgroundTick c run)) = Cache.Get c.
Proof.
  intros c run err Hb.
  assert (HR : Cache.Refresh c run = (c, [], inl err))
    by (unfold Cache.Refresh; now rewrite Hb).
  assert (HT : Cache.backgroundTick c run
               = (c, [mkLog LevelInfo "background snapshot refresh started" [];
                      mkLog LevelError "background snapshot refresh failed"
                            [("error", VErr err)]]))
    by (unfold Cache.backgroundTick; now rewrite Hb).
  repeat split; auto.
  - intros signals. cbn [Cache.backgroundLoop]. rewrite HT.
    destruct (Cache.backgroundLoop signals c). reflexivity.
  - now rewrite HR.
  - now rewrite HT.
Qed.

(** The scenario of the specification: a published snapshot, then a refresh
    during which the [sites] fetch fails. *)
Lemma failed_refresh_keeps_snapshot_witness :
  Cache.build 1000 Cache.sitesDownRun
  = inl (Wrap "list sites: "
           (Err "ITPortal API GET /api/2.0/sites/ → 503: unavailable")) /\
  Cache.Refresh (Cache.mkCache 1000 1800 (Some (Cache.sampleSnapshot "" "")))
                Cache.sitesDownRun
  = (Cache.mkCache 1000 1800 (Some (Cache.sampleSnapshot "" "")), [],
     inl (Wrap "list sites: "
            (Err "ITPortal API GET /api/2.0/sites/ → 503: unavailable"))) /\
  Cache.Get (fst (Cache.backgroundTick
                    (Cache.mkCache 1000 1800 (Some (Cache.sampleSnapshot "" "")))
                    Cache.sitesDownRun))
  = Some (Cache.sampleSnapshot "" "").
Proof.
  split; [reflexivity|].
  destruct (failed_refresh_keeps_snapshot
              (Cache.mkCache 1000 1800 (Some (Cache.sampleSnapshot "" "")))
              Cache.sitesDownRun
              (Wrap "list sites: "
                 (Err "ITPortal API GET /api/2.0/sites/ → 503: unavailable"))
              eq_refl) as (HR & _ & _ & _ & HG).
  split; [exact HR|exact HG].
Defined.

Section SlotFacts.
Import Cache.

Lemma step_ready (c : Cache) (op : Op) : ready c -> ready (step c op).
Proof.
  intros R. destruct op as [|run|run]; cbn [step]; auto.
  - unfold Refresh. destruct (build (limitPerEntity c) run) as [err|snap] eqn:E; auto.
    exists snap. split; [reflexivity|]. now exists (limitPerEntity c), run.
  - unfold backgroundTick.
    destruct (build (limitPerEntity c) run) as [err|snap] eqn:E; auto.
    exists snap. split; [reflexivity|]. now exists (limitPerEntity c), run.
Qed.

Lemma steps_ready (ops : list Op) (c : Cache) : ready c -> ready (steps c ops).
Proof.
  unfold steps. revert c. induction ops as [|op ops IH]; intros c R; simpl; auto.
  apply IH, step_ready, R.
Qed.

(** What a step does to the slot, by the build of its own run. *)
Lemma step_current (c : Cache) (op : Op) :
  current (step c op)
  = match runOf op with
    | Some run =>
        match build (limitPerEntity c) run with
        | inr snap => Some snap
        | inl _ => current c
        end
    | None => current c
    end.
Proof.
  destruct op as [|run|run]; cbn [step runOf]; [reflexivity| |].
  - unfold Refresh. now destruct (build (limitPerEntity c) run).
  - unfold backgroundTick. now destruct (build (limitPerEntity c) run).
Qed.

Lemma step_limit (c : Cache) (op : Op) : limitPerEntity (step c op) = limitPerEntity c.
Proof.
  destruct op as [|run|run]; cbn [step]; [reflexivity| |].
  - unfold Refresh. now destruct (build (limitPerEntity c) run).
  - unfold backgroundTick. now destruct (build (limitPerEntity c) run).
Qed.

Lemma steps_latest (lim : Z) (ops : list Op) (c : Cache) (snap : Snapshot) :
  current c = Some snap -> limitPerEntity c = lim ->
  Get (steps c ops) = Some (latest lim snap ops) /\
  limitPerEntity (steps c ops) = lim.
Proof.
  unfold steps, Get. revert c snap.
  induction ops as [|op ops IH]; intros c snap Hc Hl; cbn [fold_left latest]; [auto|].
  pose proof (step_current c op) as S. pose proof (step_limit c op) as L.
  rewrite Hl in S, L. destruct (runOf op) as [run|].
  - destruct (build lim run) as [err|snap']; apply IH; congruence.
  - apply IH; congruence.
Qed.

Lemma latest_origin (lim : Z) (ops : list Op) (run : Run) (snap : Snapshot) :
  build lim run = inr snap ->
  exists run', In run' (origins run ops) /\ build lim run' = inr (latest lim snap ops).
Proof.
  unfold origins. revert run snap. induction ops as [|op ops IH]; intros run snap Hb;
    cbn [runsOf latest].
  - exists run. split; [now left|exact Hb].
  - destruct (runOf op) as [run1|]; [|apply IH, Hb].
    destruct (build lim run1) as [err|snap1] eqn:E1.
    + destruct (IH run snap Hb) as (run' & [Hin|Hin] & Hb');
        exists run'; (split; [|exact Hb']); cbn [In]; auto.
    + destruct (IH run1 snap1 E1) as (run' & Hin & Hb').
      exists run'. split; [now right|exact Hb'].
Qed.

End SlotFacts.

(** C7.  Once [New] has succeeded, its own build succeeded and the slot
    holds what that build returned.  From then on, after any sequence of
    reads, manual refreshes and background ticks, the slot holds exactly
    the snapshot returned by the latest build that succeeded among the
    build of [New] and the builds of those operations: it is never empty,
    it is the result of a build that was actually run, against one of the
    runs met so far and under the configured budget, and it holds for every
    entity kind exactly what that run's fetch returned.  [Get] is a load of
    the slot: it takes no [Run] (no build, no request) and leaves the cache
    as it is.  A manual refresh or a tick stores the snapshot its own build
    returned when that build succeeds and nothing otherwise; nothing else is
    ever stored. *)
Theorem ready_cache_always_serves :
  forall (run : Cache.Run) (lim interval : Z) (logs : list LogRecord)
         (c : Cache.Cache),
    Cache.New run lim interval = (logs, inr c) ->
    exists snap0 : Cache.Snapshot,
      Cache.build lim run = inr snap0 /\
      forall ops : list Cache.Op,
        Cache.limitPerEntity (Cache.steps c ops) = lim /\
        Cache.Get (Cache.steps c ops) = Some (Cache.latest lim snap0 ops) /\
        (exists run',
            In run' (Cache.origins run ops) /\
            Cache.build lim run' = inr (Cache.latest lim snap0 ops) /\
            Cache.complete (Cache.client run') lim (Cache.latest lim snap0 ops)) /\
        Cache.steps c (ops ++ [Cache.OpGet]) = Cache.steps c ops /\
        (forall op,
            Cache.current (Cache.step (Cache.steps c ops) op)
            = match Cache.runOf op with
              | Some run' =>
                  match Cache.build lim run' with
                  | inr snap => Some snap
                  | inl _ => Cache.current (Cache.steps c ops)
                  end
              | None => Cache.current (Cache.steps c ops)
              end).
Proof.
  intros run lim interval logs c HN. unfold Cache.New in HN.
  destruct (Cache.build lim run) as [err|snap0] eqn:E; [discriminate|].
  injection HN as _ <-. exists snap0. split; [reflexivity|]. intros ops.
  destruct (steps_latest lim ops (Cache.Store (Cache.mkCache lim interval None) snap0)
              snap0 eq_refl eq_refl) as [Hcur Hlim].
  split; [exact Hlim|]. split; [exact Hcur|]. split; [|split].
  - destruct (latest_origin lim ops run snap0 E) as (run' & Hin & Hb).
    exists run'. split; [exact Hin|]. split; [exact Hb|].
    apply (build_inr lim run' _ Hb).
  - unfold Cache.steps. now rewrite fold_left_app.
  - intros op. rewrite step_current, Hlim. reflexivity.
Qed.

(** A cache built against the sample remote, then read, refreshed against
    the remote with [sites] down, ticked and read again. *)
Lemma ready_cache_always_serves_witness :
  match Cache.New Cache.sampleRun 1000 1800 with
  | (_, inr c) =>
      exists snap0,
        Cache.build 1000 Cache.sampleRun = inr snap0 /\
        Cache.Get (Cache.steps c [Cache.OpGet; Cache.OpRefresh Cache.sitesDownRun;
                                  Cache.OpTick Cache.sampleRun; Cache.OpGet])
        = Some (Cache.latest 1000 snap0
                  [Cache.OpGet; Cache.OpRefresh Cache.sitesDownRun;
                   Cache.OpTick Cache.sampleRun; Cache.OpGet])
  | (_, inl _) => False
  end.
Proof.
  destruct (Cache.New Cache.sampleRun 1000 1800) as [logs [err|c]] eqn:E.
  - vm_compute in E. discriminate.
  - destruct (ready_cache_always_serves _ _ _ _ _ E) as (snap0 & Hb & H).
    exists snap0. split; [exact Hb|]. exact (proj1 (proj2 (H _))).
Defined.

(** ** The renderer *)

Section RenderFacts.
Import Cache.

Lemma renderAccount_withoutCredentials (ac : Account.t) :
  renderAccount (withoutCredentials ac) = renderAccount ac.
Proof. destruct ac. reflexivity. Qed.

Lemma map_render_withoutCredentials (acs acs' : list Account.t) :
  map withoutCredentials acs = map withoutCredentials acs' ->
  map renderAccount acs = map renderAccount acs' /\
  List.length acs = List.length acs'.
Proof.
  intros H. split.
  - rewrite <- (map_ext _ _ renderAccount_withoutCredentials acs).
    rewrite <- (map_ext _ _ renderAccount_withoutCredentials acs').
    rewrite <- (map_map withoutCredentials renderAccount acs).
    rewrite <- (map_map withoutCredentials renderAccount acs').
    now rewrite H.
  - rewrite <- (length_map withoutCredentials acs), H. apply length_map.
Qed.

(** The rendered text reads nothing of a snapshot but its generation time
    and its twelve collections. *)
Lemma buildMarkdown_frame (s s' : Snapshot) :
  sameContent s s' -> buildMarkdown s = buildMarkdown s'.
Proof.
  destruct s, s'. unfold sameContent. cbn.
  intros (-> & -> & -> & -> & -> & -> & -> & -> & -> & -> & -> & -> & ->).
  reflexivity.
Qed.

End RenderFacts.

(** C4.  The rendered markdown is the same for two snapshots that differ
    only in the [Password] and [TwoFACode] fields of their accounts: the
    renderer never reads them, populated or empty.  Device credentials and
    additional credentials ([Credential], [AdditionalCredential]) are not
    part of a [Snapshot] at all, so no field of theirs can reach the text. *)
Theorem buildMarkdown_ignores_credentials :
  forall s s' : Cache.Snapshot,
    Cache.sameButCredentials s s' ->
    Cache.buildMarkdown s = Cache.buildMarkdown s'.
Proof.
  intros s s' (Ht & Hco & Hsi & Hde & Hkb & Hct & Hag & Hip & Hdo & Hac & Hfa & Hca & Hcf).
  destruct (map_render_withoutCredentials _ _ Hac) as (Hrender & Hlen).
  unfold Cache.buildMarkdown, Cache.sectionIf, Cache.section, Cache.count.
  rewrite Ht, Hco, Hsi, Hde, Hkb, Hct, Hag, Hip, Hdo, Hfa, Hca, Hcf, Hrender, Hlen.
  reflexivity.
Qed.

(** The scenario of the specification: the same account with and without
    its password and second-factor code. *)
Lemma buildMarkdown_ignores_credentials_witness :
  Cache.sameButCredentials (Cache.sampleSnapshot "s3cr3t" "123456")
                           (Cache.sampleSnapshot "" "") /\
  Cache.buildMarkdown (Cache.sampleSnapshot "s3cr3t" "123456")
  = Cache.buildMarkdown (Cache.sampleSnapshot "" "").
Proof.
  assert (H : Cache.sameButCredentials (Cache.sampleSnapshot "s3cr3t" "123456")
                                       (Cache.sampleSnapshot "" ""))
    by (repeat split).
  split; [exact H|].
  exact (buildMarkdown_ignores_credentials _ _ H).
Defined.

(** The text rendered for that account shows its user name and not its
    password. *)
Example rendered_account_has_no_password :
  String.index 0 "alice" (Cache.buildMarkdown (Cache.sampleSnapshot "s3cr3t" "123456"))
    <> None /\
  String.index 0 "s3cr3t" (Cache.buildMarkdown (Cache.sampleSnapshot "s3cr3t" "123456"))
    = None /\
  String.index 0 "123456" (Cache.buildMarkdown (Cache.sampleSnapshot "s3cr3t" "123456"))
    = None.
Proof. vm_compute. repeat split. discriminate. Qed.

(** C6.  The rendered text is a function of the snapshot's generation time
    and its twelve collections alone: two snapshots that agree on them render
    to the same bytes, whatever else differs, and rendering a snapshot that
    [build] returned, or any copy of it, again yields exactly the text that
    the build stored in it. *)
Theorem buildMarkdown_deterministic :
  forall s s' : Cache.Snapshot,
    Cache.sameContent s s' ->
    Cache.buildMarkdown s = Cache.buildMarkdown s' /\
    (forall lim run, Cache.build lim run = inr s ->
                     Cache.buildMarkdown s' = Cache.Markdown s).
Proof.
  intros s s' H. pose proof (buildMarkdown_frame s s' H) as E. split; [exact E|].
  intros lim run Hb. rewrite <- E.
  symmetry. apply (build_inr lim run s Hb).
Qed.

(** A snapshot and a copy of it that carries some other text. *)
Lemma buildMarkdown_deterministic_witness :
  Cache.buildMarkdown (Cache.sampleSnapshot "" "")
  = Cache.buildMarkdown
      (Cache.mkSnapshot Cache.sampleTime "stale" [Cache.sampleCompany] [] [] [] []
         [] [] [] [Cache.sampleAccount "" ""] [] [] []).
Proof.
  refine (proj1 (buildMarkdown_deterministic _ _ _)).
  repeat split.
Defined.

(** ** UTF-8: decoding and encoding runes *)

Import GoUtf8.

Lemma byte_val_range (c : ascii) : 0 <= byte_val c < 256.
Proof.
  unfold byte_val. pose proof (N_ascii_bounded c). lia.
Qed.

Lemma byte_val_chr (z : Z) : 0 <= z < 256 -> byte_val (chr z) = z.
Proof.
  intros H. unfold byte_val, chr. rewrite N_ascii_embedding by lia. lia.
Qed.

Lemma land_ones_mod (x n : Z) : 0 <= n -> Z.land x (2 ^ n - 1) = x mod 2 ^ n.
Proof.
  intros Hn. rewrite <- Z.land_ones by assumption. f_equal.
  rewrite Z.ones_equiv. lia.
Qed.

Lemma lor_high_low (hi lo n : Z) :
  0 <= n -> 0 <= lo < 2 ^ n -> Z.lor (hi * 2 ^ n) lo = hi * 2 ^ n + lo.
Proof.
  intros Hn Hlo.
  assert (E : Z.land (hi * 2 ^ n) lo = 0).
  { apply Z.bits_inj'. intros m Hm. rewrite Z.land_spec, Z.bits_0.
    destruct (Z.lt_ge_cases m n).
    - now rewrite Z.mul_pow2_bits_low.
    - rewrite <- (Z.mod_small lo (2 ^ n)) by lia.
      rewrite Z.mod_pow2_bits_high by lia. apply andb_false_r. }
  pose proof (Z.add_lor_land (hi * 2 ^ n) lo). lia.
Qed.

Lemma u8_mod (x : Z) : u8 x = x mod 256.
Proof. unfold u8. exact (land_ones_mod x 8 ltac:(lia)). Qed.
Lemma maskx_mod (x : Z) : Z.land x maskx = x mod 64.
Proof. exact (land_ones_mod x 6 ltac:(lia)). Qed.
Lemma mask2_mod (x : Z) : Z.land x mask2 = x mod 32.
Proof. exact (land_ones_mod x 5 ltac:(lia)). Qed.
Lemma mask3_mod (x : Z) : Z.land x mask3 = x mod 16.
Proof. exact (land_ones_mod x 4 ltac:(lia)). Qed.
Lemma mask4_mod (x : Z) : Z.land x mask4 = x mod 8.
Proof. exact (land_ones_mod x 3 ltac:(lia)). Qed.
Lemma land7_mod (x : Z) : Z.land x 7 = x mod 8.
Proof. exact (land_ones_mod x 3 ltac:(lia)). Qed.
Lemma shiftr_div (x n : Z) : 0 <= n -> Z.shiftr x n = x / 2 ^ n.
Proof. apply Z.shiftr_div_pow2. Qed.
Lemma shiftl_mul (x n : Z) : 0 <= n -> Z.shiftl x n = x * 2 ^ n.
Proof. apply Z.shiftl_mul_pow2. Qed.

Lemma lor_tx (x : Z) : 0 <= x < 64 -> Z.lor tx x = 128 + x.
Proof. intros H. exact (lor_high_low 2 x 6 ltac:(lia) H). Qed.
Lemma lor_t2 (x : Z) : 0 <= x < 32 -> Z.lor t2 x = 192 + x.
Proof. intros H. exact (lor_high_low 6 x 5 ltac:(lia) H). Qed.
Lemma lor_t3 (x : Z) : 0 <= x < 16 -> Z.lor t3 x = 224 + x.
Proof. intros H. exact (lor_high_low 14 x 4 ltac:(lia) H). Qed.
Lemma lor_t4 (x : Z) : 0 <= x < 8 -> Z.lor t4 x = 240 + x.
Proof. intros H. exact (lor_high_low 30 x 3 ltac:(lia) H). Qed.


Lemma pack2 (a b : Z) :
  Z.lor (Z.shiftl (Z.land a mask2) 6) (Z.land b maskx) = a mod 32 * 64 + b mod 64.
Proof.
  rewrite mask2_mod, maskx_mod, shiftl_mul by lia.
  apply (lor_high_low _ _ 6); [lia|]. apply Z.mod_pos_bound. lia.
Qed.

Lemma pack3 (a b c : Z) :
  Z.lor (Z.lor (Z.shiftl (Z.land a mask3) 12) (Z.shiftl (Z.land b maskx) 6))
        (Z.land c maskx)
  = a mod 16 * 4096 + b mod 64 * 64 + c mod 64.
Proof.
  rewrite mask3_mod, !maskx_mod, !shiftl_mul by lia.
  pose proof (Z.mod_pos_bound b 64 ltac:(lia)).
  pose proof (Z.mod_pos_bound c 64 ltac:(lia)).
  rewrite (lor_high_low (a mod 16) (b mod 64 * 2 ^ 6) 12) by lia.
  replace (a mod 16 * 2 ^ 12 + b mod 64 * 2 ^ 6)
    with ((a mod 16 * 64 + b mod 64) * 2 ^ 6) by lia.
  rewrite (lor_high_low _ (c mod 64) 6) by lia. lia.
Qed.

Lemma pack4 (a b c d : Z) :
  Z.lor (Z.lor (Z.lor (Z.shiftl (Z.land a mask4) 18) (Z.shiftl (Z.land b maskx) 12))
               (Z.shiftl (Z.land c maskx) 6))
        (Z.land d maskx)
  = a mod 8 * 262144 + b mod 64 * 4096 + c mod 64 * 64 + d mod 64.
Proof.
  rewrite mask4_mod, !maskx_mod, !shiftl_mul by lia.
  pose proof (Z.mod_pos_bound b 64 ltac:(lia)).
  pose proof (Z.mod_pos_bound c 64 ltac:(lia)).
  pose proof (Z.mod_pos_bound d 64 ltac:(lia)).
  rewrite (lor_high_low (a mod 8) (b mod 64 * 2 ^ 12) 18) by lia.
  replace (a mod 8 * 2 ^ 18 + b mod 64 * 2 ^ 12)
    with ((a mod 8 * 64 + b mod 64) * 2 ^ 12) by lia.
  rewrite (lor_high_low _ (c mod 64 * 2 ^ 6) 12) by lia.
  replace ((a mod 8 * 64 + b mod 64) * 2 ^ 12 + c mod 64 * 2 ^ 6)
    with (((a mod 8 * 64 + b mod 64) * 64 + c mod 64) * 2 ^ 6) by lia.
  rewrite (lor_high_low _ (d mod 64) 6) by lia. lia.
Qed.


Ltac bool_to_Z :=
  repeat match goal with
  | H : (_ <? _) = true |- _ => apply Z.ltb_lt in H
  | H : (_ <? _) = false |- _ => apply Z.ltb_ge in H
  | H : (_ <=? _) = true |- _ => apply Z.leb_le in H
  | H : (_ <=? _) = false |- _ => apply Z.leb_gt in H
  | H : (_ =? _) = true |- _ => apply Z.eqb_eq in H
  | H : (_ =? _) = false |- _ => apply Z.eqb_neq in H
  | H : (_ >=? _) = true |- _ => rewrite Z.geb_leb in H
  | H : (_ >=? _) = false |- _ => rewrite Z.geb_leb in H
  | H : (_ || _) = false |- _ => apply orb_false_elim in H; destruct H
  | H : (_ || _) = true |- _ => apply orb_true_iff in H
  | H : (_ && _) = true |- _ => apply andb_true_iff in H; destruct H
  | H : (_ && _) = false |- _ => apply andb_false_iff in H
  end.

(** The entry of [first] for each range of leading bytes. *)
Lemma first_cases (b : Z) :
  (b < 128 /\ first b = as_) \/
  ((128 <= b < 194 \/ 244 < b) /\ first b = xx) \/
  (194 <= b <= 223 /\ first b = s1) \/
  (b = 224 /\ first b = s2) \/
  ((225 <= b <= 236 \/ 238 <= b <= 239) /\ first b = s3) \/
  (b = 237 /\ first b = s4) \/
  (b = 240 /\ first b = s5) \/
  (241 <= b <= 243 /\ first b = s6) \/
  (b = 244 /\ first b = s7).
Proof.
  unfold first.
  repeat match goal with
         | |- context [if ?c then _ else _] => destruct c eqn:?
         end; bool_to_Z; lia.
Qed.

Ltac split_ifs :=
  repeat match goal with
         | |- context [if ?c then _ else _] => destruct c eqn:?
         end.

Ltac three_bytes entry range :=
  change (entry >=? as_) with false; cbv iota;
  change (Z.land entry 7) with 3;
  change (acceptRanges (Z.shiftr entry 4)) with range;
  match goal with
  | |- Decoded (String ?c0 ?s) _ =>
      destruct s as [|c1 [|c2 s']];
      [ cbn; now apply DecInvalid
      | cbn [String.length at_ String.get fst snd Z.of_nat Pos.of_succ_nat Pos.succ Z.ltb Z.compare Pos.compare Pos.compare_cont];
        now apply DecInvalid
      | cbn [String.length at_ String.get fst snd];
        pose proof (byte_val_range c1); pose proof (byte_val_range c2);
        rewrite pack3; unfold locb, hicb;
        split_ifs; bool_to_Z; try (now apply DecInvalid); try lia;
        apply (Dec3 _ c0 c1 c2 s'); auto; lia ]
  end.

Ltac four_bytes entry range :=
  change (entry >=? as_) with false; cbv iota;
  change (Z.land entry 7) with 4;
  change (acceptRanges (Z.shiftr entry 4)) with range;
  match goal with
  | |- Decoded (String ?c0 ?s) _ =>
      destruct s as [|c1 [|c2 [|c3 s']]];
      [ cbn; now apply DecInvalid
      | cbn [String.length at_ String.get fst snd Z.of_nat Pos.of_succ_nat Pos.succ Z.ltb Z.compare Pos.compare Pos.compare_cont];
        now apply DecInvalid
      | cbn [String.length at_ String.get fst snd Z.of_nat Pos.of_succ_nat Pos.succ Z.ltb Z.compare Pos.compare Pos.compare_cont];
        now apply DecInvalid
      | cbn [String.length at_ String.get fst snd];
        pose proof (byte_val_range c1); pose proof (byte_val_range c2);
        pose proof (byte_val_range c3);
        rewrite pack4; unfold locb, hicb;
        split_ifs; bool_to_Z; try (now apply DecInvalid); try lia;
        apply (Dec4 _ c0 c1 c2 c3 s'); auto; lia ]
  end.

Lemma Decode_shape (s : string) : Decoded s (DecodeRuneInString s).
Proof.
  destruct s as [|c0 s]; [now apply DecEmpty|].
  unfold DecodeRuneInString.
  cbn [String.length Nat.ltb Nat.leb at_ String.get].
  pose proof (byte_val_range c0) as R0.
  destruct (first_cases (byte_val c0))
    as [[H F]|[[H F]|[[H F]|[[H F]|[[H F]|[[H F]|[[H F]|[[H F]|[H F]]]]]]]]];
    rewrite F.
  - cbn. now apply (Dec1 _ c0 s).
  - cbn. now apply DecInvalid.
  - (* two bytes *)
    change (s1 >=? as_) with false. cbv iota.
    change (Z.land s1 7) with 2. change (acceptRanges (Z.shiftr s1 4)) with (locb, hicb).
    destruct s as [|c1 s]; [cbn; now apply DecInvalid|].
    cbn [String.length at_ String.get fst snd].
    pose proof (byte_val_range c1) as R1.
    rewrite pack2. unfold locb, hicb.
    split_ifs; bool_to_Z; try (now apply DecInvalid); try lia.
    apply (Dec2 _ c0 c1 s); auto; lia.
  - three_bytes s2 (160, hicb).
  - three_bytes s3 (locb, hicb).
  - three_bytes s4 (locb, 159).
  - four_bytes s5 (144, hicb).
  - four_bytes s6 (locb, hicb).
  - four_bytes s7 (locb, 143).
Qed.

Lemma Decode_scalar (s : string) : scalar (fst (DecodeRuneInString s)).
Proof.
  unfold scalar, surrogateMin, surrogateMax, MaxRune.
  destruct (Decode_shape s) as [| |c0 rest _ H|c0 c1 rest _ H0 H1
                                |c0 c1 c2 rest _ H0 H1 Ha Hb H2
                                |c0 c1 c2 c3 rest _ H0 H1 Ha Hb H2 H3];
    cbn [fst]; unfold RuneError; try lia.
  - pose proof (byte_val_range c0). lia.
  - Z.div_mod_to_equations. lia.
  - Z.div_mod_to_equations. lia.
  - Z.div_mod_to_equations. lia.
Qed.

Lemma Decode_width (s : string) :
  s <> EmptyString ->
  (1 <= snd (DecodeRuneInString s) <= String.length s)%nat.
Proof.
  intros Hne.
  destruct (Decode_shape s) as [E| |c0 rest E H|c0 c1 rest E H0 H1
                                |c0 c1 c2 rest E H0 H1 Ha Hb H2
                                |c0 c1 c2 c3 rest E H0 H1 Ha Hb H2 H3];
    cbn [snd]; try contradiction; try (subst s; cbn [String.length]; lia).
  destruct s; [contradiction|]. cbn [String.length]. lia.
Qed.

Lemma Decode1 (c0 : ascii) (rest : string) :
  byte_val c0 < 128 ->
  DecodeRuneInString (String c0 rest) = (byte_val c0, 1%nat).
Proof.
  intros H. unfold DecodeRuneInString. cbn [String.length Nat.ltb Nat.leb at_ String.get].
  destruct (first_cases (byte_val c0))
    as [[H' F]|[[H' F]|[[H' F]|[[H' F]|[[H' F]|[[H' F]|[[H' F]|[[H' F]|[H' F]]]]]]]]];
    try lia.
  rewrite F. reflexivity.
Qed.

Lemma Decode2 (c0 c1 : ascii) (rest : string) :
  194 <= byte_val c0 <= 223 -> 128 <= byte_val c1 <= 191 ->
  DecodeRuneInString (String c0 (String c1 rest))
  = (byte_val c0 mod 32 * 64 + byte_val c1 mod 64, 2%nat).
Proof.
  intros H0 H1. unfold DecodeRuneInString.
  cbn [String.length Nat.ltb Nat.leb at_ String.get].
  destruct (first_cases (byte_val c0))
    as [[H' F]|[[H' F]|[[H' F]|[[H' F]|[[H' F]|[[H' F]|[[H' F]|[[H' F]|[H' F]]]]]]]]];
    try lia.
  rewrite F. change (s1 >=? as_) with false. cbv iota.
  change (Z.land s1 7) with 2. change (acceptRanges (Z.shiftr s1 4)) with (locb, hicb).
  cbn [fst snd]. rewrite pack2. unfold locb, hicb.
  split_ifs; bool_to_Z; try lia. reflexivity.
Qed.

Ltac decode3 entry range :=
  change (entry >=? as_) with false; cbv iota;
  change (Z.land entry 7) with 3;
  change (acceptRanges (Z.shiftr entry 4)) with range;
  cbn [fst snd]; rewrite pack3; unfold locb, hicb;
  split_ifs; bool_to_Z; try lia; reflexivity.

Lemma Decode3 (c0 c1 c2 : ascii) (rest : string) :
  224 <= byte_val c0 <= 239 -> 128 <= byte_val c1 <= 191 ->
  (byte_val c0 = 224 -> 160 <= byte_val c1) ->
  (byte_val c0 = 237 -> byte_val c1 <= 159) ->
  128 <= byte_val c2 <= 191 ->
  DecodeRuneInString (String c0 (String c1 (String c2 rest)))
  = (byte_val c0 mod 16 * 4096 + byte_val c1 mod 64 * 64 + byte_val c2 mod 64, 3%nat).
Proof.
  intros H0 H1 Ha Hb H2. unfold DecodeRuneInString.
  cbn [String.length Nat.ltb Nat.leb at_ String.get].
  destruct (first_cases (byte_val c0))
    as [[H' F]|[[H' F]|[[H' F]|[[H' F]|[[H' F]|[[H' F]|[[H' F]|[[H' F]|[H' F]]]]]]]]];
    try lia; rewrite F.
  - decode3 s2 (160, hicb).
  - decode3 s3 (locb, hicb).
  - decode3 s4 (locb, 159).
Qed.

Ltac decode4 entry range :=
  change (entry >=? as_) with false; cbv iota;
  change (Z.land entry 7) with 4;
  change (acceptRanges (Z.shiftr entry 4)) with range;
  cbn [fst snd]; rewrite pack4; unfold locb, hicb;
  split_ifs; bool_to_Z; try lia; reflexivity.

Lemma Decode4 (c0 c1 c2 c3 : ascii) (rest : string) :
  240 <= byte_val c0 <= 244 -> 128 <= byte_val c1 <= 191 ->
  (byte_val c0 = 240 -> 144 <= byte_val c1) ->
  (byte_val c0 = 244 -> byte_val c1 <= 143) ->
  128 <= byte_val c2 <= 191 -> 128 <= byte_val c3 <= 191 ->
  DecodeRuneInString (String c0 (String c1 (String c2 (String c3 rest))))
  = (byte_val c0 mod 8 * 262144 + byte_val c1 mod 64 * 4096
     + byte_val c2 mod 64 * 64 + byte_val c3 mod 64, 4%nat).
Proof.
  intros H0 H1 Ha Hb H2 H3. unfold DecodeRuneInString.
  cbn [String.length Nat.ltb Nat.leb at_ String.get].
  destruct (first_cases (byte_val c0))
    as [[H' F]|[[H' F]|[[H' F]|[[H' F]|[[H' F]|[[H' F]|[[H' F]|[[H' F]|[H' F]]]]]]]]];
    try lia; rewrite F.
  - decode4 s5 (144, hicb).
  - decode4 s6 (locb, hicb).
  - decode4 s7 (locb, 143).
Qed.

Lemma cont_byte (x : Z) :
  byte_val (chr (Z.lor tx (Z.land (u8 x) maskx))) = 128 + x mod 64.
Proof.
  rewrite maskx_mod, u8_mod.
  replace ((x mod 256) mod 64) with (x mod 64) by (Z.div_mod_to_equations; lia).
  pose proof (Z.mod_pos_bound x 64 ltac:(lia)).
  rewrite lor_tx by lia. apply byte_val_chr. lia.
Qed.

Lemma lead2_byte (y : Z) :
  0 <= y < 32 -> byte_val (chr (Z.lor t2 (u8 y))) = 192 + y.
Proof.
  intros H. rewrite u8_mod, Z.mod_small by lia. rewrite lor_t2 by lia.
  apply byte_val_chr. lia.
Qed.

Lemma lead3_byte (y : Z) :
  0 <= y < 16 -> byte_val (chr (Z.lor t3 (u8 y))) = 224 + y.
Proof.
  intros H. rewrite u8_mod, Z.mod_small by lia. rewrite lor_t3 by lia.
  apply byte_val_chr. lia.
Qed.

Lemma lead4_byte (y : Z) :
  0 <= y < 8 -> byte_val (chr (Z.lor t4 (u8 y))) = 240 + y.
Proof.
  intros H. rewrite u8_mod, Z.mod_small by lia. rewrite lor_t4 by lia.
  apply byte_val_chr. lia.
Qed.

Lemma ascii_byte (r : Z) : 0 <= r < 128 -> byte_val (chr (u8 r)) = r.
Proof.
  intros H. rewrite u8_mod, Z.mod_small by lia. apply byte_val_chr. lia.
Qed.

(** The six-bit groups of a rune. *)
Lemma mod_add_multiple (k x m : Z) : 0 < m -> (k * m + x) mod m = x mod m.
Proof. intros H. rewrite Z.add_comm. apply Z.mod_add. lia. Qed.

Lemma groups2 (r : Z) : r / 2 ^ 6 * 64 + r mod 64 = r.
Proof. change (2 ^ 6) with 64. pose proof (Z.div_mod r 64). lia. Qed.

Lemma groups3 (r : Z) :
  r / 2 ^ 12 * 4096 + (r / 2 ^ 6) mod 64 * 64 + r mod 64 = r.
Proof.
  change (2 ^ 12) with (64 * 64). change (2 ^ 6) with 64.
  rewrite <- Z.div_div by lia.
  pose proof (Z.div_mod r 64). pose proof (Z.div_mod (r / 64) 64). lia.
Qed.

Lemma groups4 (r : Z) :
  r / 2 ^ 18 * 262144 + (r / 2 ^ 12) mod 64 * 4096 + (r / 2 ^ 6) mod 64 * 64
  + r mod 64 = r.
Proof.
  change (2 ^ 18) with (64 * 64 * 64). change (2 ^ 12) with (64 * 64).
  change (2 ^ 6) with 64. rewrite <- !Z.div_div by lia.
  pose proof (Z.div_mod r 64). pose proof (Z.div_mod (r / 64) 64).
  pose proof (Z.div_mod (r / 64 / 64) 64). lia.
Qed.

Lemma low_bits (base x m : Z) :
  0 < m -> 0 <= x < m -> base mod m = 0 -> (base + x) mod m = x.
Proof.
  intros Hm Hx Hb. rewrite Z.add_mod, Hb, Z.add_0_l, Z.mod_mod by lia.
  apply Z.mod_small. assumption.
Qed.

Lemma encode3_decode (r : rune) (rest : string) :
  2048 <= r <= 65535 -> ~ (55296 <= r <= 57343) ->
  DecodeRuneInString (encode3 r ++ rest) = (r, 3%nat).
Proof.
  intros Hr Hs. unfold encode3. cbn [String.append].
  rewrite !shiftr_div by lia.
  pose proof (lead3_byte (r / 2 ^ 12) ltac:(Z.div_mod_to_equations; lia)) as B0.
  pose proof (cont_byte (r / 2 ^ 6)) as B1.
  pose proof (cont_byte r) as B2.
  rewrite Decode3; rewrite ?B0, ?B1, ?B2; try (Z.div_mod_to_equations; lia).
  f_equal.
  rewrite (low_bits 224 (r / 2 ^ 12) 16), !(low_bits 128 _ 64);
    try reflexivity; try (Z.div_mod_to_equations; lia).
  now rewrite groups3.
Qed.

(** Decoding what [EncodeRune] wrote gives the rune back. *)
Lemma Decode_Encode (r : rune) (rest : string) :
  scalar r ->
  DecodeRuneInString (EncodeRune r ++ rest) = (r, String.length (EncodeRune r)).
Proof.
  unfold scalar, surrogateMin, surrogateMax, MaxRune. intros Hr.
  unfold EncodeRune, rune1Max, rune2Max, rune3Max, surrogateMin, surrogateMax, MaxRune.
  destruct ((0 <=? r) && (r <=? 127)) eqn:E1; bool_to_Z.
  { cbn [String.append String.length]. rewrite Decode1; rewrite ascii_byte; auto; lia. }
  destruct ((0 <=? r) && (r <=? 2047)) eqn:E2; bool_to_Z.
  { cbn [String.append String.length]. rewrite !shiftr_div by lia.
    pose proof (lead2_byte (r / 2 ^ 6) ltac:(Z.div_mod_to_equations; lia)) as B0.
    pose proof (cont_byte r) as B1.
    rewrite Decode2; rewrite ?B0, ?B1; try (Z.div_mod_to_equations; lia).
    f_equal.
    rewrite (low_bits 192 (r / 2 ^ 6) 32), (low_bits 128 _ 64);
      try reflexivity; try (Z.div_mod_to_equations; lia).
    now rewrite groups2. }
  destruct ((r <? 0) || (1114111 <? r) || ((55296 <=? r) && (r <=? 57343))) eqn:E3;
    bool_to_Z.
  { exfalso. destruct E3 as [E3|E3]; bool_to_Z; lia. }
  destruct (r <=? 65535) eqn:E4; bool_to_Z.
  { rewrite encode3_decode by lia. reflexivity. }
  cbn [String.append String.length]. rewrite !shiftr_div by lia.
  pose proof (lead4_byte (r / 2 ^ 18) ltac:(Z.div_mod_to_equations; lia)) as B0.
  pose proof (cont_byte (r / 2 ^ 12)) as B1.
  pose proof (cont_byte (r / 2 ^ 6)) as B2.
  pose proof (cont_byte r) as B3.
  rewrite Decode4; rewrite ?B0, ?B1, ?B2, ?B3; try (Z.div_mod_to_equations; lia).
  f_equal.
  rewrite (low_bits 240 (r / 2 ^ 18) 8), !(low_bits 128 _ 64);
    try reflexivity; try (Z.div_mod_to_equations; lia).
  now rewrite groups4.
Qed.

Lemma EncodeRune_length (r : rune) : (1 <= String.length (EncodeRune r) <= 4)%nat.
Proof.
  unfold EncodeRune, encode3. split_ifs; cbn [String.length]; lia.
Qed.

(** ** Runes of a string, fields and joins *)


Lemma append_assoc (a b c : string) : (a ++ b) ++ c = a ++ (b ++ c).
Proof. induction a; simpl; congruence. Qed.

Lemma append_nil_r (a : string) : a ++ "" = a.
Proof. induction a; simpl; congruence. Qed.

Lemma substring_prefix (a s : string) : substring 0 (String.length a) (a ++ s) = a.
Proof.
  induction a as [|c a IH]; simpl.
  - now destruct s.
  - now rewrite IH.
Qed.

Lemma range_from_skip (a s : string) :
  range_from (String.length a) (a ++ s) = range_from 0 s.
Proof.
  induction a as [|c a IH]; simpl; auto.
Qed.

Lemma range_Encode (r : rune) (s : string) :
  scalar r -> range (EncodeRune r ++ s) = (r, EncodeRune r) :: range s.
Proof.
  intros Hr. unfold range.
  pose proof (Decode_Encode r s Hr) as D.
  pose proof (EncodeRune_length r) as L.
  pose proof (substring_prefix (EncodeRune r) s) as P.
  pose proof (range_from_skip (EncodeRune r) s) as K.
  destruct (EncodeRune r) as [|c e]; cbn [String.length] in *; [lia|].
  cbn [String.append] in *. cbn [range_from]. rewrite D.
  rewrite P. f_equal. rewrite Nat.sub_1_r. exact K.
Qed.

Lemma range_string_of_runes (rs : list rune) :
  Forall scalar rs ->
  range (string_of_runes rs) = map (fun r => (r, EncodeRune r)) rs.
Proof.
  induction 1 as [|r rs Hr _ IH]; [reflexivity|].
  cbn [string_of_runes map]. rewrite range_Encode by assumption. now rewrite IH.
Qed.

Lemma runes_string_of_runes (rs : list rune) :
  Forall scalar rs -> runes (string_of_runes rs) = rs.
Proof.
  intros H. unfold runes. rewrite range_string_of_runes by assumption.
  rewrite map_map. cbn [fst]. apply map_id.
Qed.

Lemma range_from_scalar (s : string) (skip : nat) :
  Forall (fun it => scalar (fst it)) (range_from skip s).
Proof.
  revert skip. induction s as [|c s IH]; intros skip; cbn [range_from]; [constructor|].
  destruct skip; [|apply IH].
  pose proof (Decode_scalar (String c s)) as D.
  destruct (DecodeRuneInString (String c s)) as [r w]. constructor; auto.
Qed.

Lemma runes_scalar (s : string) : Forall scalar (runes s).
Proof.
  unfold runes, range. apply Forall_map. apply range_from_scalar.
Qed.

Lemma string_of_runes_app (a b : list rune) :
  string_of_runes (a ++ b) = string_of_runes a ++ string_of_runes b.
Proof.
  induction a as [|r a IH]; [reflexivity|].
  cbn [List.app string_of_runes]. now rewrite IH, append_assoc.
Qed.

Lemma fields_from_runes (f : rune -> bool) (rs : list rune) (cur : option (list rune)) :
  fields_from f (option_map string_of_runes cur) (map (fun r => (r, EncodeRune r)) rs)
  = map string_of_runes (fieldsRunes f cur rs).
Proof.
  revert cur. induction rs as [|r rs IH]; intros cur; cbn [map fields_from fieldsRunes].
  - destruct cur; reflexivity.
  - destruct (f r).
    + destruct cur; cbn [option_map map]; [f_equal|]; apply (IH None).
    + rewrite <- IH. f_equal. destruct cur; cbn [option_map].
      * rewrite string_of_runes_app. cbn [string_of_runes]. now rewrite append_nil_r.
      * cbn [string_of_runes]. now rewrite append_nil_r.
Qed.

Lemma Join_runes (fs : list (list rune)) :
  GoStr.Join (map string_of_runes fs) " " = string_of_runes (joinRunes fs).
Proof.
  unfold GoStr.Join. induction fs as [|w fs IH]; [reflexivity|].
  destruct fs as [|w' fs]; [reflexivity|].
  cbn [map String.concat joinRunes] in *. rewrite IH.
  rewrite string_of_runes_app. reflexivity.
Qed.

Section Preservation.
Variable P : rune -> Prop.

Lemma stripTags_Forall (inTag : bool) (rs : list rune) :
  Forall P rs -> Forall P (Cache.stripTags inTag rs).
Proof.
  intros H. revert inTag. induction H as [|r rs Hr _ IH]; intros inTag;
    cbn [Cache.stripTags]; [constructor|].
  destruct (r =? 60); [apply IH|]. destruct (r =? 62); [apply IH|].
  destruct (negb inTag); [constructor; auto|apply IH].
Qed.

Lemma fieldsRunes_Forall (f : rune -> bool) (rs : list rune) (cur : option (list rune)) :
  Forall P rs -> (forall w, cur = Some w -> Forall P w) ->
  Forall (Forall P) (fieldsRunes f cur rs).
Proof.
  intros H. revert cur. induction H as [|r rs Hr _ IH]; intros cur Hc;
    cbn [fieldsRunes].
  - destruct cur; constructor; auto.
  - destruct (f r).
    + destruct cur; [constructor; auto|]; apply IH; discriminate.
    + apply IH. intros w [= <-]. destruct cur.
      * apply Forall_app. split; auto.
      * auto.
Qed.

Lemma joinRunes_Forall (fs : list (list rune)) :
  P 32 -> Forall (Forall P) fs -> Forall P (joinRunes fs).
Proof.
  intros H32. induction 1 as [|w fs Hw Hfs IH]; [constructor|].
  cbn [joinRunes]. destruct fs; auto.
  apply Forall_app. split; auto.
Qed.

End Preservation.

Lemma stripTags_no_angle (inTag : bool) (rs : list rune) :
  Forall (fun r => r <> 60 /\ r <> 62) (Cache.stripTags inTag rs).
Proof.
  revert inTag. induction rs as [|r rs IH]; intros inTag; cbn [Cache.stripTags];
    [constructor|].
  destruct (Z.eqb_spec r 60); [apply IH|]. destruct (Z.eqb_spec r 62); [apply IH|].
  destruct (negb inTag); [constructor; auto|apply IH].
Qed.

Lemma cleanRunes_Forall (P : rune -> Prop) (s : string) :
  P 32 ->
  (forall rs, Forall scalar rs -> Forall P (Cache.stripTags false rs)) ->
  Forall P (Cache.cleanRunes s).
Proof.
  intros H32 H. unfold Cache.cleanRunes. apply joinRunes_Forall; auto.
  apply fieldsRunes_Forall; [|discriminate]. apply H, runes_scalar.
Qed.

Lemma scalar_32 : scalar 32.
Proof. unfold scalar, surrogateMin. lia. Qed.

Lemma cleanRunes_scalar (s : string) : Forall scalar (Cache.cleanRunes s).
Proof.
  apply cleanRunes_Forall; [exact scalar_32|]. intros rs. apply stripTags_Forall.
Qed.

Lemma cleanText_runes (s : string) :
  Cache.cleanText s = string_of_runes (Cache.cleanRunes s).
Proof.
  unfold Cache.cleanText, Cache.cleanRunes, Fields, FieldsFunc.
  rewrite range_string_of_runes by (apply stripTags_Forall, runes_scalar).
  rewrite (fields_from_runes IsSpace _ None). apply Join_runes.
Qed.

(** ** [truncate] *)


Lemma truncate_runes (s : string) (max : nat) :
  Cache.truncate s max = string_of_runes (Cache.truncateRunes s max).
Proof.
  unfold Cache.truncate, Cache.truncateRunes. rewrite cleanText_runes.
  rewrite runes_string_of_runes by apply cleanRunes_scalar.
  destruct (List.length (Cache.cleanRunes s) <=? max)%nat; [reflexivity|].
  rewrite string_of_runes_app. reflexivity.
Qed.

Lemma firstn_Forall {A : Type} (P : A -> Prop) (n : nat) (l : list A) :
  Forall P l -> Forall P (firstn n l).
Proof.
  intros H. revert n. induction H as [|x l Hx _ IH]; intros [|n]; cbn [firstn];
    constructor; auto.
Qed.

Lemma truncateRunes_Forall (P : rune -> Prop) (s : string) (max : nat) :
  P Cache.marker -> Forall P (Cache.cleanRunes s) -> Forall P (Cache.truncateRunes s max).
Proof.
  intros Hm H. unfold Cache.truncateRunes.
  destruct (List.length (Cache.cleanRunes s) <=? max)%nat; auto.
  apply Forall_app. split; [|auto]. now apply firstn_Forall.
Qed.

Lemma truncateRunes_scalar (s : string) (max : nat) : Forall scalar (Cache.truncateRunes s max).
Proof.
  apply truncateRunes_Forall; [|apply cleanRunes_scalar].
  unfold scalar, Cache.marker, surrogateMin. lia.
Qed.

Lemma truncateRunes_length (s : string) (max : nat) :
  (List.length (Cache.truncateRunes s max) <= S max)%nat /\
  (max < List.length (Cache.cleanRunes s) -> List.length (Cache.truncateRunes s max) = S max)%nat.
Proof.
  unfold Cache.truncateRunes.
  destruct (Nat.leb_spec (List.length (Cache.cleanRunes s)) max); [lia|].
  rewrite length_app, length_firstn. cbn [List.length]. lia.
Qed.

Section Shows.
Import Cache.

Lemma shows_skip (a text label value : string) (budget : nat) :
  Cache.shows text label value budget -> Cache.shows (a ++ text) label value budget.
Proof.
  intros [H|(pre & post & ->)]; [now left|right].
  exists (a ++ pre), post. now rewrite append_assoc.
Qed.

Lemma shows_when (label value post : string) (budget : nat) :
  Cache.shows (when (GoStr.nonempty value) (bullet label (truncate value budget)) ++ post)
        label value budget.
Proof.
  unfold GoStr.nonempty. destruct (String.eqb_spec value "") as [E|E]; [now left|right].
  exists EmptyString, post. reflexivity.
Qed.

End Shows.

Ltac find_bullet :=
  repeat first [ apply shows_when | apply shows_skip ].




(** Markup is dropped, white space collapsed, and the cap counts runes: the
    two-byte letters below are never cut in half. *)
Example truncate_markup :
  Cache.truncate "<p>Hello<br>wörld</p>  <b>bold</b> text   more" 12 = "Hello wörld …".
Proof. vm_compute. reflexivity. Qed.

Example truncate_counts_runes :
  Cache.truncate "éééé" 2 = "éé…" /\
  String.length "éééé" = 8%nat /\ String.length (Cache.truncate "éééé" 2) = 7%nat /\
  Cache.truncate "éééé" 4 = "éééé".
Proof. vm_compute. repeat split. Qed.

(* ================================================================== *)
(** * Part III: further properties of the code *)
(* ================================================================== *)

(** ** [listAll]: what is asked and what is returned *)

Section ListAllHistory.
Import Exchange.
Context {T St : Type}.
Variable serve : St -> Request -> St * (error + Page T).
Variables (path : string) (opts : ListOptions) (maxItems : Z) (st0 : St).

Lemma replay_app (st : St) (a b : list Request) :
  replay serve st (a ++ b)
  = (fst (replay serve (fst (replay serve st a)) b),
     snd (replay serve st a) ++ snd (replay serve (fst (replay serve st a)) b))%list.
Proof.
  revert st. induction a as [|req a IH]; intros st; cbn [List.app replay fst snd].
  - now destruct (replay serve st b).
  - destruct (serve st req) as [st' r]. rewrite IH.
    destruct (replay serve st' a) as [st'' rs]. reflexivity.
Qed.

Lemma offsets_snoc (off : Z) (pages : list (Page T)) (r : error + Page T) :
  offsets off (map inr pages ++ [r])
  = (offsets off (map inr pages)
     ++ [off + Z.of_nat (List.length (concat (map fst pages)))])%list.
Proof.
  revert off. induction pages as [|[items total] pages IH]; intros off;
    cbn [map List.app offsets concat fst].
  - cbn. now rewrite Z.add_0_r.
  - rewrite IH. cbn [carried]. rewrite length_app. do 3 f_equal. lia.
Qed.

Lemma history_start : history serve path opts st0 (mkLoop st0 [] 0 []) [].
Proof. repeat split. Qed.

Lemma history_step (l : Loop T St) (pages : list (Page T)) :
  history serve path opts st0 l pages ->
  replay serve st0 (l_trace l ++ [next_request path opts l])
  = (fst (serve (l_st l) (next_request path opts l)),
     map inr pages ++ [snd (serve (l_st l) (next_request path opts l))])%list /\
  (forall r, (l_trace l ++ [next_request path opts l])%list
             = map (pageRequest path opts) (offsets 0 (map inr pages ++ [r]))).
Proof.
  intros (Hr & Ha & Ho & Ht). split.
  - rewrite replay_app, Hr. cbn [fst snd replay].
    now destruct (serve (l_st l) (next_request path opts l)).
  - intros r. rewrite offsets_snoc, map_app, <- Ht. cbn [map]. do 2 f_equal.
    unfold next_request, pageRequest. rewrite Ho, Ha. now rewrite Z.add_0_l.
Qed.

Lemma listAll_loop_history (fuel : nat) (l : Loop T St) (pages : list (Page T))
      (o : Outcome T St) :
  history serve path opts st0 l pages ->
  listAll_loop serve fuel path opts maxItems l = Some o ->
  exists (ps : list (Page T)) (last : error + Page T),
    replay serve st0 (o_trace o) = (o_st o, map inr ps ++ [last])%list /\
    o_trace o = map (pageRequest path opts) (offsets 0 (map inr ps ++ [last])) /\
    o_result o = match last with
                 | inl err => inl err
                 | inr p => inr (concat (map fst ps) ++ fst p)%list
                 end.
Proof.
  revert l pages. induction fuel as [|fuel IH]; intros l pages H; [discriminate|].
  cbn [listAll_loop].
  pose proof (listAll_body_spec serve path opts maxItems l) as S.
  destruct (history_step l pages H) as (Hrep & Htr).
  destruct (listAll_body serve path opts maxItems l) as [l'|o'].
  - destruct S as (items & total & Hresp & Hst & Hall & Hoff & Ht & _).
    apply (IH l' (pages ++ [(items, total)])%list).
    destruct H as (Hr & Ha & Ho & _).
    rewrite Hresp in Hrep. unfold history. rewrite Ht, Hrep, Hst, map_app. cbn [map].
    split; [reflexivity|]. split; [|split].
    + rewrite Hall, Ha, map_app, concat_app. cbn. now rewrite app_nil_r.
    + rewrite Hoff, Hall, length_app. lia.
    + apply (Htr (inr (items, total))).
  - destruct S as (Hst & Ht & S). intros [= <-].
    exists pages, (snd (serve (l_st l) (next_request path opts l))).
    rewrite Ht, Hrep, Hst. split; [reflexivity|]. split; [apply Htr|].
    destruct H as (_ & Ha & _).
    destruct (snd (serve (l_st l) (next_request path opts l))) as [err|[items total]].
    + exact S.
    + destruct S as (S & _). rewrite S, Ha. reflexivity.
Qed.

Lemma listAll_loop_within (fuel : nat) (l : Loop T St) (o : Outcome T St) :
  pagesWithin serve path opts ->
  l_offset l = Z.of_nat (List.length (l_all l)) ->
  l_offset l <= Z.max 0 (maxItems - 1) ->
  listAll_loop serve fuel path opts maxItems l = Some o ->
  forall items, o_result o = inr items ->
                Z.of_nat (List.length items) <= Z.max 0 (maxItems - 1) + pageSize.
Proof.
  intros Hw. revert l. induction fuel as [|fuel IH]; intros l Hoff Hle; [discriminate|].
  cbn [listAll_loop].
  pose proof (listAll_body_spec serve path opts maxItems l) as S.
  specialize (Hw (l_st l) (l_offset l)).
  change (pageRequest path opts (l_offset l)) with (next_request path opts l) in Hw.
  destruct (listAll_body serve path opts maxItems l) as [l'|o'].
  - destruct S as (items & total & Hresp & _ & Hall & Hoff' & _ & _ & _ & Hm).
    apply IH; [|lia]. rewrite Hoff', Hall, length_app. lia.
  - destruct S as (_ & _ & S). intros [= <-] items Hres.
    destruct (snd (serve (l_st l) (next_request path opts l))) as [err|[its total]].
    + congruence.
    + destruct S as (S & _). rewrite S in Hres. injection Hres as <-.
      rewrite length_app. unfold pageSize in *. lia.
Qed.

End ListAllHistory.

Section SlicedCollection.
Import Exchange.
Context {T St : Type}.
Variable serve : St -> Request -> St * (error + Page T).
Variables (coll : list T) (path : string) (opts : ListOptions) (maxItems : Z).
Hypothesis Hlimit : Url.Has (Extra opts) "limit" = false.
Hypothesis Hoffset : Url.Has (Extra opts) "offset" = false.
Hypothesis Hslices : slices serve coll.

Lemma firstn_skipn_app (n k : nat) (l : list T) :
  (firstn n l ++ firstn k (skipn n l))%list = firstn (n + k) l.
Proof.
  revert l. induction n as [|n IH]; intros l; [reflexivity|].
  destruct l as [|x l]; cbn [firstn skipn List.app Nat.add].
  - now rewrite firstn_nil.
  - now rewrite IH.
Qed.

Lemma firstn_own_length (k : nat) (l : list T) :
  firstn (List.length (firstn k l)) l = firstn k l.
Proof.
  revert l. induction k as [|k IH]; intros l; [reflexivity|].
  destruct l as [|x l]; cbn [firstn List.length]; [reflexivity|]. now rewrite IH.
Qed.

Lemma slices_declares : declares serve (Z.of_nat (List.length coll)).
Proof.
  intros st req. destruct (synthetic_declares coll tt req) as (items & H & Hlen).
  exists items. now rewrite Hslices.
Qed.

Lemma listAll_loop_slices (fuel : nat) (l : Loop T St) (o : Outcome T St) :
  l_all l = firstn (List.length (l_all l)) coll ->
  l_offset l = Z.of_nat (List.length (l_all l)) ->
  listAll_loop serve fuel path opts maxItems l = Some o ->
  exists items, o_result o = inr items /\ items = firstn (List.length items) coll.
Proof.
  revert l. induction fuel as [|fuel IH]; intros l Hall Hoff; [discriminate|].
  cbn [listAll_loop].
  pose proof (listAll_body_spec serve path opts maxItems l) as S.
  assert (Hpage : snd (serve (l_st l) (next_request path opts l))
                  = inr (firstn (Z.to_nat pageSize) (skipn (List.length (l_all l)) coll),
                         Z.of_nat (List.length coll))).
  { rewrite Hslices. unfold synthetic, next_request. cbn [snd req_query].
    rewrite page_query_limit, page_query_offset by (auto; lia).
    rewrite Hoff, Nat2Z.id. reflexivity. }
  assert (Hnew : forall items,
             items = firstn (Z.to_nat pageSize) (skipn (List.length (l_all l)) coll) ->
             (l_all l ++ items)%list
             = firstn (List.length (l_all l ++ items)%list) coll).
  { intros items ->. rewrite Hall at 1 3. rewrite firstn_skipn_app.
    now rewrite firstn_own_length. }
  rewrite Hpage in S.
  destruct (listAll_body serve path opts maxItems l) as [l'|o'].
  - destruct S as (items & total & [= <- <-] & _ & Hall' & Hoff' & _).
    apply IH.
    + rewrite Hall'. now apply Hnew.
    + rewrite Hoff', Hall', length_app. lia.
  - destruct S as (_ & _ & Hres & _). intros [= <-].
    eexists. split; [exact Hres|]. now apply Hnew.
Qed.

End SlicedCollection.

(** X1.  What [listAll] returns is what the service sent.  Replaying the
    requests of a call against the service gives a run of pages closed by a
    last answer: if that answer is an error, [listAll] returns the error and
    none of the items it had gathered; otherwise it returns the items of all
    the pages, in the order the pages came, nothing dropped, added or
    reordered. *)
Theorem listAll_returns_pages_in_order :
  forall (T St : Type) (serve : St -> Request -> St * (error + Page T))
         (st : St) (path : string) (opts : option ListOptions) (maxItems : Z),
  exists (o : Outcome T St) (ps : list (Page T)) (last : error + Page T),
    listAll serve st path opts maxItems = Some o /\
    Exchange.replay serve st (o_trace o) = (o_st o, map inr ps ++ [last])%list /\
    o_result o = match last with
                 | inl err => inl err
                 | inr p => inr (concat (map fst ps) ++ fst p)%list
                 end.
Proof.
  intros T St serve st path opts maxItems. unfold listAll.
  destruct (listAll_loop_total serve path (orZero opts) maxItems
              (listAll_fuel maxItems) (mkLoop st [] 0 [])) as (o & Ho & _).
  { unfold listAll_fuel. cbn [l_offset]. lia. }
  destruct (listAll_loop_history serve path (orZero opts) maxItems st _ _ [] o
              (history_start serve path (orZero opts) st) Ho)
    as (ps & last & Hrep & _ & Hres).
  now exists o, ps, last.
Qed.

(** X2.  Every request of [listAll] is a [GET] of the same path with the
    caller's filters, [limit = 100] and as [offset] the number of items
    received so far: the first page is asked at offset 0 and each next one
    where the previous pages ended, whatever page sizes the service chose. *)
Theorem listAll_asks_where_pages_ended :
  forall (T St : Type) (serve : St -> Request -> St * (error + Page T))
         (st : St) (path : string) (opts : option ListOptions) (maxItems : Z),
  exists o : Outcome T St,
    listAll serve st path opts maxItems = Some o /\
    o_trace o = map (Exchange.pageRequest path (orZero opts))
                    (Exchange.offsets 0 (snd (Exchange.replay serve st (o_trace o)))).
Proof.
  intros T St serve st path opts maxItems. unfold listAll.
  destruct (listAll_loop_total serve path (orZero opts) maxItems
              (listAll_fuel maxItems) (mkLoop st [] 0 [])) as (o & Ho & _).
  { unfold listAll_fuel. cbn [l_offset]. lia. }
  destruct (listAll_loop_history serve path (orZero opts) maxItems st _ _ [] o
              (history_start serve path (orZero opts) st) Ho)
    as (ps & last & Hrep & Htr & _).
  exists o. split; [exact Ho|]. now rewrite Hrep.
Qed.

(** X3.  The budget is checked only between pages, so it can be overshot,
    but by less than a page: against a service that keeps to the requested
    page size, a successful [listAll] returns at most
    [max 0 (maxItems - 1) + 100] items. *)
Theorem listAll_overshoot_below_a_page :
  forall (T St : Type) (serve : St -> Request -> St * (error + Page T))
         (st : St) (path : string) (opts : option ListOptions) (maxItems : Z),
    Exchange.pagesWithin serve path (orZero opts) ->
    exists o : Outcome T St,
      listAll serve st path opts maxItems = Some o /\
      forall items : list T,
        o_result o = inr items ->
        Z.of_nat (List.length items) <= Z.max 0 (maxItems - 1) + pageSize.
Proof.
  intros T St serve st path opts maxItems Hw. unfold listAll.
  destruct (listAll_loop_total serve path (orZero opts) maxItems
              (listAll_fuel maxItems) (mkLoop st [] 0 [])) as (o & Ho & _).
  { unfold listAll_fuel. cbn [l_offset]. lia. }
  exists o. split; [exact Ho|].
  apply (listAll_loop_within serve path (orZero opts) maxItems
           (listAll_fuel maxItems) (mkLoop st [] 0 []) o Hw); auto.
  cbn [l_offset]. lia.
Qed.

Lemma listAll_overshoot_below_a_page_witness :
  exists o : Outcome nat unit,
    listAll (synthetic (seq 0 250)) tt "/api/2.0/devices/" None 150 = Some o /\
    forall items : list nat,
      o_result o = inr items ->
      Z.of_nat (List.length items) <= Z.max 0 (150 - 1) + pageSize.
Proof.
  apply (listAll_overshoot_below_a_page nat unit (synthetic (seq 0 250)) tt
           "/api/2.0/devices/" None 150).
  intros st off. unfold synthetic, Exchange.pageRequest. cbn [snd req_query].
  rewrite page_query_limit by (auto; unfold pageSize; lia).
  rewrite length_firstn. unfold pageSize. lia.
Defined.

(** X4.  A budget of zero or less does not mean "fetch nothing": the first
    page is always asked for, [listAll] stops after it, and its answer (the
    page's items, or the error) is the result. *)
Theorem listAll_without_budget_takes_first_page :
  forall (T St : Type) (serve : St -> Request -> St * (error + Page T))
         (st : St) (path : string) (opts : option ListOptions) (maxItems : Z),
    maxItems <= 0 ->
    exists o : Outcome T St,
      listAll serve st path opts maxItems = Some o /\
      o_trace o = [Exchange.pageRequest path (orZero opts) 0] /\
      o_result o =
        match snd (serve st (Exchange.pageRequest path (orZero opts) 0)) with
        | inl err => inl err
        | inr (items, _) => inr items
        end.
Proof.
  intros T St serve st path opts maxItems Hm. unfold listAll.
  assert (Hf : listAll_fuel maxItems = 1%nat) by (unfold listAll_fuel; lia).
  rewrite Hf. cbn [listAll_loop].
  pose proof (listAll_body_spec serve path (orZero opts) maxItems (mkLoop st [] 0 [])) as S.
  change (next_request path (orZero opts) (mkLoop st [] 0 []))
    with (Exchange.pageRequest path (orZero opts) 0) in S.
  destruct (listAll_body serve path (orZero opts) maxItems (mkLoop st [] 0 [])) as [l'|o].
  - destruct S as (items & total & _ & _ & _ & Hoff & _ & _ & _ & Hlt).
    cbn [l_offset] in Hoff. lia.
  - destruct S as (_ & Ht & S). exists o. split; [reflexivity|]. split; [exact Ht|].
    cbn [l_st l_all List.app] in S.
    destruct (snd (serve st (Exchange.pageRequest path (orZero opts) 0)))
      as [err|[items total]]; [exact S|exact (proj1 S)].
Qed.

Lemma listAll_without_budget_takes_first_page_witness :
  exists o : Outcome nat unit,
    listAll (synthetic (seq 0 250)) tt "/api/2.0/devices/" None 0 = Some o /\
    o_trace o = [Exchange.pageRequest "/api/2.0/devices/" (orZero None) 0] /\
    o_result o =
      match snd (synthetic (seq 0 250) tt
                   (Exchange.pageRequest "/api/2.0/devices/" (orZero None) 0)) with
      | inl err => inl err
      | inr (items, _) => inr items
      end.
Proof.
  apply (listAll_without_budget_takes_first_page nat unit (synthetic (seq 0 250)) tt
           "/api/2.0/devices/" None 0).
  lia.
Defined.

(** X5.  Against a service that answers each page request with the slice
    [coll[offset : offset+limit]] of a collection and its size, [listAll]
    returns a prefix of the collection, no item skipped or repeated, and
    the prefix is the whole pages needed to reach the smaller of the
    collection's size and the budget: its length is
    [min (len coll) (100 * max 1 (ceil (min (len coll) maxItems / 100)))]. *)
Theorem listAll_returns_prefix_of_collection :
  forall (T St : Type) (serve : St -> Request -> St * (error + Page T))
         (st : St) (coll : list T) (path : string) (opts : option ListOptions)
         (maxItems : Z),
    Url.Has (Extra (orZero opts)) "limit" = false ->
    Url.Has (Extra (orZero opts)) "offset" = false ->
    Exchange.slices serve coll ->
    exists o : Outcome T St,
      listAll serve st path opts maxItems = Some o /\
      o_result o =
        inr (firstn (Z.to_nat
                       (Z.min (Z.of_nat (List.length coll))
                          (pageSize *
                           Z.max 1 (ceil_div (Z.min (Z.of_nat (List.length coll)) maxItems)
                                      pageSize))))
               coll).
Proof.
  intros T St serve st coll path opts maxItems HL HO Hs. unfold listAll.
  destruct (listAll_loop_declared serve path (orZero opts) maxItems
              (Z.of_nat (List.length coll)) HL HO (Nat2Z.is_nonneg _)
              (slices_declares serve coll Hs)
              (listAll_fuel maxItems) (mkLoop st [] 0 []))
    as (o & items & Ho & Hr & _ & Hlen).
  { cbn [l_offset]. lia. }
  { reflexivity. }
  { unfold listAll_fuel. cbn [l_offset]. lia. }
  destruct (listAll_loop_slices serve coll path (orZero opts) maxItems HL HO Hs
              (listAll_fuel maxItems) (mkLoop st [] 0 []) o)
    as (items' & Hr' & Hpre); auto.
  exists o. split; [exact Ho|]. rewrite Hr'. f_equal.
  assert (items' = items) by congruence. subst items'.
  rewrite Hpre at 1. f_equal.
  cbn [l_offset] in Hlen. rewrite Z.add_0_l, Z.sub_0_r in Hlen.
  rewrite <- Hlen. now rewrite Nat2Z.id.
Qed.

Lemma listAll_returns_prefix_of_collection_witness :
  exists o : Outcome nat unit,
    listAll (synthetic (seq 0 250)) tt "/api/2.0/devices/" None 150 = Some o /\
    o_result o =
      inr (firstn (Z.to_nat
                     (Z.min (Z.of_nat (List.length (seq 0 250)))
                        (pageSize *
                         Z.max 1 (ceil_div (Z.min (Z.of_nat (List.length (seq 0 250))) 150)
                                    pageSize))))
             (seq 0 250)).
Proof.
  apply (listAll_returns_prefix_of_collection nat unit (synthetic (seq 0 250)) tt
           (seq 0 250) "/api/2.0/devices/" None 150).
  - reflexivity.
  - reflexivity.
  - intros st req. reflexivity.
Defined.

(** ** [toQuery]: what reaches the query string *)

Section HasFacts.
Import Url.

Lemma Has_app (q1 q2 : Values) (k : string) :
  Has (q1 ++ q2)%list k = Has q1 k || Has q2 k.
Proof.
  induction q1 as [|[k0 v0] q1 IH]; cbn [List.app Has]; auto.
  now rewrite IH, orb_assoc.
Qed.

Lemma Has_Set_same (q : Values) (k v : string) : Has (Set_ q k v) k = true.
Proof.
  unfold Set_. rewrite Has_app. cbn [Has]. rewrite String.eqb_refl.
  now rewrite orb_true_r.
Qed.

Lemma Has_Set_other (q : Values) (k v k' : string) :
  k <> k' -> Has (Set_ q k v) k' = Has q k'.
Proof.
  intros Hne. unfold Set_. rewrite Has_app, Has_Del_other by assumption. cbn [Has].
  apply String.eqb_neq in Hne. rewrite Hne. now rewrite !orb_false_r.
Qed.

Lemma Has_setStr_other k v q k' : k <> k' -> Has (setStr k v q) k' = Has q k'.
Proof. intros. unfold setStr. destruct (nonempty v); auto using Has_Set_other. Qed.

Lemma Has_setBool_other k v q k' : k <> k' -> Has (setBool k v q) k' = Has q k'.
Proof. intros. unfold setBool. destruct v; auto using Has_Set_other. Qed.

Lemma Has_setPos_other k v q k' : k <> k' -> Has (setPos k v q) k' = Has q k'.
Proof. intros. unfold setPos. destruct (0 <? v); auto using Has_Set_other. Qed.

Lemma Has_setPos_same k v q : Has q k = false -> Has (setPos k v q) k = (0 <? v).
Proof.
  intros H. unfold setPos. destruct (0 <? v); auto using Has_Set_same.
Qed.

Lemma Has_extra (extra : list (string * string)) (q : Values) (k : string) :
  Has extra k = false ->
  Has (fold_left (fun q kv => Set_ q (fst kv) (snd kv)) extra q) k = Has q k.
Proof.
  revert q. induction extra as [|[k0 v0] extra IH]; intros q H; cbn [fold_left]; auto.
  cbn [Has] in H. apply orb_false_elim in H. destruct H as [Hk He].
  rewrite IH by assumption. cbn [fst snd]. apply Has_Set_other.
  intros ->. rewrite String.eqb_refl in Hk. discriminate.
Qed.

Lemma Has_false_notin (q : Values) (k : string) :
  ~ In k (map fst q) -> Has q k = false.
Proof.
  induction q as [|[k0 v0] q IH]; cbn [map fst In Has]; intros H; auto.
  apply orb_false_intro.
  - apply String.eqb_neq. intros ->. apply H. now left.
  - apply IH. intros Hin. apply H. now right.
Qed.

Lemma Get_extra_last (extra : list (string * string)) (q : Values) (k v : string) :
  NoDup (map fst extra) -> In (k, v) extra ->
  Get (fold_left (fun q kv => Set_ q (fst kv) (snd kv)) extra q) k = v.
Proof.
  revert q. induction extra as [|[k0 v0] extra IH]; intros q Hnd Hin; [destruct Hin|].
  cbn [map fst] in Hnd. inversion Hnd as [|? ? Hk0 Hnd']; subst.
  cbn [fold_left fst snd]. destruct Hin as [[= -> ->]|Hin].
  - rewrite Get_extra by now apply Has_false_notin. apply Get_Set_same.
  - now apply IH.
Qed.

End HasFacts.

(** Walks [Url.Has] inwards through the [Set] calls on other keys. *)
Ltac skip_has :=
  repeat first [ rewrite Has_setStr_other by discriminate
               | rewrite Has_setBool_other by discriminate
               | rewrite Has_setPos_other by discriminate ].

(** X6.  [toQuery] sends [limit] and [offset] only when they are positive,
    as their decimal numerals: a zero or negative [Limit] or [Offset] leaves
    the parameter out, so the remote applies its own default (in
    particular the first page of [listAll], at offset 0, carries no
    [offset]).  A nil receiver gives the empty query. *)
Theorem toQuery_limit_offset_only_when_positive :
  forall o : ListOptions,
    Url.Has (Extra o) "limit" = false ->
    Url.Has (Extra o) "offset" = false ->
    Url.Has (toQuery (Some o)) "limit" = (0 <? Limit o) /\
    Url.Has (toQuery (Some o)) "offset" = (0 <? Offset o) /\
    (0 < Limit o -> Url.Get (toQuery (Some o)) "limit" = Itoa (Limit o)) /\
    (0 < Offset o -> Url.Get (toQuery (Some o)) "offset" = Itoa (Offset o)) /\
    (forall k, Url.Has (toQuery None) k = false).
Proof.
  intros o HL HO. repeat split.
  - unfold toQuery. rewrite Has_extra by assumption. skip_has.
    apply Has_setPos_same. skip_has. reflexivity.
  - unfold toQuery. rewrite Has_extra by assumption. skip_has.
    apply Has_setPos_same. skip_has. reflexivity.
  - intros Hp. unfold toQuery. rewrite Get_extra by assumption. skip_keys.
    now apply Get_setPos_same.
  - intros Hp. unfold toQuery. rewrite Get_extra by assumption. skip_keys.
    now apply Get_setPos_same.
Qed.

Lemma toQuery_limit_offset_only_when_positive_witness :
  Url.Has (toQuery (Some (withPage zeroListOptions 100 0))) "limit" = (0 <? Limit (withPage zeroListOptions 100 0)) /\
  Url.Has (toQuery (Some (withPage zeroListOptions 100 0))) "offset" = (0 <? Offset (withPage zeroListOptions 100 0)) /\
  (0 < Limit (withPage zeroListOptions 100 0) ->
   Url.Get (toQuery (Some (withPage zeroListOptions 100 0))) "limit" = Itoa (Limit (withPage zeroListOptions 100 0))) /\
  (0 < Offset (withPage zeroListOptions 100 0) ->
   Url.Get (toQuery (Some (withPage zeroListOptions 100 0))) "offset" = Itoa (Offset (withPage zeroListOptions 100 0))) /\
  (forall k, Url.Has (toQuery None) k = false).
Proof.
  apply (toQuery_limit_offset_only_when_positive (withPage zeroListOptions 100 0));
    reflexivity.
Defined.

(** X7.  The [Extra] parameters are written last, so they win: a key of
    [Extra] (a Go map, hence without repeated keys) reaches the query with
    the value [Extra] gives it, also when a typed field such as [Limit],
    [Offset] or [Name] had set the same parameter. *)
Theorem toQuery_extra_overrides_fields :
  forall (o : ListOptions) (k v : string),
    NoDup (map fst (Extra o)) ->
    In (k, v) (Extra o) ->
    Url.Get (toQuery (Some o)) k = v.
Proof.
  intros o k v Hnd Hin. unfold toQuery. now apply Get_extra_last.
Qed.

Lemma toQuery_extra_overrides_fields_witness :
  Url.Get (toQuery (Some (mkListOptions "" "" "" "" "" "" "" "" "" "" "" "" ""
                            None None "" 100 200 "" [("limit", "5")])))
          "limit" = "5".
Proof.
  apply (toQuery_extra_overrides_fields
           (mkListOptions "" "" "" "" "" "" "" "" "" "" "" "" ""
              None None "" 100 200 "" [("limit", "5")]) "limit" "5").
  - cbn. constructor; [intros []|constructor].
  - now left.
Defined.

(** ** The cache from start-up to the served document *)

Section ServedFacts.
Import Cache Resources.

Lemma firstError_ext (finish : Kind -> nat) (errOf errOf' : Kind -> option error)
      (ks : list Kind) (best : option (nat * error)) :
  (forall k, errOf k = errOf' k) ->
  firstError finish errOf ks best = firstError finish errOf' ks best.
Proof.
  intros H. revert best. induction ks as [|k ks IH]; intros best; cbn [firstError]; auto.
  now rewrite H, IH.
Qed.

Lemma taskError_blank (cl : Client) (lim : Z) (k : Kind) :
  taskError (blankClient cl) lim k = taskError cl lim k.
Proof.
  destruct k; cbn [taskError blankClient ListAllCompanies ListAllSites ListAllDevices
                     ListAllKBs ListAllContacts ListAllAgreements ListAllIPNetworks
                     ListAllDocuments ListAllAccounts ListAllFacilities ListAllCabinets
                     ListAllConfigurations]; auto.
  now destruct (ListAllAccounts cl lim).
Qed.

Lemma withoutCredentials_twice (ac : Account.t) :
  withoutCredentials (withoutCredentials ac) = withoutCredentials ac.
Proof. destruct ac. reflexivity. Qed.

Lemma fetched_blank (r : error + list Account.t) :
  map withoutCredentials (fetched (blankAccounts r)) = map withoutCredentials (fetched r).
Proof.
  destruct r as [err|acs]; cbn [blankAccounts fetched]; [reflexivity|].
  rewrite map_map. apply map_ext, withoutCredentials_twice.
Qed.

(** The renderer reads neither [Password] nor [TwoFACode]. *)
Lemma buildMarkdown_blank (s s' : Snapshot) :
  sameButCredentials s s' -> buildMarkdown s = buildMarkdown s'.
Proof.
  intros (Ht & Hco & Hsi & Hde & Hkb & Hct & Hag & Hip & Hdo & Hac & Hfa & Hca & Hcf).
  destruct (map_render_withoutCredentials _ _ Hac) as (Hrender & Hlen).
  unfold buildMarkdown, sectionIf, section, count.
  rewrite Ht, Hco, Hsi, Hde, Hkb, Hct, Hag, Hip, Hdo, Hfa, Hca, Hcf, Hrender, Hlen.
  reflexivity.
Qed.

Lemma build_blank (lim : Z) (run : Run) :
  match build lim run, build lim (blankRun run) with
  | inr s, inr s' => Markdown s = Markdown s' /\ counts s = counts s'
  | inl e, inl e' => e = e'
  | _, _ => False
  end.
Proof.
  unfold build. cbn [client finish now blankRun].
  assert (W : Wait (finish run) (taskError (blankClient (client run)) lim)
              = Wait (finish run) (taskError (client run) lim)).
  { unfold Wait. f_equal. apply firstError_ext. intros k. apply taskError_blank. }
  rewrite W. destruct (Wait (finish run) (taskError (client run) lim)); [reflexivity|].
  cbn [Markdown GeneratedAt Companies Sites Devices KBs Contacts Agreements IPNetworks
       Documents Accounts Facilities Cabinets Configurations blankClient
       ListAllCompanies ListAllSites ListAllDevices ListAllKBs ListAllContacts
       ListAllAgreements ListAllIPNetworks ListAllDocuments ListAllAccounts
       ListAllFacilities ListAllCabinets ListAllConfigurations].
  pose proof (fetched_blank (ListAllAccounts (client run) lim)) as Hac.
  split.
  - apply buildMarkdown_blank. repeat split. cbn [Accounts]. now rewrite Hac.
  - unfold counts.
    cbn [Companies Sites Devices KBs Contacts Agreements IPNetworks
         Documents Accounts Facilities Cabinets Configurations].
    do 8 f_equal. f_equal. f_equal. f_equal. f_equal.
    rewrite <- (length_map withoutCredentials (fetched (blankAccounts _))), Hac.
    now rewrite length_map.
Qed.

Lemma step_blank (c c' : Cache) (op : Op) :
  sameDocument c c' -> sameDocument (step c op) (step c' (blankOp op)).
Proof.
  intros [Hl Hc]. destruct op as [|run|run]; cbn [step blankOp].
  - now split.
  - unfold Refresh. rewrite <- Hl. pose proof (build_blank (limitPerEntity c) run) as B.
    destruct (build (limitPerEntity c) run) as [e|s],
             (build (limitPerEntity c) (blankRun run)) as [e'|s'];
      try contradiction; cbn [fst]; [now split|].
    split; [exact Hl|]. cbn [Store current]. apply B.
  - unfold backgroundTick. rewrite <- Hl.
    pose proof (build_blank (limitPerEntity c) run) as B.
    destruct (build (limitPerEntity c) run) as [e|s],
             (build (limitPerEntity c) (blankRun run)) as [e'|s'];
      try contradiction; cbn [fst]; [now split|].
    split; [exact Hl|]. cbn [Store current]. apply B.
Qed.

Lemma steps_blank (ops : list Op) (c c' : Cache) :
  sameDocument c c' -> sameDocument (steps c ops) (steps c' (map blankOp ops)).
Proof.
  unfold steps. revert c c'. induction ops as [|op ops IH]; intros c c' H; cbn; auto.
  apply IH, step_blank, H.
Qed.

Lemma New_ready (run : Run) (lim interval : Z) (logs : list LogRecord) (c : Cache) :
  New run lim interval = (logs, inr c) -> ready c.
Proof.
  unfold New. destruct (build lim run) as [err|snap] eqn:E; [discriminate|].
  intros [= _ <-]. exists snap. split; [reflexivity|]. now exists lim, run.
Qed.

Lemma taskError_prefix (cl : Client) (lim : Z) (k : Kind) (e : error) :
  taskError cl lim k = Some e ->
  exists what cause, e = Wrap ("list " ++ what) cause.
Proof.
  unfold failure.
  destruct k; cbn [taskError]; unfold failure;
    match goal with |- context [match ?r with inl _ => _ | inr _ => _ end] =>
      destruct r as [cause|]; [|discriminate] end;
    intros [= <-]; eexists _, cause;
    match goal with |- Wrap ?p _ = _ =>
      let q := eval cbv in (GoStr.drop 5 p) in
      change p with ("list " ++ q) end; reflexivity.
Qed.

Lemma backgroundLoop_ticks (signals : list Signal) (c : Cache) :
  backgroundLoop signals c = backgroundLoop (map Tick (ticksBeforeDone signals)) c.
Proof.
  revert c. induction signals as [|[|run] signals IH]; intros c;
    cbn [ticksBeforeDone map backgroundLoop]; auto.
  destruct (backgroundTick c run) as [c' logs]. now rewrite IH.
Qed.

Lemma backgroundLoop_steps (runs : list Run) (c : Cache) :
  fst (backgroundLoop (map Tick runs) c) = steps c (map OpTick runs) /\
  List.length (snd (backgroundLoop (map Tick runs) c)) = (2 * List.length runs)%nat.
Proof.
  revert c. induction runs as [|run runs IH]; intros c; cbn [map backgroundLoop]; auto.
  unfold steps. cbn [fold_left step].
  specialize (IH (fst (backgroundTick c run))).
  assert (Hlen : List.length (snd (backgroundTick c run)) = 2%nat).
  { unfold backgroundTick. now destruct (build (limitPerEntity c) run). }
  destruct (backgroundTick c run) as [c' logs]. cbn [fst snd] in *.
  destruct (backgroundLoop (map Tick runs) c') as [c'' logs']. cbn [fst snd] in *.
  destruct IH as [IH1 IH2]. split; [exact IH1|].
  rewrite length_app, Hlen, IH2. cbn [List.length]. lia.
Qed.

End ServedFacts.

(** X8.  Start-up is all or nothing.  [New] returns a cache exactly when
    each of the twelve fetches succeeded: the cache then keeps the
    configured budget and interval, already holds a snapshot with exactly
    what the fetches returned, and one "initial snapshot built" record is
    logged.  Otherwise no cache is returned and nothing is logged, and the
    error is that of a failed fetch, wrapped twice, so that its text reads
    ["initial snapshot build: list <kind>: ..."]. *)
Theorem New_builds_or_reports :
  forall (run : Cache.Run) (lim interval : Z),
    match Cache.New run lim interval with
    | (logs, inr c) =>
        (forall k, Cache.taskError (Cache.client run) lim k = None) /\
        Cache.limitPerEntity c = lim /\ Cache.refreshInterval c = interval /\
        exists snap,
          Cache.Get c = Some snap /\
          Cache.complete (Cache.client run) lim snap /\
          logs = [mkLog LevelInfo "initial snapshot built" (Cache.counts snap)]
    | (logs, inl err) =>
        logs = [] /\
        exists k what cause,
          Cache.taskError (Cache.client run) lim k = Some (Wrap ("list " ++ what) cause) /\
          err = Wrap "initial snapshot build: " (Wrap ("list " ++ what) cause) /\
          Error err = "initial snapshot build: list " ++ what ++ Error cause
    end.
Proof.
  intros run lim interval. unfold Cache.New.
  destruct (Cache.build lim run) as [err|snap] eqn:E.
  - split; [reflexivity|].
    unfold Cache.build in E.
    pose proof (Wait_spec (Cache.finish run) (Cache.taskError (Cache.client run) lim)) as W.
    destruct (Cache.Wait (Cache.finish run) (Cache.taskError (Cache.client run) lim))
      as [e|]; [|discriminate].
    injection E as <-. destruct W as (k & Hk & _).
    destruct (taskError_prefix _ _ _ _ Hk) as (what & cause & ->).
    exists k, what, cause. repeat split; auto.
  - destruct (build_inr lim run snap E) as (Hc & _ & _).
    split; [|split; [reflexivity|split; [reflexivity|]];
             exists snap; split; [reflexivity|split; [exact Hc|reflexivity]]].
    intros k. destruct (Cache.taskError (Cache.client run) lim k) eqn:Hk; [|reflexivity].
    destruct (build_inl lim run k) as (err & _ & Hb & _); congruence.
Qed.

(** X9.  The document served is independent of the credentials the remote
    holds.  Take any remote and the same remote with the [Password] and
    [TwoFACode] of every account blanked: start-up succeeds against both or
    fails against both with the same error; it logs the same records; and
    after any sequence of reads, manual refreshes and background ticks
    (against any remotes, blanked likewise) [SnapshotResource] returns the
    same non-nil contents in both worlds, byte for byte. *)
Theorem SnapshotResource_independent_of_credentials :
  forall (run : Cache.Run) (lim interval : Z) (ops : list Cache.Op) (uri : string),
    fst (Cache.New run lim interval) = fst (Cache.New (Resources.blankRun run) lim interval) /\
    match snd (Cache.New run lim interval),
          snd (Cache.New (Resources.blankRun run) lim interval) with
    | inr c, inr c' =>
        Resources.SnapshotResource (Cache.steps c ops) uri
        = Resources.SnapshotResource (Cache.steps c' (map Resources.blankOp ops)) uri /\
        Resources.SnapshotResource (Cache.steps c ops) uri <> None
    | inl err, inl err' => err = err'
    | _, _ => False
    end.
Proof.
  intros run lim interval ops uri. unfold Cache.New.
  pose proof (build_blank lim run) as B.
  destruct (Cache.build lim run) as [e|s] eqn:E;
    destruct (Cache.build lim (Resources.blankRun run)) as [e'|s'];
    try contradiction; cbn [fst snd].
  - split; [reflexivity|]. now subst.
  - destruct B as [Bm Bc]. split; [now rewrite Bc|].
    assert (S0 : Resources.sameDocument (Cache.Store (Cache.mkCache lim interval None) s)
                              (Cache.Store (Cache.mkCache lim interval None) s'))
      by (split; [reflexivity|exact Bm]).
    pose proof (steps_blank ops _ _ S0) as [_ S].
    assert (R : Cache.ready (Cache.steps (Cache.Store (Cache.mkCache lim interval None) s) ops)).
    { apply steps_ready. exists s. split; [reflexivity|]. now exists lim, run. }
    destruct R as (snap & Hs & _). unfold Resources.SnapshotResource, Cache.Get.
    rewrite Hs in *.
    destruct (Cache.current
                (Cache.steps (Cache.Store (Cache.mkCache lim interval None) s')
                   (map Resources.blankOp ops))) as [snap'|]; [|contradiction].
    rewrite S. split; [reflexivity|discriminate].
Qed.

(** X10.  The background goroutine acts on the ticks that arrive before
    [ctx.Done()] and on nothing after it: the cache it leaves is the one
    reached by those ticks in order, whatever signals follow the [Done],
    and each tick writes exactly two log records ("started", then
    "complete" or "failed"). *)
Theorem backgroundLoop_stops_at_done :
  forall (signals : list Cache.Signal) (c : Cache.Cache),
    fst (Cache.backgroundLoop signals c)
    = Cache.steps c (map Cache.OpTick (Resources.ticksBeforeDone signals)) /\
    List.length (snd (Cache.backgroundLoop signals c))
    = (2 * List.length (Resources.ticksBeforeDone signals))%nat /\
    (forall runs rest,
        Cache.backgroundLoop (map Cache.Tick runs ++ Cache.Done :: rest)%list c
        = Cache.backgroundLoop (map Cache.Tick runs) c).
Proof.
  intros signals c. rewrite backgroundLoop_ticks.
  destruct (backgroundLoop_steps (Resources.ticksBeforeDone signals) c) as [H1 H2].
  split; [exact H1|]. split; [exact H2|].
  intros runs rest. rewrite backgroundLoop_ticks.
  replace (Resources.ticksBeforeDone (map Cache.Tick runs ++ Cache.Done :: rest)%list)
    with runs; [reflexivity|].
  induction runs as [|run runs IH]; cbn [map List.app Resources.ticksBeforeDone];
    [reflexivity|now rewrite <- IH].
Qed.

(** ** The shape and size of a capped field *)

Section TruncateShape.

Lemma fieldsRunes_words (rs : list rune) (cur : option (list rune)) :
  (forall w, cur = Some w -> word w) ->
  Forall word (fieldsRunes IsSpace cur rs).
Proof.
  revert cur. induction rs as [|r rs IH]; intros cur Hc; cbn [fieldsRunes].
  - destruct cur; constructor; auto.
  - destruct (IsSpace r) eqn:E.
    + destruct cur; [constructor; auto|]; apply IH; discriminate.
    + apply IH. intros w [= <-]. destruct cur as [w0|].
      * destruct (Hc w0 eq_refl) as [Hne Hw]. split.
        -- now destruct w0.
        -- apply Forall_app. split; auto.
      * split; [discriminate|]. constructor; auto.
Qed.

Lemma joinRunes_single_line (ws : list (list rune)) :
  Forall word ws ->
  Forall (fun r => IsSpace r = true -> r = 32) (joinRunes ws).
Proof.
  intros H. apply (joinRunes_Forall (fun r => IsSpace r = true -> r = 32)); [auto|].
  apply Forall_forall. intros w Hw. rewrite Forall_forall in H.
  destruct (H w Hw) as [_ Hs]. apply Forall_forall. intros r Hr.
  rewrite Forall_forall in Hs. rewrite (Hs r Hr). discriminate.
Qed.

Lemma string_length_append (a b : string) :
  String.length (a ++ b) = (String.length a + String.length b)%nat.
Proof. induction a as [|c a IH]; cbn; auto. Qed.

Lemma string_of_runes_length (rs : list rune) :
  (String.length (string_of_runes rs) <= 4 * List.length rs)%nat.
Proof.
  induction rs as [|r rs IH]; cbn [string_of_runes List.length]; [cbn; lia|].
  rewrite string_length_append. pose proof (EncodeRune_length r). lia.
Qed.

End TruncateShape.

(** X11.  A capped field never breaks its bullet line.  The text
    [truncate] returns holds no white space but the plain space U+0020: no
    newline, carriage return, tab or Unicode space survives.  It is made of
    words (non-empty runs without white space) joined by single spaces, so
    it has no leading, trailing or doubled space, cut after [max] runes
    with the marker appended when it is longer. *)
Theorem truncate_single_line :
  forall (s : string) (max : nat),
    Forall (fun r => IsSpace r = true -> r = 32) (runes (Cache.truncate s max)) /\
    exists ws : list (list rune),
      Forall word ws /\
      runes (Cache.truncate s max)
      = (if (List.length (joinRunes ws) <=? max)%nat then joinRunes ws
         else (firstn max (joinRunes ws) ++ [Cache.marker])%list).
Proof.
  intros s max.
  assert (R : runes (Cache.truncate s max) = Cache.truncateRunes s max).
  { rewrite truncate_runes. apply runes_string_of_runes, truncateRunes_scalar. }
  assert (W : exists ws, Forall word ws /\ Cache.cleanRunes s = joinRunes ws).
  { unfold Cache.cleanRunes. eexists. split; [|reflexivity].
    apply fieldsRunes_words. discriminate. }
  destruct W as (ws & Hws & Hc). rewrite R. split.
  - apply truncateRunes_Forall; [discriminate|].
    rewrite Hc. now apply joinRunes_single_line.
  - exists ws. split; [exact Hws|]. unfold Cache.truncateRunes. now rewrite Hc.
Qed.

(** X12.  A field capped at [max] runes takes at most [4 * max + 3] bytes
    of the document: at most four bytes for each rune kept and three for
    the marker. *)
Theorem truncate_byte_bound :
  forall (s : string) (max : nat),
    (String.length (Cache.truncate s max) <= 4 * max + 3)%nat.
Proof.
  intros s max. unfold Cache.truncate.
  destruct (Nat.leb_spec (List.length (runes (Cache.cleanText s))) max) as [H|H].
  - rewrite cleanText_runes in *.
    rewrite runes_string_of_runes in H by apply cleanRunes_scalar.
    pose proof (string_of_runes_length (Cache.cleanRunes s)). lia.
  - rewrite string_length_append.
    pose proof (string_of_runes_length (firstn max (runes (Cache.cleanText s)))) as L.
    rewrite length_firstn in L. cbn [String.length]. lia.
Qed.

(** ** [search_docs]: section headings *)

Section HeadingFacts.
Import Cache Search.

Lemma endsLine_nl : endsLine nl.
Proof. now exists EmptyString. Qed.

Lemma endsLine_app (a b : string) : endsLine b -> endsLine (a ++ b).
Proof. intros [p ->]. exists (a ++ p). now rewrite append_assoc. Qed.

Lemma endsLine_concat {A : Type} (render : A -> string) (xs : list A) (pre : string) :
  endsLine pre -> (forall x, endsLine (render x)) ->
  endsLine (pre ++ String.concat EmptyString (map render xs)).
Proof.
  intros Hp Hr. revert pre Hp. induction xs as [|x xs IH]; intros pre Hp.
  - cbn. now rewrite append_nil_r.
  - assert (E : String.concat EmptyString (map render (x :: xs))
                = render x ++ String.concat EmptyString (map render xs)).
    { cbn [map String.concat]. destruct (map render xs); [now rewrite append_nil_r|reflexivity]. }
    rewrite E, <- append_assoc. apply IH. now apply endsLine_app.
Qed.

Ltac ends_line :=
  repeat lazymatch goal with
         | |- endsLine (_ ++ _) => apply endsLine_app
         end;
  apply endsLine_nl.

Lemma endsLine_section {A : Type} (title : string) (render : A -> string) (xs : list A) :
  (forall x, endsLine (render x)) -> endsLine (section title render xs).
Proof.
  intros Hr. unfold section.
  replace ("## " ++ title ++ " (" ++ count xs ++ ")" ++ nl ++ nl
           ++ String.concat EmptyString (map render xs))
    with (("## " ++ title ++ " (" ++ count xs ++ ")" ++ nl ++ nl)
          ++ String.concat EmptyString (map render xs))
    by (now rewrite !append_assoc).
  apply endsLine_concat; [|exact Hr].
  ends_line.
Qed.

Lemma endsLine_renderCompany x : endsLine (renderCompany x).
Proof. unfold renderCompany. ends_line. Qed.
Lemma endsLine_renderSite x : endsLine (renderSite x).
Proof. unfold renderSite. ends_line. Qed.
Lemma endsLine_renderDevice x : endsLine (renderDevice x).
Proof. unfold renderDevice. cbv zeta. ends_line. Qed.
Lemma endsLine_renderKB x : endsLine (renderKB x).
Proof. unfold renderKB. ends_line. Qed.
Lemma endsLine_renderContact x : endsLine (renderContact x).
Proof. unfold renderContact. cbv zeta. ends_line. Qed.
Lemma endsLine_renderAgreement x : endsLine (renderAgreement x).
Proof. unfold renderAgreement. ends_line. Qed.
Lemma endsLine_renderIPNetwork x : endsLine (renderIPNetwork x).
Proof. unfold renderIPNetwork. ends_line. Qed.
Lemma endsLine_renderDocument x : endsLine (renderDocument x).
Proof. unfold renderDocument. ends_line. Qed.
Lemma endsLine_renderAccount x : endsLine (renderAccount x).
Proof. unfold renderAccount. cbv zeta. ends_line. Qed.
Lemma endsLine_renderFacility x : endsLine (renderFacility x).
Proof. unfold renderFacility. ends_line. Qed.
Lemma endsLine_renderCabinet x : endsLine (renderCabinet x).
Proof. unfold renderCabinet. ends_line. Qed.
Lemma endsLine_renderConfiguration x : endsLine (renderConfiguration x).
Proof. unfold renderConfiguration. ends_line. Qed.

Lemma startsLine_skip (h x t : string) : startsLine h t -> startsLine h (x ++ t).
Proof.
  intros H a. destruct (H (a ++ x)) as (pre & post & E).
  exists pre, post. now rewrite <- append_assoc.
Qed.

Lemma startsLine_after (h t : string) : startsLineAfter h t -> startsLine h (nl ++ t).
Proof.
  intros H a. destruct (H (a ++ nl)) as (pre & post & E); [apply endsLine_app, endsLine_nl|].
  exists pre, post. now rewrite <- append_assoc.
Qed.

Lemma startsLineAfter_skip (h x t : string) :
  endsLine x -> startsLineAfter h t -> startsLineAfter h (x ++ t).
Proof.
  intros Hx H a Ha. destruct (H (a ++ x)) as (pre & post & E); [now apply endsLine_app|].
  exists pre, post. now rewrite <- append_assoc.
Qed.

Lemma startsLineAfter_skipIf {A : Type} (h title : string) (render : A -> string)
      (xs : list A) (t : string) :
  (forall x, endsLine (render x)) ->
  startsLineAfter h t -> startsLineAfter h (sectionIf title render xs ++ t).
Proof.
  intros Hr H. unfold sectionIf, when.
  destruct (0 <? Z.of_nat (List.length xs)); [|exact H].
  apply startsLineAfter_skip; [now apply endsLine_section|exact H].
Qed.

Lemma startsLineAfter_here (h y : string) : startsLineAfter h (h ++ y).
Proof. intros a [p ->]. exists p, y. now rewrite append_assoc. Qed.

Lemma startsLineAfter_here_then (h y t : string) : startsLineAfter h ((h ++ y) ++ t).
Proof. rewrite append_assoc. apply startsLineAfter_here. Qed.

Lemma sectionIf_written {A : Type} (title : string) (render : A -> string) (xs : list A) :
  (0 <? List.length xs)%nat = true ->
  sectionIf title render xs = section title render xs.
Proof.
  intros H. unfold sectionIf. apply Nat.ltb_lt in H.
  assert (E : (0 <? Z.of_nat (List.length xs)) = true) by (apply Z.ltb_lt; lia).
  now rewrite E.
Qed.

Lemma substring_middle (pre sub post : string) :
  substring (String.length pre) (String.length sub) (pre ++ sub ++ post) = sub.
Proof.
  induction pre as [|c pre IH]; cbn [String.length append substring]; [|exact IH].
  induction sub as [|c sub IH]; cbn [String.length append substring].
  - now destruct post.
  - now rewrite IH.
Qed.

Lemma Index_found (pre sub post : string) :
  sub <> EmptyString -> Index (pre ++ sub ++ post) sub <> -1.
Proof.
  intros Hne. unfold Index.
  destruct (String.index 0 sub (pre ++ sub ++ post)) eqn:E; [lia|].
  exfalso. apply (index_correct3 0 (String.length pre) _ _ E Hne); [lia|].
  apply substring_middle.
Qed.

End HeadingFacts.

(** Moves to the body of the Markdown: past the header, up to the newline
    that precedes the first section. *)
Ltac to_sections :=
  repeat lazymatch goal with
         | |- Search.startsLine _ (_ ++ Cache.section _ _ _ ++ _) => fail
         | |- Search.startsLine _ (_ ++ _) => apply startsLine_skip
         end;
  apply startsLine_after.

Ltac skip_section :=
  first [ apply startsLineAfter_skip;
          [apply endsLine_section;
           first [ exact endsLine_renderCompany | exact endsLine_renderSite
                 | exact endsLine_renderDevice | exact endsLine_renderKB
                 | exact endsLine_renderContact ] |]
        | apply startsLineAfter_skipIf;
          [first [ exact endsLine_renderAgreement | exact endsLine_renderIPNetwork
                 | exact endsLine_renderDocument | exact endsLine_renderAccount
                 | exact endsLine_renderFacility | exact endsLine_renderCabinet
                 | exact endsLine_renderConfiguration ] |] ].

Ltac at_section W :=
  lazymatch goal with
  | |- Search.startsLineAfter ("## " ++ ?t) (Cache.section ?t ?r ?xs ++ ?rest) =>
      exact (startsLineAfter_here_then ("## " ++ t)
               (" (" ++ Cache.count xs ++ ")" ++ Cache.nl ++ Cache.nl
                ++ String.concat EmptyString (map r xs)) rest)
  | |- Search.startsLineAfter ("## " ++ ?t) (Cache.sectionIf ?t ?r ?xs ++ ?rest) =>
      rewrite (sectionIf_written t r xs W);
      exact (startsLineAfter_here_then ("## " ++ t)
               (" (" ++ Cache.count xs ++ ")" ++ Cache.nl ++ Cache.nl
                ++ String.concat EmptyString (map r xs)) rest)
  | |- Search.startsLineAfter ("## " ++ ?t) (Cache.sectionIf ?t ?r ?xs) =>
      rewrite (sectionIf_written t r xs W);
      exact (startsLineAfter_here ("## " ++ t)
               (" (" ++ Cache.count xs ++ ")" ++ Cache.nl ++ Cache.nl
                ++ String.concat EmptyString (map r xs)))
  | _ => skip_section; at_section W
  end.

Lemma heading_in_buildMarkdown (s : Cache.Snapshot) (title : string) :
  Search.written s title = true ->
  Search.startsLine ("## " ++ title) (Cache.buildMarkdown s).
Proof.
  intros W. unfold Search.written in W.
  repeat match type of W with
         | context [String.eqb title ?lit] =>
             destruct (String.eqb_spec title lit) as [E|_];
             [subst title; unfold Cache.buildMarkdown; to_sections; at_section W|]
         end.
  discriminate.
Qed.



(** ** [search_docs]: matches, windows and duplicates *)

Section SearchFacts.
Import Cache Search.

Lemma existsb_eqb_In (m : string) (seen : list string) :
  existsb (String.eqb m) seen = true <-> In m seen.
Proof.
  rewrite existsb_exists. split.
  - intros (x & Hx & E). apply String.eqb_eq in E. now subst.
  - intros H. exists m. split; [exact H|apply String.eqb_refl].
Qed.

Lemma dedupe_spec (matches seen : list string) :
  NoDup (dedupe seen matches) /\
  forall b, In b (dedupe seen matches) <-> (In b matches /\ ~ In b seen).
Proof.
  revert seen. induction matches as [|m ms IH]; intros seen; cbn [dedupe].
  - split; [constructor|]. intros b. cbn. tauto.
  - destruct (existsb (String.eqb m) seen) eqn:E.
    + apply existsb_eqb_In in E. destruct (IH seen) as [Hnd Hin].
      split; [exact Hnd|]. intros b. rewrite Hin. cbn [In].
      split; [tauto|]. intros [[<-|H] Hn]; [contradiction|tauto].
    + assert (Hm : ~ In m seen).
      { intros H. apply existsb_eqb_In in H. congruence. }
      destruct (IH (m :: seen)) as [Hnd Hin]. split.
      * constructor; [|exact Hnd]. rewrite Hin. cbn [In]. tauto.
      * intros b. cbn [In]. rewrite Hin. cbn [In].
        destruct (string_dec m b) as [<-|Hne]; [tauto|]. tauto.
Qed.

Lemma collect_spec (ToLower : string -> string) (queryLower : string) (lines rest : list string) (i : Z) (b : string) :
  In b (collect ToLower queryLower lines i rest) <->
  exists (j : nat) (line : string),
    nth_error rest j = Some line /\
    Contains (ToLower line) queryLower = true /\
    b = block lines (i + Z.of_nat j).
Proof.
  revert i. induction rest as [|line rest IH]; intros i; cbn [collect].
  - split; [intros []|]. intros ([|j] & l & H & _); discriminate.
  - assert (Hshift : (exists j l, nth_error rest j = Some l /\
                                  Contains (ToLower l) queryLower = true /\
                                  b = block lines (i + 1 + Z.of_nat j))
                     <-> (exists j l, nth_error (line :: rest) (S j) = Some l /\
                                      Contains (ToLower l) queryLower = true /\
                                      b = block lines (i + Z.of_nat (S j)))).
    { split; intros (j & l & H1 & H2 & H3); exists j, l; repeat split; auto;
        rewrite H3; f_equal; lia. }
    destruct (Contains (ToLower line) queryLower) eqn:E.
    + cbn [In]. rewrite IH, Hshift. split.
      * intros [<-|(j & l & H)].
        -- exists O, line. repeat split; auto. now rewrite Z.add_0_r.
        -- exists (S j), l. exact H.
      * intros ([|j] & l & H1 & H2 & H3).
        -- left. rewrite H3. now rewrite Z.add_0_r.
        -- right. exists j, l. auto.
    + rewrite IH, Hshift. split.
      * intros (j & l & H). exists (S j), l. exact H.
      * intros ([|j] & l & H1 & H2 & H3).
        -- cbn in H1. injection H1 as <-. congruence.
        -- exists j, l. auto.
Qed.

Lemma firstn_min_length {A : Type} (k : nat) (l : list A) :
  firstn (Nat.min k (List.length l)) l = firstn k l.
Proof.
  revert l. induction k as [|k IH]; intros l; [reflexivity|].
  destruct l as [|x l]; [reflexivity|]. cbn [List.length Nat.min firstn]. now rewrite IH.
Qed.


End SearchFacts.

(** X14.  [SearchDocs] reports every match once.  An empty query is
    refused before the cache is read.  Otherwise the text searched is split
    into lines, and the blocks returned are exactly the windows around the
    lines that contain the query (both lower-cased): each such window is
    among them, nothing else is, no block is listed twice, and the number
    reported is the number of blocks listed.  "No results" is answered
    exactly when no line contains the query. *)
Theorem SearchDocs_reports_each_match_once :
  forall (ToLower : string -> string) (c : Cache.Cache) (input : Search.SearchDocsInput),
    match Search.SearchDocs ToLower c input with
    | Some (Search.SearchError _) => Search.Query input = EmptyString
    | None => Search.Query input <> EmptyString /\ Cache.Get c = None
    | Some found =>
        Search.Query input <> EmptyString /\
        exists snap,
          Cache.Get c = Some snap /\
          let lines := Search.Split
                         (Search.narrow ToLower (Cache.Markdown snap)
                            (Search.EntityType input))
                         (ascii_of_nat 10) in
          let hit (b : string) :=
            exists (i : nat) (line : string),
              nth_error lines i = Some line /\
              Search.Contains (ToLower line) (ToLower (Search.Query input)) = true /\
              b = Search.block lines (Z.of_nat i) in
          match found with
          | Search.NoResults q cov =>
              q = Search.Query input /\ cov = Search.coverage snap /\
              forall b, ~ hit b
          | Search.Found n q blocks =>
              q = Search.Query input /\
              n = Z.of_nat (List.length blocks) /\ 0 < n /\
              NoDup blocks /\
              forall b, In b blocks <-> hit b
          | Search.SearchError _ => False
          end
    end.
Proof.
  intros ToLower c input. unfold Search.SearchDocs, GoStr.nonempty.
  destruct (String.eqb_spec (Search.Query input) EmptyString) as [E|E]; cbn [negb];
    [exact E|].
  destruct (Cache.Get c) as [snap|]; [|now split].
  set (lines := Search.Split _ _).
  set (matches := Search.collect ToLower _ lines 0 lines).
  assert (Hc : forall b, In b matches <->
                         exists (i : nat) (line : string),
                           nth_error lines i = Some line /\
                           Search.Contains (ToLower line) (ToLower (Search.Query input)) = true /\
                           b = Search.block lines (Z.of_nat i)).
  { intros b. unfold matches. rewrite collect_spec. reflexivity. }
  destruct (Nat.eqb_spec (List.length matches) 0) as [H0|H0].
  - split; [exact E|]. exists snap. split; [reflexivity|]. cbv zeta.
    repeat split. intros b Hb. apply Hc in Hb.
    destruct matches; [destruct Hb|discriminate].
  - split; [exact E|]. exists snap. split; [reflexivity|]. cbv zeta.
    destruct (dedupe_spec matches []) as [Hnd Hin].
    repeat split; auto.
    + destruct matches as [|m ms]; [contradiction|]. cbn [Search.dedupe existsb List.length].
      lia.
    + intros Hb. apply Hc. now apply Hin.
    + intros Hb. apply Hin. split; [now apply Hc|intros []].
Qed.

(** X15.  The block reported for a match on line [i] is a window of
    consecutive lines of the searched text: the line itself, the one line
    above it when there is one, and the lines below it up to three, joined
    by newlines; at most five lines, cut at the ends of the text. *)
Theorem SearchDocs_block_is_window :
  forall (lines : list string) (i : nat) (line : string),
    nth_error lines i = Some line ->
    exists pre above below post : list string,
      lines = (pre ++ above ++ line :: below ++ post)%list /\
      Search.block lines (Z.of_nat i) = GoStr.Join (above ++ line :: below)%list Cache.nl /\
      List.length above = Nat.min 1 i /\
      List.length below = Nat.min 3 (List.length lines - i - 1) /\
      List.length (pre ++ above)%list = i.
Proof.
  intros lines i line H.
  assert (Hi : (i < List.length lines)%nat) by (apply nth_error_Some; congruence).
  apply nth_error_split in H. destruct H as (l1 & l2 & -> & Hl1).
  rewrite length_app in Hi. cbn [List.length] in Hi.
  exists (firstn (i - 1) l1), (skipn (i - 1) l1), (firstn 3 l2), (skipn 3 l2).
  assert (Hlen : List.length (skipn (i - 1) l1) = Nat.min 1 i)
    by (rewrite length_skipn; lia).
  split; [|split; [|split; [|split]]].
  - rewrite app_assoc, firstn_skipn. f_equal. f_equal. now rewrite firstn_skipn.
  - unfold Search.block, Search.sliceLines, Search.max, Search.min. f_equal.
    rewrite length_app. cbn [List.length].
    set (n := (List.length l1 + S (List.length l2))%nat).
    assert (Hstart : Z.to_nat (if 0 >? Z.of_nat i - 1 then 0 else Z.of_nat i - 1)
                     = (i - 1)%nat).
    { destruct (Z.gtb_spec 0 (Z.of_nat i - 1)); lia. }
    rewrite Hstart.
    assert (Hcnt : Z.to_nat ((if Z.of_nat n <? Z.of_nat i + 4 then Z.of_nat n
                              else Z.of_nat i + 4)
                             - (if 0 >? Z.of_nat i - 1 then 0 else Z.of_nat i - 1))
                   = (Nat.min 1 i + 1 + Nat.min 3 (List.length l2))%nat).
    { subst n. destruct (Z.ltb_spec (Z.of_nat (List.length l1 + S (List.length l2)))
                                    (Z.of_nat i + 4));
        destruct (Z.gtb_spec 0 (Z.of_nat i - 1)); lia. }
    rewrite Hcnt.
    rewrite skipn_app. replace (i - 1 - List.length l1)%nat with O by lia.
    cbn [skipn]. rewrite firstn_app, Hlen.
    replace (Nat.min 1 i + 1 + Nat.min 3 (List.length l2) - Nat.min 1 i)%nat
      with (S (Nat.min 3 (List.length l2))) by lia.
    rewrite firstn_cons, firstn_all2 by lia. f_equal. f_equal.
    apply firstn_min_length.
  - exact Hlen.
  - rewrite length_firstn, length_app. cbn [List.length]. lia.
  - rewrite firstn_skipn. exact Hl1.
Qed.

Lemma SearchDocs_block_is_window_witness :
  exists pre above below post : list string,
    ["# Title"; ""; "## Companies (1)"; ""; "### Acme (ID: 1)"; "- **Status**: Active"; ""]
    = (pre ++ above ++ "## Companies (1)" :: below ++ post)%list /\
    Search.block
      ["# Title"; ""; "## Companies (1)"; ""; "### Acme (ID: 1)"; "- **Status**: Active"; ""]
      (Z.of_nat 2)
    = GoStr.Join (above ++ "## Companies (1)" :: below)%list Cache.nl /\
    List.length above = Nat.min 1 2 /\
    List.length below
    = Nat.min 3 (List.length ["# Title"; ""; "## Companies (1)"; "";
                              "### Acme (ID: 1)"; "- **Status**: Active"; ""] - 2 - 1) /\
    List.length (pre ++ above)%list = 2%nat.
Proof.
  apply (SearchDocs_block_is_window
           ["# Title"; ""; "## Companies (1)"; ""; "### Acme (ID: 1)";
            "- **Status**: Active"; ""] 2 "## Companies (1)").
  reflexivity.
Defined.

(** ** [get_entity_details]: what is asked of the remote *)

Section DetailsFacts.
Import Details.

Lemma append_cancel (p a b : string) : p ++ a = p ++ b -> a = b.
Proof. induction p as [|c p IH]; cbn [append]; [auto|]. intros [= H]. auto. Qed.

Context {Item St : Type}.
Variable serve : St -> Request -> St * (error + Page Item).

(** Every request of [listAll] is a page request for its path. *)
Lemma listAll_trace_paths (st : St) (path : string) (maxItems : Z) :
  exists o, listAll serve st path None maxItems = Some o /\
            Forall (fun r => req_method r = "GET" /\ req_path r = path) (o_trace o).
Proof.
  unfold listAll.
  destruct (listAll_loop_total serve path (orZero None) maxItems
              (listAll_fuel maxItems) (mkLoop st [] 0 [])) as (o & Ho & _).
  { unfold listAll_fuel. cbn [l_offset]. lia. }
  destruct (listAll_loop_history serve path (orZero None) maxItems st _ _ [] o
              (history_start serve path (orZero None) st) Ho)
    as (ps & last & _ & Htr & _).
  exists o. split; [exact Ho|]. rewrite Htr. apply Forall_forall.
  intros r Hr. apply in_map_iff in Hr. destruct Hr as (off & <- & _). now split.
Qed.

Lemma device_paths_harmless (id path : string) :
  In path ["/api/2.0/devices/" ++ id ++ "/"; "/api/2.0/devices/" ++ id ++ "/ips/";
           "/api/2.0/devices/" ++ id ++ "/notes/";
           "/api/2.0/devices/" ++ id ++ "/managementUrls/"] ->
  path <> credentialsPath id.
Proof.
  unfold credentialsPath.
  intros [<-|[<-|[<-|[<-|[]]]]] E;
    apply (append_cancel "/api/2.0/devices/") in E;
    apply (append_cancel id) in E; discriminate.
Qed.

Lemma getDeviceDetails_sent (st : St) (id : string) :
  exists inv, getDeviceDetails serve st id = Some inv /\
              Forall (harmless id) (d_sent inv).
Proof.
  unfold getDeviceDetails.
  assert (H0 : harmless id (getRequest ("/api/2.0/devices/" ++ id ++ "/"))).
  { split; [reflexivity|]. apply device_paths_harmless. cbn [In]. auto. }
  assert (Hsub : forall path (o : Outcome Item St),
             In path ["/api/2.0/devices/" ++ id ++ "/"; "/api/2.0/devices/" ++ id ++ "/ips/";
                      "/api/2.0/devices/" ++ id ++ "/notes/";
                      "/api/2.0/devices/" ++ id ++ "/managementUrls/"] ->
             Forall (fun r => req_method r = "GET" /\ req_path r = path) (o_trace o) ->
             Forall (harmless id) (o_trace o)).
  { intros path o Hp. apply Forall_impl. intros r [Hm Hr]. split; [exact Hm|].
    rewrite Hr. now apply device_paths_harmless. }
  destruct (getOne serve st ("/api/2.0/devices/" ++ id ++ "/")) as [st1 [err|device]].
  { eexists. split; [reflexivity|]. cbn [d_sent]. auto. }
  destruct (listAll_trace_paths st1 ("/api/2.0/devices/" ++ id ++ "/ips/") 500)
    as (o1 & -> & T1).
  apply Hsub in T1; [|cbn [In]; auto].
  destruct (o_result o1) as [err|ips].
  { eexists. split; [reflexivity|]. cbn [d_sent]. auto. }
  destruct (listAll_trace_paths (o_st o1) ("/api/2.0/devices/" ++ id ++ "/notes/") 500)
    as (o2 & -> & T2).
  apply Hsub in T2; [|cbn [In]; auto].
  destruct (o_result o2) as [err|notes].
  { eexists. split; [reflexivity|]. cbn [d_sent]. apply Forall_app. auto. }
  destruct (listAll_trace_paths (o_st o2)
              ("/api/2.0/devices/" ++ id ++ "/managementUrls/") 100)
    as (o3 & -> & T3).
  apply Hsub in T3; [|cbn [In]; auto 6].
  destruct (o_result o3) as [err|urls];
    (eexists; split; [reflexivity|]; cbn [d_sent];
     apply Forall_app; split; [apply Forall_app; auto|auto]).
Qed.

End DetailsFacts.


(** ** [create_device]: the device and its attachments *)

Section CreateDeviceFacts.
Import Writes.
Context {St : Type}.
Variable remote : Remote St.
Variables (input : CreateDeviceInput) (devIDStr : string).

Lemma addIP_spec (st : St) (calls : list Call) (fx : list string) :
  exists st' fx',
    addIP St remote input devIDStr (st, calls, fx)
    = (st', (calls ++ (if GoStr.nonempty (IPAddress input)
                       then [CallAddDeviceIP devIDStr (ipOf input)] else []))%list,
       (fx ++ fx')%list) /\
    List.length fx' = List.length (if GoStr.nonempty (IPAddress input)
                                   then [CallAddDeviceIP devIDStr (ipOf input)] else []).
Proof.
  unfold addIP. destruct (GoStr.nonempty (IPAddress input)).
  - destruct (AddDeviceIP remote st devIDStr (ipOf input)) as [st' [err|v]];
      eexists _, [_]; split; reflexivity.
  - exists st, []. now rewrite !app_nil_r.
Qed.

Lemma addManagementURL_spec (st : St) (calls : list Call) (fx : list string) :
  exists st' fx',
    addManagementURL St remote input devIDStr (st, calls, fx)
    = (st', (calls ++ (if GoStr.nonempty (ManagementURL input)
                       then [CallAddDeviceManagementURL devIDStr (murlOf input)]
                       else []))%list,
       (fx ++ fx')%list) /\
    List.length fx' = List.length (if GoStr.nonempty (ManagementURL input)
                                   then [CallAddDeviceManagementURL devIDStr (murlOf input)]
                                   else []).
Proof.
  unfold addManagementURL. destruct (GoStr.nonempty (ManagementURL input)).
  - destruct (AddDeviceManagementURL remote st devIDStr (murlOf input)) as [st' [err|v]];
      eexists _, [_]; split; reflexivity.
  - exists st, []. now rewrite !app_nil_r.
Qed.

Lemma addNote_spec (st : St) (calls : list Call) (fx : list string) :
  exists st' fx',
    addNote St remote input devIDStr (st, calls, fx)
    = (st', (calls ++ (if GoStr.nonempty (InitialNote input)
                       then [CallAddDeviceNote devIDStr (noteOf input)] else []))%list,
       (fx ++ fx')%list) /\
    List.length fx' = List.length (if GoStr.nonempty (InitialNote input)
                                   then [CallAddDeviceNote devIDStr (noteOf input)] else []).
Proof.
  unfold addNote. destruct (GoStr.nonempty (InitialNote input)).
  - destruct (AddDeviceNote remote st devIDStr (noteOf input)) as [st' [err|v]];
      eexists _, [_]; split; reflexivity.
  - exists st, []. now rewrite !app_nil_r.
Qed.

End CreateDeviceFacts.

(** X17.  Once the remote has created the device, [create_device] reports
    success whatever happens to the attachments.  Each attachment the input
    asks for (address, management URL, note) is attempted exactly once, in
    this order, on the ID the remote gave the new device; a refused
    attachment does not stop the later ones and does not turn the result
    into an error: it becomes one line of the returned text, as does each
    successful one. *)
Theorem CreateDevice_keeps_device_when_attachments_fail :
  forall (St : Type) (remote : Writes.Remote St) (st st1 : St)
         (input : Writes.CreateDeviceInput) (created : Device.t),
    Writes.CompanyID input <> 0 ->
    Writes.Name input <> EmptyString ->
    Writes.CreateDevice remote st (Writes.deviceOf input) = (st1, inr created) ->
    exists (st' : St) (sideEffects : list string),
      Writes.CreateDeviceTool remote st input
      = (st',
         Writes.CallCreateDevice (Writes.deviceOf input)
           :: Writes.attachments input (GoStr.Itoa (Device.ID created)),
         Writes.ToolText (Writes.report created sideEffects)) /\
      List.length sideEffects
      = List.length (Writes.attachments input (GoStr.Itoa (Device.ID created))).
Proof.
  intros St remote st st1 input created Hc Hn Hcreate. unfold Writes.CreateDeviceTool.
  apply Z.eqb_neq in Hc. rewrite Hc. apply String.eqb_neq in Hn. rewrite Hn.
  rewrite Hcreate.
  set (id := GoStr.Itoa (Device.ID created)).
  destruct (addIP_spec remote input id st1 [Writes.CallCreateDevice (Writes.deviceOf input)] [])
    as (st2 & fx2 & -> & L2).
  match goal with
  | |- context [Writes.addManagementURL _ _ _ _ (?s, ?c, ?f)] =>
      destruct (addManagementURL_spec remote input id s c f) as (st3 & fx3 & -> & L3)
  end.
  match goal with
  | |- context [Writes.addNote _ _ _ _ (?s, ?c, ?f)] =>
      destruct (addNote_spec remote input id s c f) as (st4 & fx4 & -> & L4)
  end.
  exists st4, ((([] ++ fx2) ++ fx3) ++ fx4)%list. split.
  - unfold Writes.attachments. now rewrite <- !app_assoc.
  - unfold Writes.attachments. rewrite !length_app, L2, L3, L4. cbn [List.length]. lia.
Qed.

(** A firewall with an address and a management URL, created on a remote
    that refuses both attachments: the device stays, and the text reports
    the two failures. *)
Lemma CreateDevice_keeps_device_when_attachments_fail_witness :
  exists (st' : unit) (sideEffects : list string),
    Writes.CreateDeviceTool Writes.refusing tt Writes.sampleInput
    = (st',
       Writes.CallCreateDevice (Writes.deviceOf Writes.sampleInput)
         :: Writes.attachments Writes.sampleInput
              (GoStr.Itoa (Device.ID
                             (Device.mk 42 "fw-01" (Some (Ref.mk 1 "")) None None None
                                None "" "" "" "" "" "" "" "" "" "" "" "" "" 0 0
                                (S754_zero false) None "" 0 "" None "" ""
                                "https://portal.example/devices/42"))),
       Writes.ToolText
         (Writes.report
            (Device.mk 42 "fw-01" (Some (Ref.mk 1 "")) None None None
               None "" "" "" "" "" "" "" "" "" "" "" "" "" 0 0
               (S754_zero false) None "" 0 "" None "" ""
               "https://portal.example/devices/42")
            sideEffects)) /\
    List.length sideEffects
    = List.length
        (Writes.attachments Writes.sampleInput
           (GoStr.Itoa (Device.ID
                          (Device.mk 42 "fw-01" (Some (Ref.mk 1 "")) None None None
                             None "" "" "" "" "" "" "" "" "" "" "" "" "" 0 0
                             (S754_zero false) None "" 0 "" None "" ""
                             "https://portal.example/devices/42")))).
Proof.
  apply (CreateDevice_keeps_device_when_attachments_fail unit Writes.refusing tt tt
           Writes.sampleInput).
  - discriminate.
  - discriminate.
  - reflexivity.
Defined.

(** X18.  An error from [create_device] means that nothing was attached.
    A tool error is returned only for a missing company or name, before
    any call and with the remote untouched; a Go error only when the
    creation itself failed, and then creating the device was the only call
    made.  A text result means the device was created, and the text says
    so. *)
Theorem CreateDevice_stops_before_any_attachment :
  forall (St : Type) (remote : Writes.Remote St) (st : St)
         (input : Writes.CreateDeviceInput),
    match Writes.CreateDeviceTool remote st input with
    | (st', calls, Writes.ToolError msg) =>
        (Writes.CompanyID input = 0 \/ Writes.Name input = EmptyString) /\
        st' = st /\ calls = []
    | (st', calls, Writes.GoError e) =>
        exists err,
          Writes.CreateDevice remote st (Writes.deviceOf input) = (st', inl err) /\
          e = Wrap "create device: " err /\
          calls = [Writes.CallCreateDevice (Writes.deviceOf input)]
    | (st', calls, Writes.ToolText text) =>
        Writes.CompanyID input <> 0 /\ Writes.Name input <> EmptyString /\
        exists st1 created,
          Writes.CreateDevice remote st (Writes.deviceOf input) = (st1, inr created) /\
          GoStr.HasPrefix text "Device created successfully." = true
    end.
Proof.
  intros St remote st input. unfold Writes.CreateDeviceTool.
  destruct (Z.eqb_spec (Writes.CompanyID input) 0) as [Hc|Hc]; [auto|].
  destruct (String.eqb_spec (Writes.Name input) EmptyString) as [Hn|Hn]; [auto|].
  destruct (Writes.CreateDevice remote st (Writes.deviceOf input)) as [st1 [err|created]] eqn:E.
  - exists err. auto.
  - destruct (Writes.addNote _ _ _ _ _) as [[st' calls] fx].
    split; [exact Hc|]. split; [exact Hn|]. exists st1, created. split; [reflexivity|].
    unfold Writes.report. destruct (0 <? List.length fx)%nat; reflexivity.
Qed.

(** ** Configuration and the key the middleware checks *)

Section ConfigFacts.
Import Config.
Variable Getenv : string -> string.
Variable ParseDuration : string -> error + Z.
Variable Atoi : string -> error + Z.
Variable Quote : string -> string.

Lemma Load_inr (cfg : Config) :
  Load Getenv ParseDuration Atoi Quote = inr cfg ->
  ITPortalBaseURL cfg = Getenv "ITPORTAL_BASE_URL" /\ ITPortalBaseURL cfg <> EmptyString /\
  ITPortalAPIKey cfg = Getenv "ITPORTAL_API_KEY" /\ ITPortalAPIKey cfg <> EmptyString /\
  MCPAPIKey cfg = Getenv "MCP_API_KEY" /\ MCPAPIKey cfg <> EmptyString /\
  ListenAddr cfg = (if String.eqb (Getenv "MCP_LISTEN_ADDR") ""
                    then ":8080" else Getenv "MCP_LISTEN_ADDR") /\
  (if String.eqb (Getenv "SNAPSHOT_REFRESH_INTERVAL") ""
   then SnapshotRefreshInterval cfg = 30 * Minute
   else ParseDuration (Getenv "SNAPSHOT_REFRESH_INTERVAL")
        = inr (SnapshotRefreshInterval cfg)) /\
  (if String.eqb (Getenv "SNAPSHOT_LIMIT_PER_ENTITY") ""
   then SnapshotLimitPerEntity cfg = 1000
   else Atoi (Getenv "SNAPSHOT_LIMIT_PER_ENTITY") = inr (SnapshotLimitPerEntity cfg)).
Proof.
  unfold Load, GoStr.nonempty.
  destruct (String.eqb_spec (Getenv "ITPORTAL_BASE_URL") "") as [|H1]; [discriminate|].
  destruct (String.eqb_spec (Getenv "ITPORTAL_API_KEY") "") as [|H2]; [discriminate|].
  destruct (String.eqb_spec (Getenv "MCP_API_KEY") "") as [|H3]; [discriminate|].
  destruct (String.eqb (Getenv "SNAPSHOT_REFRESH_INTERVAL") ""); cbn [negb];
    [|destruct (ParseDuration _) as [e|d]; [discriminate|]];
    (destruct (String.eqb (Getenv "SNAPSHOT_LIMIT_PER_ENTITY") ""); cbn [negb];
     [|destruct (Atoi _) as [e'|n]; [discriminate|]]);
    intros [= <-]; cbn; repeat split; auto.
Qed.

End ConfigFacts.

(** X19.  [Load] fails exactly when one of the three required variables
    is unset or empty, or when an optional variable is set and does not
    parse.  A configuration it returns carries the three required values
    as given, none of them empty, a non-empty listen address ([":8080"]
    when unset), and for the refresh interval and the item budget the
    default (30 minutes, 1000) when unset and the parsed value otherwise;
    parsed values are taken as they are, without a range check. *)
Theorem Load_requires_keys_and_defaults :
  forall (Getenv : string -> string) (ParseDuration Atoi : string -> error + Z)
         (Quote : string -> string),
    match Config.Load Getenv ParseDuration Atoi Quote with
    | inr cfg =>
        Config.ITPortalBaseURL cfg = Getenv "ITPORTAL_BASE_URL" /\
        Config.ITPortalBaseURL cfg <> EmptyString /\
        Config.ITPortalAPIKey cfg = Getenv "ITPORTAL_API_KEY" /\
        Config.ITPortalAPIKey cfg <> EmptyString /\
        Config.MCPAPIKey cfg = Getenv "MCP_API_KEY" /\
        Config.MCPAPIKey cfg <> EmptyString /\
        Config.ListenAddr cfg <> EmptyString /\
        (Getenv "MCP_LISTEN_ADDR" = EmptyString -> Config.ListenAddr cfg = ":8080") /\
        (Getenv "SNAPSHOT_REFRESH_INTERVAL" = EmptyString ->
         Config.SnapshotRefreshInterval cfg = 30 * Config.Minute) /\
        (Getenv "SNAPSHOT_REFRESH_INTERVAL" <> EmptyString ->
         ParseDuration (Getenv "SNAPSHOT_REFRESH_INTERVAL")
         = inr (Config.SnapshotRefreshInterval cfg)) /\
        (Getenv "SNAPSHOT_LIMIT_PER_ENTITY" = EmptyString ->
         Config.SnapshotLimitPerEntity cfg = 1000) /\
        (Getenv "SNAPSHOT_LIMIT_PER_ENTITY" <> EmptyString ->
         Atoi (Getenv "SNAPSHOT_LIMIT_PER_ENTITY")
         = inr (Config.SnapshotLimitPerEntity cfg))
    | inl err =>
        Getenv "ITPORTAL_BASE_URL" = EmptyString \/
        Getenv "ITPORTAL_API_KEY" = EmptyString \/
        Getenv "MCP_API_KEY" = EmptyString \/
        (Getenv "SNAPSHOT_REFRESH_INTERVAL" <> EmptyString /\
         exists cause, ParseDuration (Getenv "SNAPSHOT_REFRESH_INTERVAL") = inl cause) \/
        (Getenv "SNAPSHOT_LIMIT_PER_ENTITY" <> EmptyString /\
         exists cause, Atoi (Getenv "SNAPSHOT_LIMIT_PER_ENTITY") = inl cause)
    end.
Proof.
  intros Getenv ParseDuration Atoi Quote.
  destruct (Config.Load Getenv ParseDuration Atoi Quote) as [err|cfg] eqn:E.
  - unfold Config.Load, GoStr.nonempty in E.
    destruct (String.eqb_spec (Getenv "ITPORTAL_BASE_URL") "") as [|H1]; [auto|].
    destruct (String.eqb_spec (Getenv "ITPORTAL_API_KEY") "") as [|H2]; [auto|].
    destruct (String.eqb_spec (Getenv "MCP_API_KEY") "") as [|H3]; [auto|].
    do 3 right.
    destruct (String.eqb_spec (Getenv "SNAPSHOT_REFRESH_INTERVAL") "") as [|H4];
      cbn [negb] in E.
    + right.
      destruct (String.eqb_spec (Getenv "SNAPSHOT_LIMIT_PER_ENTITY") "") as [|H5];
        cbn [negb] in E; [discriminate|].
      destruct (Atoi _) as [e2|n] eqn:A; [|discriminate]. split; eauto.
    + destruct (ParseDuration _) as [e1|d] eqn:P; [left; split; eauto|]. right.
      destruct (String.eqb_spec (Getenv "SNAPSHOT_LIMIT_PER_ENTITY") "") as [|H5];
        cbn [negb] in E; [discriminate|].
      destruct (Atoi _) as [e2|n] eqn:A; [|discriminate]. split; eauto.
  - destruct (Load_inr _ _ _ _ _ E) as (B1 & B2 & K1 & K2 & M1 & M2 & L & I & N).
    repeat split; auto.
    + rewrite L. destruct (String.eqb_spec (Getenv "MCP_LISTEN_ADDR") ""); [discriminate|auto].
    + intros H. now rewrite L, H.
    + intros H. now rewrite H in I.
    + intros H. apply String.eqb_neq in H. now rewrite H in I.
    + intros H. now rewrite H in N.
    + intros H. apply String.eqb_neq in H. now rewrite H in N.
Qed.

(** X20.  With a loaded configuration the server cannot be entered
    without a key.  [Load] refuses an empty [MCP_API_KEY], so under the
    middleware built from a loaded configuration a request without an
    [Authorization] header is answered 401, a bare ["Bearer "] with an
    empty token is answered 403, and a request is forwarded only when the
    header is ["Bearer "] followed by the non-empty key of the
    environment. *)
Theorem configured_key_rejects_anonymous :
  forall (Getenv : string -> string) (ParseDuration Atoi : string -> error + Z)
         (Quote : string -> string) (cfg : Config.Config) (r : Server.HttpRequest),
    Config.Load Getenv ParseDuration Atoi Quote = inr cfg ->
    (Server.Header_Get (Server.req_Header r) "Authorization" = EmptyString ->
     snd (Server.apiKeyMiddleware (Config.MCPAPIKey cfg) r)
     = Server.HttpError "Unauthorized" 401) /\
    (Server.Header_Get (Server.req_Header r) "Authorization" = "Bearer " ->
     snd (Server.apiKeyMiddleware (Config.MCPAPIKey cfg) r)
     = Server.HttpError "Forbidden" 403) /\
    (snd (Server.apiKeyMiddleware (Config.MCPAPIKey cfg) r) = Server.Next ->
     Server.Header_Get (Server.req_Header r) "Authorization"
     = "Bearer " ++ Getenv "MCP_API_KEY" /\
     (String.length (Server.Header_Get (Server.req_Header r) "Authorization") > 7)%nat).
Proof.
  intros Getenv ParseDuration Atoi Quote cfg r E.
  destruct (Load_inr _ _ _ _ _ E) as (_ & _ & _ & _ & M1 & M2 & _).
  unfold Server.apiKeyMiddleware.
  set (h := Server.Header_Get (Server.req_Header r) "Authorization").
  split; [|split].
  - intros ->. reflexivity.
  - intros ->. cbn. destruct (Config.MCPAPIKey cfg); [contradiction|reflexivity].
  - destruct (GoStr.HasPrefix h "Bearer ") eqn:Hp; cbn [negb snd]; [|discriminate].
    pose proof (HasPrefix_inv _ _ Hp) as Hh.
    destruct (String.eqb_spec (GoStr.TrimPrefix h "Bearer ") (Config.MCPAPIKey cfg)) as [Ht|Ht];
      cbn [negb snd]; [|discriminate].
    intros _. assert (Eh : h = "Bearer " ++ Config.MCPAPIKey cfg) by (now rewrite <- Ht).
    split; [now rewrite Eh, M1|].
    rewrite Eh. destruct (Config.MCPAPIKey cfg); [contradiction|]. cbn. lia.
Qed.

Lemma configured_key_rejects_anonymous_witness :
  (Server.Header_Get (Server.req_Header (Server.mkHttpRequest [] "203.0.113.9:4711"))
                     "Authorization" = EmptyString ->
   snd (Server.apiKeyMiddleware
          (Config.MCPAPIKey
             (Config.mkConfig "https://portal.example" "remote-key" "s3cr3t" ":8080"
                (30 * Config.Minute) 250))
          (Server.mkHttpRequest [] "203.0.113.9:4711"))
   = Server.HttpError "Unauthorized" 401) /\
  (Server.Header_Get (Server.req_Header (Server.mkHttpRequest [] "203.0.113.9:4711"))
                     "Authorization" = "Bearer " ->
   snd (Server.apiKeyMiddleware
          (Config.MCPAPIKey
             (Config.mkConfig "https://portal.example" "remote-key" "s3cr3t" ":8080"
                (30 * Config.Minute) 250))
          (Server.mkHttpRequest [] "203.0.113.9:4711"))
   = Server.HttpError "Forbidden" 403) /\
  (snd (Server.apiKeyMiddleware
          (Config.MCPAPIKey
             (Config.mkConfig "https://portal.example" "remote-key" "s3cr3t" ":8080"
                (30 * Config.Minute) 250))
          (Server.mkHttpRequest [] "203.0.113.9:4711")) = Server.Next ->
   Server.Header_Get (Server.req_Header (Server.mkHttpRequest [] "203.0.113.9:4711"))
                     "Authorization"
   = "Bearer " ++ Config.sampleEnv "MCP_API_KEY" /\
   (String.length
      (Server.Header_Get (Server.req_Header (Server.mkHttpRequest [] "203.0.113.9:4711"))
                         "Authorization") > 7)%nat).
Proof.
  apply (configured_key_rejects_anonymous Config.sampleEnv Config.sampleParseDuration
           Config.sampleAtoi (fun v => v)).
  reflexivity.
Defined.

(** ** Addresses *)

Section AddressFacts.
Import Cache.

Lemma Join_nonempty_parts (parts : list string) (sep : string) :
  Forall (fun p => p <> EmptyString) parts ->
  (Join parts sep = EmptyString <-> parts = []).
Proof.
  intros H. split; [|now intros ->].
  destruct H as [|p parts Hp _]; [reflexivity|]. unfold Join. cbn [String.concat].
  destruct parts; [contradiction|]. destruct p; [contradiction|discriminate].
Qed.

Lemma filter_app_one (f : string -> bool) (xs : list string) (x : string) :
  (if f x then (filter f xs ++ [x])%list else filter f xs) = filter f (xs ++ [x])%list.
Proof. rewrite filter_app. cbn [filter]. destruct (f x); [reflexivity|now rewrite app_nil_r]. Qed.

End AddressFacts.

(** X21.  [formatAddress] joins what is there.  Its result is the
    non-empty ones among the first address line, the second, the trimmed
    ["City State Zip"] and the country, in this order and separated by
    [", "]; so no separator is written for a missing part, and the result
    is empty exactly when all four are.  The address bullet of the
    renderers is written for every non-nil address, also when this text is
    empty. *)
Theorem formatAddress_joins_nonempty_parts :
  forall a : Address.t,
    Cache.formatAddress (Some a)
    = Join (filter nonempty
              [Address.Address1 a; Address.Address2 a;
               TrimSpace (Address.City a ++ " " ++ Address.State a ++ " " ++ Address.Zip a);
               Address.Country a]) ", " /\
    (Cache.formatAddress (Some a) = EmptyString <->
     Address.Address1 a = EmptyString /\ Address.Address2 a = EmptyString /\
     TrimSpace (Address.City a ++ " " ++ Address.State a ++ " " ++ Address.Zip a)
     = EmptyString /\
     Address.Country a = EmptyString) /\
    Cache.bulletAddress (Some a) = Cache.bullet "Address" (Cache.formatAddress (Some a)).
Proof.
  intros a.
  assert (E : Cache.formatAddress (Some a)
              = Join (filter nonempty
                        [Address.Address1 a; Address.Address2 a;
                         TrimSpace (Address.City a ++ " " ++ Address.State a ++ " "
                                    ++ Address.Zip a);
                         Address.Country a]) ", ").
  { unfold Cache.formatAddress. cbn [filter List.app].
    destruct (nonempty (Address.Address1 a)), (nonempty (Address.Address2 a)),
      (nonempty (TrimSpace _)), (nonempty (Address.Country a)); reflexivity. }
  split; [exact E|]. split; [|reflexivity].
  rewrite E, Join_nonempty_parts.
  - unfold nonempty. cbn [filter].
    destruct (String.eqb_spec (Address.Address1 a) "");
      destruct (String.eqb_spec (Address.Address2 a) "");
      destruct (String.eqb_spec (TrimSpace (Address.City a ++ " " ++ Address.State a
                                            ++ " " ++ Address.Zip a)) "");
      destruct (String.eqb_spec (Address.Country a) ""); cbn [negb];
      split; try discriminate; try tauto; intros (? & ? & ? & ?); contradiction.
  - apply Forall_forall. intros p Hp. apply filter_In in Hp. destruct Hp as [_ Hp].
    unfold nonempty in Hp. intros ->. discriminate.
Qed.

(** ** [list_entities]: the filters sent *)

Section FilterFacts.
Import Url.

Lemma Get_setStr_same k v q : Get q k = "" -> Get (setStr k v q) k = v.
Proof.
  intros H. unfold setStr, nonempty.
  destruct (String.eqb_spec v ""); cbn [negb]; [congruence|apply Get_Set_same].
Qed.

Lemma setStr_empty k q : setStr k "" q = q.
Proof. reflexivity. Qed.

Lemma setBool_None k q : setBool k None q = q.
Proof. reflexivity. Qed.

Lemma Has_zero_page (off : Z) (k : string) :
  k <> "limit" -> k <> "offset" ->
  Has (toQuery (Some (withPage zeroListOptions pageSize off))) k = false.
Proof.
  intros H1 H2. unfold toQuery, withPage, zeroListOptions.
  cbn [Name NameStartsWith CompanyID SiteID FacilityID CabinetID TypeName IPAddress
       MacAddress SerialNumber Tag Manufacturer ModifiedSince InOut Deleted ForeignID
       Limit Offset OrderBy Extra fold_left].
  unfold setStr, setBool. cbn [nonempty String.eqb negb].
  rewrite !Has_setPos_other by auto. reflexivity.
Qed.

End FilterFacts.

Ltac filter_key :=
  unfold toQuery, Mcp.optionsOf;
  cbn [Name NameStartsWith CompanyID SiteID FacilityID CabinetID TypeName IPAddress
       MacAddress SerialNumber Tag Manufacturer ModifiedSince InOut Deleted ForeignID
       Limit Offset OrderBy Extra fold_left];
  skip_keys; apply Get_setStr_same; skip_keys; reflexivity.

Ltac unused_key :=
  unfold toQuery, Mcp.optionsOf;
  cbn [Name NameStartsWith CompanyID SiteID FacilityID CabinetID TypeName IPAddress
       MacAddress SerialNumber Tag Manufacturer ModifiedSince InOut Deleted ForeignID
       Limit Offset OrderBy Extra fold_left];
  repeat first [ rewrite setStr_empty | rewrite setBool_None
               | rewrite Has_setStr_other by discriminate
               | rewrite Has_setPos_other by discriminate ];
  reflexivity.


(** X23.  The background refresh needs a positive interval, and [Load]
    does not ask for one.  With a configuration that [Load] returned and a
    cache that [New] built from it, the goroutine of
    [StartBackgroundRefresh] panics in [time.NewTicker] exactly when the
    configured interval is zero or negative, which happens whenever
    [SNAPSHOT_REFRESH_INTERVAL] parses to such a duration; with the
    variable unset (30 minutes) it runs. *)
Theorem StartBackgroundRefresh_needs_positive_interval :
  forall (Getenv : string -> string) (ParseDuration Atoi : string -> error + Z)
         (Quote : string -> string) (cfg : Config.Config)
         (run : Cache.Run) (logs : list LogRecord) (c : Cache.Cache)
         (signals : list Cache.Signal),
    Config.Load Getenv ParseDuration Atoi Quote = inr cfg ->
    Cache.New run (Config.SnapshotLimitPerEntity cfg) (Config.SnapshotRefreshInterval cfg)
    = (logs, inr c) ->
    (Background.StartBackgroundRefresh c signals = None <->
     Config.SnapshotRefreshInterval cfg <= 0) /\
    (Getenv "SNAPSHOT_REFRESH_INTERVAL" = EmptyString ->
     Background.StartBackgroundRefresh c signals = Some (Cache.backgroundLoop signals c)).
Proof.
  intros Getenv ParseDuration Atoi Quote cfg run logs c signals HL HN.
  assert (Hi : Cache.refreshInterval c = Config.SnapshotRefreshInterval cfg).
  { unfold Cache.New in HN.
    destruct (Cache.build (Config.SnapshotLimitPerEntity cfg) run); [discriminate|].
    injection HN as _ <-. reflexivity. }
  unfold Background.StartBackgroundRefresh. rewrite Hi. split.
  - destruct (Z.leb_spec (Config.SnapshotRefreshInterval cfg) 0); split;
      try discriminate; auto; lia.
  - intros He. destruct (Load_inr _ _ _ _ _ HL) as (_ & _ & _ & _ & _ & _ & _ & I & _).
    rewrite He in I. cbn in I. rewrite I. reflexivity.
Qed.

(** An environment with [SNAPSHOT_REFRESH_INTERVAL=0s]: the configuration
    loads, the cache is built, and the ticker panics. *)
Lemma StartBackgroundRefresh_needs_positive_interval_witness :
  (Background.StartBackgroundRefresh
     (Cache.Store (Cache.mkCache 1000 0 None)
        (Cache.mkSnapshot Cache.sampleTime
           (Cache.buildMarkdown
              (Cache.mkSnapshot Cache.sampleTime EmptyString [Cache.sampleCompany]
                 [] [] [] [] [] [] [] [] [] [] []))
           [Cache.sampleCompany] [] [] [] [] [] [] [] [] [] [] []))
     [] = None <->
   Config.SnapshotRefreshInterval
     (Config.mkConfig "https://portal.example" "remote-key" "s3cr3t" ":8080" 0 1000) <= 0) /\
  (Background.zeroIntervalEnv "SNAPSHOT_REFRESH_INTERVAL" = EmptyString ->
   Background.StartBackgroundRefresh
     (Cache.Store (Cache.mkCache 1000 0 None)
        (Cache.mkSnapshot Cache.sampleTime
           (Cache.buildMarkdown
              (Cache.mkSnapshot Cache.sampleTime EmptyString [Cache.sampleCompany]
                 [] [] [] [] [] [] [] [] [] [] []))
           [Cache.sampleCompany] [] [] [] [] [] [] [] [] [] [] []))
     []
   = Some (Cache.backgroundLoop []
             (Cache.Store (Cache.mkCache 1000 0 None)
                (Cache.mkSnapshot Cache.sampleTime
                   (Cache.buildMarkdown
                      (Cache.mkSnapshot Cache.sampleTime EmptyString [Cache.sampleCompany]
                         [] [] [] [] [] [] [] [] [] [] []))
                   [Cache.sampleCompany] [] [] [] [] [] [] [] [] [] [] [])))).
Proof.
  apply (StartBackgroundRefresh_needs_positive_interval Background.zeroIntervalEnv
           Background.zeroParseDuration Config.sampleAtoi (fun v => v)
           (Config.mkConfig "https://portal.example" "remote-key" "s3cr3t" ":8080" 0 1000)
           Cache.sampleRun
           [mkLog LevelInfo "initial snapshot built"
              (Cache.counts
                 (Cache.mkSnapshot Cache.sampleTime EmptyString [Cache.sampleCompany]
                    [] [] [] [] [] [] [] [] [] [] []))]).
  - reflexivity.
  - reflexivity.
Defined.

(** ** [search_docs]: the section filter *)

Section NarrowFacts.
Import Search.

Lemma prefix_split (w s : string) :
  String.prefix w s = true -> exists rest, s = w ++ rest.
Proof.
  intros H. exists (GoStr.TrimPrefix s w). now apply HasPrefix_inv.
Qed.

Lemma prefix_app (w s t : string) :
  String.prefix w s = true -> String.prefix w (s ++ t) = true.
Proof.
  intros H. destruct (prefix_split _ _ H) as [rest ->]. rewrite append_assoc.
  apply HasPrefix_app.
Qed.

(** The first occurrence splits the text. *)
Lemma index_split (w s : string) (n : nat) :
  w <> EmptyString -> String.index 0 w s = Some n ->
  exists pre rest, s = pre ++ w ++ rest /\ String.length pre = n.
Proof.
  intros Hw. revert n. induction s as [|c s IH]; intros n; cbn [String.index].
  - destruct w; [contradiction|discriminate].
  - destruct (String.prefix w (String c s)) eqn:P.
    + intros [= <-]. destruct (prefix_split _ _ P) as [rest E].
      exists EmptyString, rest. now split.
    + destruct (String.index 0 w s) as [n0|]; [|discriminate]. intros [= <-].
      destruct (IH n0 eq_refl) as (pre & rest & -> & Hl).
      exists (String c pre), rest. split; [reflexivity|]. cbn. now rewrite Hl.
Qed.

Lemma index_lt_length (w s : string) (n : nat) :
  w <> EmptyString -> String.index 0 w s = Some n -> (n < String.length s)%nat.
Proof.
  intros Hw H. destruct (index_split w s n Hw H) as (pre & rest & -> & <-).
  rewrite !string_length_append. destruct w; [contradiction|]. cbn. lia.
Qed.

(** An occurrence in a prefix is an occurrence in the whole, and the first
    occurrence in the whole is no later. *)
Lemma index_app_left (w s t : string) (n : nat) :
  String.index 0 w s = Some n ->
  exists n', String.index 0 w (s ++ t) = Some n' /\ (n' <= n)%nat.
Proof.
  revert n. induction s as [|c s IH]; intros n; cbn [String.index append].
  - destruct w; [|discriminate]. intros [= <-]. exists O. split; [|lia].
    destruct t; reflexivity.
  - destruct (String.prefix w (String c s)) eqn:P.
    + intros [= <-]. exists O. split; [|lia].
      change (String c (s ++ t)) with (String c s ++ t).
      now rewrite (prefix_app _ _ t P).
    + destruct (String.index 0 w s) as [n0|]; [|discriminate]. intros [= <-].
      destruct (IH n0 eq_refl) as (n' & -> & Hle).
      destruct (String.prefix w (String c (s ++ t))); eexists; split; eauto; lia.
Qed.

Lemma index_before_first (w pre rest : string) :
  w <> EmptyString ->
  String.index 0 w (pre ++ w ++ rest) = Some (String.length pre) ->
  String.index 0 w pre = None.
Proof.
  intros Hw H. destruct (String.index 0 w pre) as [p|] eqn:E; [|reflexivity].
  pose proof (index_lt_length _ _ _ Hw E).
  destruct (index_app_left w pre (w ++ rest) p E) as (n' & Hn & Hle).
  rewrite H in Hn. injection Hn as <-. lia.
Qed.

(** A heading line is skipped in one step by the search for the next
    section. *)
Lemma index_past_line (w rest : string) :
  oneLine w = true ->
  String.index 0 (Cache.nl ++ "## ") (w ++ rest)
  = option_map (Nat.add (String.length w)) (String.index 0 (Cache.nl ++ "## ") rest).
Proof.
  induction w as [|c w IH]; cbn [oneLine String.length append]; intros H.
  - now destruct (String.index 0 _ rest).
  - apply andb_prop in H. destruct H as [Hc Hw].
    cbn [String.index]. rewrite (IH Hw).
    assert (P : String.prefix (Cache.nl ++ "## ") (String c (w ++ rest)) = false).
    { unfold Cache.nl. cbn [append String.prefix].
      destruct (ascii_dec (ascii_of_nat 10) c) as [E|]; [|reflexivity].
      subst c. rewrite Ascii.eqb_refl in Hc. discriminate. }
    rewrite P. now destruct (String.index 0 _ rest).
Qed.

Lemma substring_drop (k : nat) (s : string) :
  substring k (String.length s - k) s = GoStr.drop k s.
Proof.
  revert k. induction s as [|c s IH]; intros k.
  - destruct k; reflexivity.
  - destruct k as [|k]; cbn [String.length Nat.sub GoStr.drop substring].
    + f_equal. specialize (IH O). rewrite Nat.sub_0_r in IH. exact IH.
    + apply IH.
Qed.

Lemma drop_app_length (pre t : string) (k : nat) :
  GoStr.drop (String.length pre + k) (pre ++ t) = GoStr.drop k t.
Proof. induction pre as [|c pre IH]; cbn; auto. Qed.

Lemma substring_app_skip (pre t : string) (n : nat) :
  substring (String.length pre) n (pre ++ t) = substring 0 n t.
Proof. induction pre as [|c pre IH]; cbn; auto. Qed.

Lemma substring_0_app (a t : string) (k : nat) :
  substring 0 (String.length a + k) (a ++ t) = a ++ substring 0 k t.
Proof. induction a as [|c a IH]; cbn [String.length append Nat.add substring]; [reflexivity|now rewrite IH]. Qed.

Lemma sectionHeader_oneLine (ToLower : string -> string) (entityType : string) :
  oneLine ("## " ++ sectionHeader ToLower entityType) = true.
Proof.
  unfold sectionHeader.
  repeat match goal with
         | |- context [if ?c then _ else _] => destruct c
         end; reflexivity.
Qed.

Lemma narrow_section (ToLower : string -> string) (pre rest entityType : string) :
  entityType <> EmptyString ->
  sectionHeader ToLower entityType <> EmptyString ->
  String.index 0 (Cache.nl ++ "## " ++ sectionHeader ToLower entityType)
               (pre ++ (Cache.nl ++ "## " ++ sectionHeader ToLower entityType) ++ rest)
  = Some (String.length pre) ->
  narrow ToLower (pre ++ (Cache.nl ++ "## " ++ sectionHeader ToLower entityType) ++ rest)
         entityType
  = (Cache.nl ++ "## " ++ sectionHeader ToLower entityType)
    ++ match String.index 0 (Cache.nl ++ "## ") rest with
       | Some i => substring 0 i rest
       | None => rest
       end.
Proof.
  intros He Hh Hi.
  set (h := sectionHeader ToLower entityType) in *.
  set (needle := Cache.nl ++ "## " ++ h) in *.
  set (md := pre ++ needle ++ rest) in *.
  assert (Hlen : String.length md
                 = (String.length pre + S (String.length ("## " ++ h)) + String.length rest)%nat).
  { unfold md, needle. rewrite !string_length_append. cbn [Cache.nl String.length]. lia. }
  unfold narrow, GoStr.nonempty.
  apply String.eqb_neq in He. rewrite He. cbn [negb].
  fold h. apply String.eqb_neq in Hh. rewrite Hh. cbn [negb].
  fold needle. fold md.
  assert (Hidx : Index md needle = Z.of_nat (String.length pre))
    by (unfold Index; now rewrite Hi).
  cbv zeta. rewrite !Hidx.
  assert (Hs : (Z.of_nat (String.length pre) =? -1) = false) by (apply Z.eqb_neq; lia).
  rewrite Hs. cbn [negb].
  assert (Hmd' : slice md (Z.of_nat (String.length pre) + 1) (len md)
                 = ("## " ++ h) ++ rest).
  { unfold slice, len.
    replace (Z.to_nat (Z.of_nat (String.length pre) + 1)) with (String.length pre + 1)%nat by lia.
    replace (Z.to_nat (Z.of_nat (String.length md) - (Z.of_nat (String.length pre) + 1)))
      with (String.length md - (String.length pre + 1))%nat by lia.
    rewrite substring_drop. unfold md. rewrite drop_app_length. reflexivity. }
  unfold findNextSection. rewrite Hmd'. unfold Index.
  rewrite (index_past_line ("## " ++ h) rest (sectionHeader_oneLine ToLower entityType)).
  destruct (String.index 0 (Cache.nl ++ "## ") rest) as [i|] eqn:Ei; cbn [option_map].
  - assert (Hne : (Z.of_nat (String.length ("## " ++ h) + i) =? -1) = false)
      by (apply Z.eqb_neq; lia).
    rewrite Hne.
    assert (Hgt : (Z.of_nat (String.length pre) + 1 + Z.of_nat (String.length ("## " ++ h) + i)
                   >? Z.of_nat (String.length pre)) = true) by (apply Z.gtb_lt; lia).
    rewrite Hgt. unfold slice.
    replace (Z.to_nat (Z.of_nat (String.length pre))) with (String.length pre) by lia.
    replace (Z.to_nat (Z.of_nat (String.length pre) + 1
                       + Z.of_nat (String.length ("## " ++ h) + i)
                       - Z.of_nat (String.length pre)))
      with (String.length needle + i)%nat
      by (unfold needle; rewrite (string_length_append Cache.nl); cbn [Cache.nl String.length]; lia).
    unfold md. rewrite substring_app_skip. apply substring_0_app.
  - rewrite Z.eqb_refl.
    assert (Hgt : (len md >? Z.of_nat (String.length pre)) = true)
      by (apply Z.gtb_lt; unfold len; lia).
    rewrite Hgt. unfold slice, len.
    replace (Z.to_nat (Z.of_nat (String.length pre))) with (String.length pre) by lia.
    replace (Z.to_nat (Z.of_nat (String.length md) - Z.of_nat (String.length pre)))
      with (String.length md - String.length pre)%nat by lia.
    rewrite substring_drop. unfold md.
    rewrite <- (Nat.add_0_r (String.length pre)). rewrite drop_app_length. reflexivity.
Qed.

End NarrowFacts.

(** X24.  The section filter confines the search to one section.  When
    the filter is empty, names an unknown kind, or names a section whose
    heading line is not in the text, the whole document is searched.
    Otherwise the text searched is a contiguous piece of the document: it
    starts at the first occurrence of the heading line of the section,
    holds no further top-level heading, and ends either with the document
    or right before the next top-level heading. *)
Theorem narrow_confines_search_to_section :
  forall (ToLower : string -> string) (markdown entityType : string),
    (entityType = EmptyString \/
     Search.sectionHeader ToLower entityType = EmptyString \/
     Search.Index markdown (Cache.nl ++ "## " ++ Search.sectionHeader ToLower entityType) = -1 ->
     Search.narrow ToLower markdown entityType = markdown) /\
    (entityType <> EmptyString ->
     Search.sectionHeader ToLower entityType <> EmptyString ->
     Search.Index markdown (Cache.nl ++ "## " ++ Search.sectionHeader ToLower entityType) <> -1 ->
     exists pre post : string,
       markdown = pre ++ Search.narrow ToLower markdown entityType ++ post /\
       Search.Index pre (Cache.nl ++ "## " ++ Search.sectionHeader ToLower entityType) = -1 /\
       GoStr.HasPrefix (Search.narrow ToLower markdown entityType)
                       (Cache.nl ++ "## " ++ Search.sectionHeader ToLower entityType) = true /\
       Search.Index (GoStr.drop 1 (Search.narrow ToLower markdown entityType))
                    (Cache.nl ++ "## ") = -1 /\
       (post = EmptyString \/ GoStr.HasPrefix post (Cache.nl ++ "## ") = true)).
Proof.
  intros ToLower md et. split.
  - unfold Search.narrow, GoStr.nonempty.
    destruct (String.eqb_spec et ""); cbn [negb]; [reflexivity|].
    destruct (String.eqb_spec (Search.sectionHeader ToLower et) ""); cbn [negb]; [reflexivity|].
    intros [H|[H|H]]; try contradiction. rewrite H. reflexivity.
  - intros He Hh Hi.
    set (needle := Cache.nl ++ "## " ++ Search.sectionHeader ToLower et) in *.
    assert (Hn : needle <> EmptyString) by discriminate.
    unfold Search.Index in Hi.
    destruct (String.index 0 needle md) as [s|] eqn:Es; [clear Hi|contradiction].
    destruct (index_split needle md s Hn Es) as (pre & rest & -> & <-).
    pose proof (narrow_section ToLower pre rest et He Hh Es) as N. fold needle in N.
    rewrite N. clear N.
    pose proof (index_before_first needle pre rest Hn Es) as Hpre.
    assert (Htail : forall body,
               GoStr.drop 1 (needle ++ body)
               = ("## " ++ Search.sectionHeader ToLower et) ++ body) by reflexivity.
    destruct (String.index 0 (Cache.nl ++ "## ") rest) as [i|] eqn:Ei.
    + destruct (index_split (Cache.nl ++ "## ") rest i ltac:(discriminate) Ei)
        as (r1 & r2 & -> & <-).
      rewrite substring_prefix.
      exists pre, ((Cache.nl ++ "## ") ++ r2). repeat split.
      * now rewrite !append_assoc.
      * unfold Search.Index. now rewrite Hpre.
      * apply HasPrefix_app.
      * rewrite Htail. unfold Search.Index.
        rewrite (index_past_line _ r1 (sectionHeader_oneLine ToLower et)).
        rewrite (index_before_first (Cache.nl ++ "## ") r1 r2 ltac:(discriminate) Ei).
        reflexivity.
      * right. apply HasPrefix_app.
    + exists pre, EmptyString. repeat split.
      * now rewrite append_nil_r.
      * unfold Search.Index. now rewrite Hpre.
      * apply HasPrefix_app.
      * rewrite Htail. unfold Search.Index.
        rewrite (index_past_line _ rest (sectionHeader_oneLine ToLower et)), Ei.
        reflexivity.
      * now left.
Qed.
